(** * cnpj-getter: the acquisition subsystem, embedded and verified

    A shallow embedding of
      - [src/app/config.py]            ([get_default_cnpj_month], [get_settings]),
      - [src/app/pipeline/download.py] ([CNPJDownloader]),
      - [src/app/orchestrator/find.py] ([CNPJMonthFinder]),
      - [src/main.py]                  ([main]),
    followed by the properties the specification states about them and by
    further properties of the same code.

    Conventions of the embedding.
      - A Python [str] is a [string] whose characters are code points below
        256 (Latin-1); [lower], [isdigit] follow Python on that range.
      - The network and the clock are not part of the program: a [Remote]
        answers every request as a function of the request counter, so that a
        remote may change its mind between two requests.
      - Code with effects lives in the monad [M]: it reads and updates a
        [State] (local files and request counter), emits [Event]s (requests,
        sleeps, printed lines) and ends with a value or a raised [Exn].
      - The thread pool of [_download_once] is run with one worker: tasks are
        executed to completion in submission order, one of the schedules the
        executor admits.  Statements about the order of transfers within a
        round are made up to permutation.
      - A [datetime] is an integer number of microseconds and its
        arithmetic is exact; Python's OverflowError outside the years 1 to
        9999 is not shown, and a statement over every window carries a range
        hypothesis. *)

From Stdlib Require Import ZArith List String Ascii DecimalString Lia Permutation Sorted.
From stdpp Require Import gmap strings list sorting.

Import ListNotations.
Local Open Scope string_scope.
Local Open Scope Z_scope.

(* ================================================================== *)
(** * Python string primitives                                          *)
(* ================================================================== *)

Module Py.

  (** Code point of a character. *)
Definition ord (c : ascii) : nat := nat_of_ascii c.

Definition between (lo hi n : nat) : bool := (lo <=? n)%nat && (n <=? hi)%nat.

  (** [str.lower] on one code point below 256: the ASCII capitals and the
      Latin-1 capitals U+00C0..U+00DE (U+00D7, the multiplication sign,
      excepted) move up by 32. *)
Definition lower_char (c : ascii) : ascii :=
    let n := ord c in
    if between 65 90 n || between 192 214 n || between 216 222 n
    then ascii_of_nat (n + 32)
    else c.

Fixpoint lower (s : string) : string :=
    match s with
    | EmptyString => EmptyString
    | String c s' => String (lower_char c) (lower s')
    end.

  (** [s.startswith(p)] *)
Fixpoint startswith (s p : string) : bool :=
    match p, s with
    | EmptyString, _ => true
    | String _ _, EmptyString => false
    | String a p', String b s' => Ascii.eqb a b && startswith s' p'
    end.

  (** [s.endswith(p)] *)
Definition endswith (s p : string) : bool :=
    (String.length p <=? String.length s)%nat
    && String.eqb (substring (String.length s - String.length p) (String.length p) s) p.

  (** [p in s] for strings. *)
Fixpoint contains (p s : string) : bool :=
    startswith s p ||
    match s with
    | EmptyString => false
    | String _ s' => contains p s'
    end.

  (** [s.rstrip("/")] *)
Fixpoint rstrip_slash (s : string) : string :=
    match s with
    | EmptyString => EmptyString
    | String c s' =>
        match rstrip_slash s' with
        | EmptyString => if Ascii.eqb c "/" then EmptyString else String c EmptyString
        | r => String c r
        end
    end.

  (** [s.split("/")[-1]]: what follows the last slash, the whole of [s] when
      it has none. *)
Fixpoint last_segment (s : string) : string :=
    match s with
    | EmptyString => EmptyString
    | String c s' =>
        if contains "/" s' then last_segment s'
        else if Ascii.eqb c "/" then s' else s
    end.

  (** One code point satisfies [str.isdigit]: 0-9 and, below 256, the
      superscripts U+00B2, U+00B3 and U+00B9. *)
Definition isdigit_char (c : ascii) : bool :=
    let n := ord c in
    between 48 57 n || (n =? 178)%nat || (n =? 179)%nat || (n =? 185)%nat.

Fixpoint all_chars (f : ascii -> bool) (s : string) : bool :=
    match s with
    | EmptyString => true
    | String c s' => f c && all_chars f s'
    end.

  (** [s.isdigit()]: at least one character, all of them digits. *)
Definition isdigit (s : string) : bool :=
    negb (String.eqb s "") && all_chars isdigit_char s.

  (** [s[:n]] and [s[n:]] for [0 <= n]. *)
Definition slice_to (n : nat) (s : string) : string := substring 0 n s.
Definition slice_from (n : nat) (s : string) : string :=
    substring n (String.length s - n) s.

  (** [str(n)] for an [int]. *)
Definition str_int (n : Z) : string := NilZero.string_of_int (Z.to_int n).

  (** [f"{n:02d}"]: decimal, zero-padded to width 2. *)
Definition format_02d (n : Z) : string :=
    let s := str_int n in
    if (String.length s <? 2)%nat then "0" ++ s else s.

  (** A name all of whose code points are below 128. *)
Definition is_ascii (s : string) : bool :=
    all_chars (fun c => (ord c <? 128)%nat) s.

End Py.

(* ================================================================== *)
(** * src/app/config.py                                                *)
(* ================================================================== *)

(** [datetime.date]: the three fields [get_default_cnpj_month] can see. *)
Record date := { year : Z; month : Z; day : Z }.

(** [get_default_cnpj_month], with [date.today()] as its argument. *)
Definition get_default_cnpj_month (today : date) : string :=
  let year0 := year today in
  let month0 := month today - 1 in
  let '(year1, month1) :=
    if month0 =? 0 then (year0 - 1, 12) else (year0, month0) in
  Py.str_int year1 ++ "-" ++ Py.format_02d month1.

(* ================================================================== *)
(** * Effects: exceptions, events, local files                          *)
(* ================================================================== *)

(** The exception classes the code names or can meet.  [URLError] stands
    for [urllib.error.URLError] and its subclasses, [OtherException] for any
    [Exception] outside the classes listed here. *)
Inductive ExnClass :=
| URLError | TimeoutError | ConnectionResetError | RuntimeError
| ParseError | AttributeError | TypeError | ValueError | OtherException.

(** A raised exception: its class and [str(exc)]. *)
Record Exn := { exn_class : ExnClass; exn_str : string }.

Definition mkRuntimeError (msg : string) : Exn :=
  {| exn_class := RuntimeError; exn_str := msg |}.

(** What the program does to the outside world, in the order it does it. *)
Inductive Event :=
| Propfind (url : string)      (* a PROPFIND request was issued *)
| Get (url : string)           (* a GET request was issued *)
| Sleep (seconds : Z)          (* time.sleep *)
| Print (line : string).       (* print *)

(** Local storage and the number of requests issued so far.  A path is the
    string pathlib would print; a file is its bytes.  Directories are not
    represented: [mkdir(parents=True, exist_ok=True)] changes nothing that
    is. *)
Record State := { files : gmap string string; requests : nat }.

(** The state once one more request has been issued. *)
Definition tick (s : State) : State :=
  {| files := files s; requests := S (requests s) |}.

Record Outcome (A : Type) := {
  events : list Event;
  state : State;
  result : Exn + A
}.
Arguments events {A} _.
Arguments state {A} _.
Arguments result {A} _.

Definition M (A : Type) : Type := State -> Outcome A.

Definition ret {A} (x : A) : M A :=
  fun s => {| events := []; state := s; result := inr x |}.

Definition raise {A} (e : Exn) : M A :=
  fun s => {| events := []; state := s; result := inl e |}.

Definition bind {A B} (m : M A) (f : A -> M B) : M B :=
  fun s =>
    let o := m s in
    match result o with
    | inl e => {| events := events o; state := state o; result := inl e |}
    | inr x =>
        let o' := f x (state o) in
        {| events := events o ++ events o'; state := state o'; result := result o' |}
    end.

(** [try: m  except Exception as exc: h exc] *)
Definition try_except {A} (m : M A) (h : Exn -> M A) : M A :=
  fun s =>
    let o := m s in
    match result o with
    | inl e =>
        let o' := h e (state o) in
        {| events := events o ++ events o'; state := state o'; result := result o' |}
    | inr x => o
    end.

Declare Scope m_scope.
Delimit Scope m_scope with M.
Notation "x <- m ;; k" := (bind m (fun x => k))
  (at level 100, m at next level, right associativity) : m_scope.
Notation "m ;; k" := (bind m (fun _ => k))
  (at level 100, k at level 200, right associativity) : m_scope.
Local Open Scope m_scope.

Definition emit (ev : Event) : M unit :=
  fun s => {| events := [ev]; state := s; result := inr tt |}.

Definition sleep (seconds : Z) : M unit := emit (Sleep seconds).
Definition print (line : string) : M unit := emit (Print line).

Definition get_files : M (gmap string string) :=
  fun s => {| events := []; state := s; result := inr (files s) |}.

Definition set_files (fs : gmap string string) : M unit :=
  fun s => {| events := [];
              state := {| files := fs; requests := requests s |};
              result := inr tt |}.

(** [path.exists()] *)
Definition path_exists (path : string) : M bool :=
  fs <- get_files ;; ret (bool_decide (is_Some (fs !! path))).

(** [path.unlink(missing_ok=True)] *)
Definition unlink (path : string) : M unit :=
  fs <- get_files ;; set_files (delete path fs).

(** [path.open("wb")]: the file is created, or emptied when it exists. *)
Definition open_wb (path : string) : M unit :=
  fs <- get_files ;; set_files (<[path := ""]> fs).

(** [f.write(chunk)] on the file opened at [path]. *)
Definition write (path : string) (chunk : string) : M unit :=
  fs <- get_files ;;
  set_files (<[path := (default "" (fs !! path) ++ chunk)%string]> fs).

(** [path.exists() and path.stat().st_size > 0] *)
Definition present (fs : gmap string string) (path : string) : bool :=
  match fs !! path with
  | Some content => (0 <? String.length content)%nat
  | None => false
  end.

(** [pathlib]'s [dir / name], for a [name] that is one relative segment. *)
Definition path_join (dir name : string) : string := (dir ++ "/" ++ name)%string.

(** Projections of an event list. *)
Definition sleeps (evs : list Event) : list Z :=
  omap (fun ev => match ev with Sleep z => Some z | _ => None end) evs.

Definition gets (evs : list Event) : list string :=
  omap (fun ev => match ev with Get u => Some u | _ => None end) evs.

Definition propfinds (evs : list Event) : list string :=
  omap (fun ev => match ev with Propfind u => Some u | _ => None end) evs.

Definition prints (evs : list Event) : list string :=
  omap (fun ev => match ev with Print l => Some l | _ => None end) evs.

(** The events without the printed lines: requests and sleeps, in order. *)
Definition actions (evs : list Event) : list Event :=
  List.filter (fun ev => match ev with Print _ => false | _ => true end) evs.

(* ================================================================== *)
(** * src/app/pipeline/download.py                                     *)
(* ================================================================== *)

Record DownloadResult := {
  downloaded : list string;
  skipped : list string
}.

Module CNPJDownloader.

Definition WEBDAV_BASE : string :=
    "https://dados-hom.receitafederal.gov.br/public.php/webdav".

  (** The answer to one PROPFIND on a month directory: [urlopen],
      [resp.read] or [ET.fromstring] raised, or the document parsed and
      [tree.findall(".//{DAV:}href")] found these elements, each with its
      [text] ([None] for an element without text). *)
Inductive PropfindAnswer :=
  | PropfindRaises (e : Exn)
  | PropfindHrefs (hrefs : list (option string)).

  (** The [Content-Length] header as [_download_file] reads it: missing or
      empty, not an integer for [int()], or an integer. *)
Inductive ContentLength :=
  | LengthAbsent
  | LengthInvalid
  | LengthValue (n : Z).

  (** A response to GET: its headers, the chunks [resp.read(1024 * 1024)]
      returns one after the other, and what follows them: the end of the
      body ([None]), or an exception raised by the next read. *)
Record Response := {
    content_type : option string;
    content_length : ContentLength;
    body : list string;
    body_end : option Exn
  }.

Inductive GetAnswer :=
  | GetRaises (e : Exn)
  | GetResponds (r : Response).

  (** The remote side: the answer to the request numbered [n] (counting
      every request of the run) on [url]. *)
Record Remote := {
    propfind : nat -> string -> PropfindAnswer;
    get : nat -> string -> GetAnswer
  }.

  (** [_is_relevant_zip] *)
Definition _is_relevant_zip (name : string) : bool :=
    let name := Py.lower name in
    Py.startswith name "estabelecimentos"
    || Py.startswith name "empresas"
    || Py.startswith name "cnae"
    || Py.startswith name "municipios".

  (** The test of [_list_month_zips] on one name. *)
Definition selected (name : string) : bool :=
    Py.endswith (Py.lower name) ".zip" && _is_relevant_zip name.

Definition _build_month_dir (month : string) : string :=
    "/Dados/Cadastros/CNPJ/" ++ month.

Definition _build_file_url (month filename : string) : string :=
    WEBDAV_BASE ++ _build_month_dir month ++ "/" ++ filename.

Definition _ensure_dir (path : string) : M unit := ret tt.

  (** The exceptions named by the [except] clause of [_download_file]. *)
Definition transfer_caught (e : Exn) : bool :=
    match exn_class e with
    | URLError | TimeoutError | ConnectionResetError | RuntimeError => true
    | _ => false
    end.

  (** [f"{wait:.1f}"] for [wait = 3.0 * attempt ** 2], a float with an
      integer value. *)
Definition format_wait (wait : Z) : string := Py.str_int wait ++ ".0".

Section WithSelf.

Variable remote : Remote.
Variable raw_dir : string.

    (** One request: the counter moves on and the remote answers. *)
Definition http_propfind (url : string) : M PropfindAnswer :=
      fun s => {| events := [Propfind url];
                  state := tick s;
                  result := inr (propfind remote (requests s) url) |}.

Definition http_get (url : string) : M GetAnswer :=
      fun s => {| events := [Get url];
                  state := tick s;
                  result := inr (get remote (requests s) url) |}.

    (** The loop over [tree.findall(".//{DAV:}href")]: [elem.text.rstrip]
        raises [AttributeError] at an element without text. *)
Fixpoint collect_zip_names (hrefs : list (option string)) (zip_names : list string)
      : Exn + list string :=
      match hrefs with
      | [] => inr zip_names
      | None :: _ =>
          inl {| exn_class := AttributeError;
                 exn_str := "'NoneType' object has no attribute 'rstrip'" |}
      | Some text :: rest =>
          let name := Py.last_segment (Py.rstrip_slash text) in
          if selected name
          then collect_zip_names rest (zip_names ++ [name])%list
          else collect_zip_names rest zip_names
      end.

    (** What the [try] block of [_list_month_zips] makes of an answer. *)
Definition listing_of (a : PropfindAnswer) : Exn + list string :=
      match a with
      | PropfindRaises e => inl e
      | PropfindHrefs hrefs =>
          match collect_zip_names hrefs [] with
          | inl e => inl e
          | inr [] => inl (mkRuntimeError "No ZIPs found")
          | inr zip_names => inr zip_names
          end
      end.

    (** The [try] block of [_list_month_zips]. *)
Definition list_attempt (url : string) : M (list string) :=
      a <- http_propfind url ;;
      match listing_of a with
      | inl e => raise e
      | inr zip_names => ret zip_names
      end.

    (** The [for attempt in range(1, retries + 1)] loop of
        [_list_month_zips], with [remaining] iterations left. *)
Fixpoint list_loop (month url : string) (retries : Z) (remaining : nat) (attempt : Z)
      : M (list string) :=
      match remaining with
      | O => ret []
      | S remaining' =>
          try_except (list_attempt url)
            (fun exc =>
               if attempt =? retries
               then raise (mkRuntimeError ("Failed to list ZIPs for " ++ month))
               else
                 let wait := 3 * attempt ^ 2 in
                 print ("[DOWNLOADER] Retry " ++ Py.str_int attempt ++ "/"
                        ++ Py.str_int retries ++ " listing ZIPs for " ++ month
                        ++ " (waiting " ++ format_wait wait ++ "s)") ;;
                 sleep wait ;;
                 list_loop month url retries remaining' (attempt + 1))
      end.

Definition _list_month_zips (month : string) (retries : Z) : M (list string) :=
      let url := WEBDAV_BASE ++ _build_month_dir month ++ "/" in
      list_loop month url retries (Z.to_nat retries) 1.

    (** The [while True] loop of [_download_file] over the chunks read. *)
Fixpoint write_chunks (out_path : string) (chunks : list string) (ending : option Exn)
      : M unit :=
      match chunks with
      | [] =>
          match ending with
          | Some e => raise e
          | None => ret tt
          end
      | chunk :: rest =>
          if String.eqb chunk "" then ret tt
          else write out_path chunk ;; write_chunks out_path rest ending
      end.

    (** The [try] block of [_download_file]. *)
Definition download_attempt (url out_path : string) : M unit :=
      a <- http_get url ;;
      match a with
      | GetRaises e => raise e
      | GetResponds resp =>
          let content_type := Py.lower (default "" (content_type resp)) in
          if negb (Py.contains "zip" content_type)
          then raise (mkRuntimeError ("Expected ZIP, got " ++ content_type))
          else
            match content_length resp with
            | LengthInvalid =>
                raise {| exn_class := ValueError;
                         exn_str := "invalid literal for int() with base 10" |}
            | _ =>
                _ensure_dir out_path ;;
                open_wb out_path ;;
                write_chunks out_path (body resp) (body_end resp)
            end
      end.

    (** The [except] block of [_download_file] up to its [raise]. *)
Definition cleanup (out_path : string) : M unit :=
      b <- path_exists out_path ;;
      if b : bool then unlink out_path else ret tt.

    (** [out_path.name] *)
Definition path_name (out_path : string) : string := Py.last_segment out_path.

    (** The [for attempt in range(1, retries + 1)] loop of [_download_file]. *)
Fixpoint download_loop (url out_path : string) (retries : Z) (remaining : nat) (attempt : Z)
      : M unit :=
      match remaining with
      | O => ret tt
      | S remaining' =>
          try_except (download_attempt url out_path)
            (fun exc =>
               if transfer_caught exc then
                 cleanup out_path ;;
                 if attempt =? retries then raise exc
                 else
                   let wait := 3 * attempt ^ 2 in
                   print ("[DOWNLOADER] Retry " ++ Py.str_int attempt ++ "/"
                          ++ Py.str_int retries ++ " for " ++ path_name out_path
                          ++ " (waiting " ++ format_wait wait ++ "s)") ;;
                   sleep wait ;;
                   download_loop url out_path retries remaining' (attempt + 1)
               else raise exc)
      end.

Definition _download_file (url out_path : string) (retries : Z) : M unit :=
      download_loop url out_path retries (Z.to_nat retries) 1.

    (** The first loop of [_download_once]: expected names are split, by the
        local files as they are now, into [skipped] paths and [tasks]. *)
Fixpoint diff_names (fs : gmap string string) (month_dir : string)
        (zip_names : list string) (skipped : list string) (tasks : list (string * string))
      : list string * list (string * string) :=
      match zip_names with
      | [] => (skipped, tasks)
      | name :: rest =>
          let out_path := path_join month_dir name in
          if present fs out_path
          then diff_names fs month_dir rest (skipped ++ [out_path])%list tasks
          else diff_names fs month_dir rest skipped (tasks ++ [(name, out_path)])%list
      end.

    (** The pool of [_download_once]: every task is run, a task that returns
        adds its path to [downloaded], a task that raises is reported. *)
Fixpoint run_tasks (month month_dir : string) (tasks : list (string * string))
        (downloaded : list string) : M (list string) :=
      match tasks with
      | [] => ret downloaded
      | (name, out_path) :: rest =>
          let url := _build_file_url month name in
          downloaded' <-
            try_except
              (_download_file url out_path 3 ;;
               ret (downloaded ++ [path_join month_dir name])%list)
              (fun exc =>
                 print ("[DOWNLOADER] Failed to download " ++ name ++ ": " ++ exn_str exc) ;;
                 ret downloaded) ;;
          run_tasks month month_dir rest downloaded'
      end.

Definition _download_once (month : string) : M DownloadResult :=
      print ("[DOWNLOADER] Processing month " ++ month) ;;
      let month_dir := path_join raw_dir month in
      _ensure_dir month_dir ;;
      zip_names <- _list_month_zips month 5 ;;
      fs <- get_files ;;
      let '(skipped, tasks) := diff_names fs month_dir zip_names [] [] in
      match tasks with
      | [] =>
          print "[DOWNLOADER] Nothing to download" ;;
          ret {| downloaded := []; skipped := skipped |}
      | _ =>
          downloaded <- run_tasks month month_dir tasks [] ;;
          ret {| downloaded := downloaded; skipped := skipped |}
      end.

    (** The loop of [_find_missing_zips]. *)
Definition missing_names (fs : gmap string string) (month_dir : string)
        (expected : list string) : list string :=
      List.filter (fun name => negb (present fs (path_join month_dir name))) expected.

Definition _find_missing_zips (month : string) : M (list string) :=
      expected <- _list_month_zips month 5 ;;
      let month_dir := path_join raw_dir month in
      fs <- get_files ;;
      ret (missing_names fs month_dir expected).

    (** The [for round_num in range(1, max_rounds + 1)] loop of
        [download_month], with [remaining] rounds left. *)
Fixpoint month_loop (month : string) (max_rounds : Z) (remaining : nat) (round_num : Z)
        (downloaded_all skipped_all : list string) : M DownloadResult :=
      match remaining with
      | O =>
          raise (mkRuntimeError ("[DOWNLOADER] Failed to fully download month " ++ month
                                 ++ " after " ++ Py.str_int max_rounds ++ " rounds"))
      | S remaining' =>
          print ("[DOWNLOADER] Download round " ++ Py.str_int round_num ++ "/"
                 ++ Py.str_int max_rounds) ;;
          result <- _download_once month ;;
          let downloaded_all := (downloaded_all ++ downloaded result)%list in
          let skipped_all := skipped result in
          missing <- _find_missing_zips month ;;
          match missing with
          | [] =>
              print "[DOWNLOADER] Month download complete" ;;
              ret {| downloaded := downloaded_all; skipped := skipped_all |}
          | _ =>
              print ("[DOWNLOADER] Month incomplete: "
                     ++ Py.str_int (Z.of_nat (length missing)) ++ " ZIPs missing") ;;
              sleep 10 ;;
              month_loop month max_rounds remaining' (round_num + 1)
                downloaded_all skipped_all
          end
      end.

Definition download_month (month : string) : M DownloadResult :=
      print ("[DOWNLOADER] Ensuring complete download for " ++ month) ;;
      let max_rounds := 5 in
      month_loop month max_rounds (Z.to_nat max_rounds) 1 [] [].

End WithSelf.

End CNPJDownloader.

(* ================================================================== *)
(** * src/app/orchestrator/find.py                                     *)
(* ================================================================== *)

(** [sorted] order on [str]: code point by code point. *)
Definition str_le (a b : string) : Prop := String.leb a b = true.

Global Instance str_le_dec : RelDecision str_le.
Proof. intros a b. unfold str_le. apply _. Defined.

Global Instance str_le_total : Total str_le.
Proof. intros a b. apply String.leb_total. Qed.

Module CNPJMonthFinder.

Definition WEBDAV_BASE : string :=
    "https://dados-hom.receitafederal.gov.br/public.php/webdav".

  (** One [{DAV:}response] element as [_list_month_folders] reads it:
      [response.find("{DAV:}href")] and
      [response.find(".//{DAV:}getlastmodified")], each [None] when there is
      no such element, and else the [text] of the element, itself [None] for
      an element without text. *)
Record DavResponse := {
    href : option (option string);
    getlastmodified : option (option string)
  }.

Inductive PropfindAnswer :=
  | PropfindRaises (e : Exn)
  | PropfindResponses (responses : list DavResponse).

  (** A [datetime] in UTC, in microseconds since the epoch. *)
Definition datetime := Z.

  (** [timedelta(days=n)] in microseconds. *)
Definition timedelta_days (n : Z) : Z := n * 86400 * 1000000.

  (** [_is_month_folder] *)
Definition _is_month_folder (name : string) : bool :=
    if negb (String.length name =? 7)%nat then false
    else
      match String.get 4 name with
      | Some c => Ascii.eqb c "-"
      | None => false
      end
      && Py.isdigit (Py.slice_to 4 name)
      && Py.isdigit (Py.slice_from 5 name).

Section WithSelf.

    (** The remote side, [datetime.now(timezone.utc)], and
        [datetime.strptime(value, "%a, %d %b %Y %H:%M:%S %Z")] followed by
        [replace(tzinfo=timezone.utc)], [None] where it raises
        [ValueError]. *)
Variable propfind : nat -> string -> PropfindAnswer.
Variable now : datetime.
Variable strptime : string -> option datetime.
Variable days_window : Z.

Definition _cutoff_datetime : datetime := now - timedelta_days days_window.

    (** [_parse_http_datetime] on [prop.text]. *)
Definition _parse_http_datetime (value : option string) : Exn + datetime :=
      match value with
      | None =>
          inl {| exn_class := TypeError;
                 exn_str := "strptime() argument 1 must be str, not None" |}
      | Some v =>
          match strptime v with
          | Some t => inr t
          | None =>
              inl {| exn_class := ValueError;
                     exn_str := "time data does not match format" |}
          end
      end.

    (** The loop of [_list_month_folders] over the responses, filling the
        dict [months]. *)
Fixpoint collect_months (responses : list DavResponse) (months : gmap string datetime)
      : Exn + gmap string datetime :=
      match responses with
      | [] => inr months
      | response :: rest =>
          match href response, getlastmodified response with
          | None, _ | _, None => collect_months rest months
          | Some href_text, Some prop_text =>
              match href_text with
              | None =>
                  inl {| exn_class := AttributeError;
                         exn_str := "'NoneType' object has no attribute 'rstrip'" |}
              | Some text =>
                  let name := Py.last_segment (Py.rstrip_slash text) in
                  if negb (_is_month_folder name) then collect_months rest months
                  else
                    match _parse_http_datetime prop_text with
                    | inl e => inl e
                    | inr last_modified =>
                        collect_months rest (<[name := last_modified]> months)
                    end
              end
          end
      end.

Definition _list_month_folders : M (gmap string datetime) :=
      let url := WEBDAV_BASE ++ "/Dados/Cadastros/CNPJ/" in
      fun s =>
        {| events := [Propfind url];
           state := tick s;
           result :=
             match propfind (requests s) url with
             | PropfindRaises e => inl e
             | PropfindResponses responses => collect_months responses ∅
             end |}.

    (** The loop of [get_updated_months] over [months.items()] and the
        [sort] that follows.  The dict is read in an order of the map's own;
        the sort makes the result independent of it. *)
Definition updated_of (cutoff : datetime) (months : gmap string datetime) : list string :=
      merge_sort str_le
        (List.map fst
           (List.filter (fun item : string * datetime => cutoff <=? snd item)
              (map_to_list months))).

Definition get_updated_months : M (list string) :=
      print "[WATCHER] Checking updated months" ;;
      let cutoff := _cutoff_datetime in
      months <- _list_month_folders ;;
      let updated := updated_of cutoff months in
      print ("[WATCHER] " ++ Py.str_int (Z.of_nat (length updated)) ++ " months updated") ;;
      ret updated.

End WithSelf.

End CNPJMonthFinder.


(* ================================================================== *)
(** * More of Python's str: strip and repr                              *)
(* ================================================================== *)

Module PyStr.

  (** [str.isspace] on one character. *)
Definition isspace_char (c : ascii) : bool :=
    let n := Py.ord c in
    Py.between 9 13 n || Py.between 28 32 n || (n =? 133)%nat || (n =? 160)%nat.

Fixpoint lstrip (s : string) : string :=
    match s with
    | EmptyString => EmptyString
    | String c rest => if isspace_char c then lstrip rest else s
    end.

Fixpoint rstrip (s : string) : string :=
    match s with
    | EmptyString => EmptyString
    | String c rest =>
        match rstrip rest with
        | EmptyString => if isspace_char c then EmptyString else String c EmptyString
        | kept => String c kept
        end
    end.

  (** [s.strip()] *)
Definition strip (s : string) : string := rstrip (lstrip s).

Definition single_quote : ascii := ascii_of_nat 39.
Definition double_quote : ascii := ascii_of_nat 34.
Definition backslash : ascii := ascii_of_nat 92.

Fixpoint has_char (c : ascii) (s : string) : bool :=
    match s with
    | EmptyString => false
    | String d rest => Ascii.eqb c d || has_char c rest
    end.

  (** [str.isprintable] on one character. *)
Definition isprintable_char (c : ascii) : bool :=
    let n := Py.ord c in
    Py.between 32 126 n || Py.between 161 172 n || Py.between 174 255 n.

Definition hexdigit (n : nat) : ascii :=
    if (n <? 10)%nat then ascii_of_nat (48 + n) else ascii_of_nat (87 + n).

  (** One character inside [repr(s)], for the quote [repr] has chosen. *)
Definition repr_char (quote c : ascii) : string :=
    let n := Py.ord c in
    if Ascii.eqb c quote || Ascii.eqb c backslash then String backslash (String c "")
    else if (n =? 9)%nat then String backslash "t"
    else if (n =? 10)%nat then String backslash "n"
    else if (n =? 13)%nat then String backslash "r"
    else if isprintable_char c then String c ""
    else String backslash
           (String "x" (String (hexdigit (n / 16)) (String (hexdigit (n mod 16)) ""))).

Fixpoint repr_body (quote : ascii) (s : string) : string :=
    match s with
    | EmptyString => EmptyString
    | String c rest => repr_char quote c ++ repr_body quote rest
    end.

  (** [repr(s)] for a [str]: single quotes, unless the text has a single
      quote and no double quote. *)
Definition repr (s : string) : string :=
    let quote :=
      if has_char single_quote s && negb (has_char double_quote s)
      then double_quote else single_quote in
    String quote (repr_body quote s ++ String quote "").

  (** [", ".join(parts)] *)
Fixpoint join_comma (parts : list string) : string :=
    match parts with
    | [] => ""
    | [p] => p
    | p :: rest => p ++ ", " ++ join_comma rest
    end.

  (** [repr(l)] for a list of [str]. *)
Definition repr_list (l : list string) : string :=
    "[" ++ join_comma (List.map repr l) ++ "]".

  (** [repr(p)] for a [pathlib.Path] on a POSIX system. *)
Definition repr_path (p : string) : string := "PosixPath(" ++ repr p ++ ")".

  (** [dir / rel] for an absolute [dir] as [Path.resolve] gives it and a
      relative [rel]: only a root ends with a slash. *)
Definition truediv (dir rel : string) : string :=
    if Py.endswith dir "/" then dir ++ rel else dir ++ "/" ++ rel.

End PyStr.

(* ================================================================== *)
(** * src/app/config.py: the settings                                   *)
(* ================================================================== *)

Module Config.

Record Settings := {
    data_dir : string;
    duckdb_path : string;
    cnpj_month : string;
    nextcloud_public_token : string
  }.

  (** The [repr] a dataclass generates. *)
Definition repr_settings (st : Settings) : string :=
    "Settings(data_dir=" ++ PyStr.repr_path (data_dir st)
    ++ ", duckdb_path=" ++ PyStr.repr_path (duckdb_path st)
    ++ ", cnpj_month=" ++ PyStr.repr (cnpj_month st)
    ++ ", nextcloud_public_token=" ++ PyStr.repr (nextcloud_public_token st)
    ++ ")".

  (** [os.getenv(key, default)] *)
Definition getenv (env : gmap string string) (key default : string) : string :=
    match env !! key with
    | Some value => value
    | None => default
    end.

Section WithProcess.

    (** The process: [os.environ] once [load_dotenv()] has run,
        [str(Path(p).resolve())] and [date.today()]. *)
Variable env : gmap string string.
Variable resolve : string -> string.
Variable today : date.

Definition get_settings : Exn + Settings :=
      let data_dir := resolve (getenv env "DATA_DIR" "./data") in
      let duckdb_path :=
        resolve (getenv env "DUCKDB_PATH" (PyStr.truediv data_dir "db/local.duckdb")) in
      let cnpj_month := getenv env "CNPJ_MONTH" (get_default_cnpj_month today) in
      let nextcloud_public_token :=
        PyStr.strip (getenv env "NEXTCLOUD_PUBLIC_TOKEN" "") in
      if String.eqb nextcloud_public_token ""
      then inl (mkRuntimeError "NEXTCLOUD_PUBLIC_TOKEN environment variable is required")
      else inr {| data_dir := data_dir;
                  duckdb_path := duckdb_path;
                  cnpj_month := cnpj_month;
                  nextcloud_public_token := nextcloud_public_token |}.

End WithProcess.

End Config.

(* ================================================================== *)
(** * src/main.py: the command line                                     *)
(* ================================================================== *)

Module Main.

  (** How [main] ends when no exception of class [Exception] is raised: it
      returns, or it raises [SystemExit], which is none. *)
Inductive Ending :=
  | Returned
  | SystemExit (code : string).

  (** The result of [CNPJExtractor.extract_month]. *)
Record ExtractResult := {
    extracted_files : list string;
    skipped_files : list string;
    failed_files : list string
  }.

  (** [raise] or [return], as a pure call ends. *)
Definition lift {A} (r : Exn + A) : M A :=
    match r with
    | inl e => raise e
    | inr x => ret x
    end.

Section WithProcess.

Variable env : gmap string string.
Variable resolve : string -> string.
Variable today : date.

    (** The remote side of the downloader and of the finder, and the
        finder's clock. *)
Variable remote : CNPJDownloader.Remote.
Variable propfind : nat -> string -> CNPJMonthFinder.PropfindAnswer.
Variable now : CNPJMonthFinder.datetime.
Variable strptime : string -> option CNPJMonthFinder.datetime.

    (** The extractor and the warehouse are collaborators of [main]: any
        computation, given what their constructors receive ([raw_dir] and
        [extracted_dir]; [duckdb_path] and [extracted_dir]). *)
Variable extract_month : string -> string -> string -> M ExtractResult.
Variable setup : string -> string -> M unit.
Variable load_raw : string -> string -> string -> M unit.
Variable load_dim : string -> string -> string -> M unit.
Variable build_leads : string -> string -> string -> M unit.

    (** The body of [for month in months]. *)
Definition process_month (cmd raw_dir extracted_dir duckdb_path month : string)
      : M Ending :=
      print ("[MAIN] Processing month " ++ month) ;;
      if String.eqb cmd "download" then
        result <- CNPJDownloader.download_month remote raw_dir month ;;
        print ("Downloaded: " ++ Py.str_int (Z.of_nat (length (downloaded result)))) ;;
        print ("Skipped: " ++ Py.str_int (Z.of_nat (length (skipped result)))) ;;
        ret Returned
      else if String.eqb cmd "extract" then
        result <- extract_month raw_dir extracted_dir month ;;
        print ("Extracted files: "
               ++ Py.str_int (Z.of_nat (length (extracted_files result)))) ;;
        ret Returned
      else if String.eqb cmd "load" then
        load_raw duckdb_path extracted_dir month ;;
        load_dim duckdb_path extracted_dir month ;;
        build_leads duckdb_path extracted_dir month ;;
        ret Returned
      else if String.eqb cmd "full" then
        CNPJDownloader.download_month remote raw_dir month ;;
        extract_month raw_dir extracted_dir month ;;
        load_raw duckdb_path extracted_dir month ;;
        load_dim duckdb_path extracted_dir month ;;
        build_leads duckdb_path extracted_dir month ;;
        ret Returned
      else ret (SystemExit ("Unknown command: " ++ cmd)).

Fixpoint month_loop (cmd raw_dir extracted_dir duckdb_path : string)
        (months : list string) : M Ending :=
      match months with
      | [] => ret Returned
      | month :: rest =>
          ending <- process_month cmd raw_dir extracted_dir duckdb_path month ;;
          match ending with
          | SystemExit code => ret (SystemExit code)
          | Returned => month_loop cmd raw_dir extracted_dir duckdb_path rest
          end
      end.

Definition main (argv : list string) : M Ending :=
      settings <- lift (Config.get_settings env resolve today) ;;
      let cmd := match argv with _ :: arg :: _ => arg | _ => "info" end in
      let raw_dir := PyStr.truediv (Config.data_dir settings) "raw" in
      let extracted_dir := PyStr.truediv (Config.data_dir settings) "extracted" in
      let duckdb_path := Config.duckdb_path settings in
      if String.eqb cmd "info" then
        print (Config.repr_settings settings) ;;
        ret Returned
      else if String.eqb cmd "setup" then
        print duckdb_path ;;
        setup duckdb_path extracted_dir ;;
        ret Returned
      else
        (if String.eqb cmd "full"
         then print "[MAIN] Running setup" ;; setup duckdb_path extracted_dir
         else ret tt) ;;
        months <- CNPJMonthFinder.get_updated_months propfind now strptime 15 ;;
        match months with
        | [] =>
            print "[MAIN] No updated months found" ;;
            ret Returned
        | _ =>
            print ("[MAIN] Months to process: " ++ PyStr.repr_list months) ;;
            ending <- month_loop cmd raw_dir extracted_dir duckdb_path months ;;
            match ending with
            | SystemExit code => ret (SystemExit code)
            | Returned =>
                print "[MAIN] Done" ;;
                ret Returned
            end
        end.

End WithProcess.

End Main.

(* ================================================================== *)
(** * Vocabulary of the specification                                   *)
(* ================================================================== *)

(** The decimal digit [d] as a character. *)
Definition digit_char (d : Z) : ascii := ascii_of_nat (48 + Z.to_nat d).

(** The text [YYYY-MM]: four decimal digits of the year, a hyphen, two
    decimal digits of the month. *)
Definition YYYY_MM (y m : Z) : string :=
  String (digit_char (y / 1000))
  (String (digit_char (y / 100 mod 10))
  (String (digit_char (y / 10 mod 10))
  (String (digit_char (y mod 10))
  (String "-"
  (String (digit_char (m / 10))
  (String (digit_char (m mod 10)) EmptyString)))))).

(** An attempt, or a call, that ended with an exception. *)
Definition failed {A} (r : Exn + A) : bool :=
  match r with inl _ => true | inr _ => false end.

(** The retry schedule of the specification: a request, a wait of
    [3 * i ^ 2] after failed attempt [i], the next request, and so on from
    attempt [first] through [failed_attempts] failures; the request that
    follows the last of these waits is followed by none. *)
Fixpoint backoff_schedule (req : Event) (first : Z) (failed_attempts : nat) : list Event :=
  match failed_attempts with
  | O => [req]
  | S n => req :: Sleep (3 * first ^ 2) :: backoff_schedule req (first + 1) n
  end.

(** The PROPFIND url of a month directory. *)
Definition month_url (month : string) : string :=
  CNPJDownloader.WEBDAV_BASE ++ CNPJDownloader._build_month_dir month ++ "/".

(** A listing answer that parses and holds no relevant zip name. *)
Definition yields_nothing (a : CNPJDownloader.PropfindAnswer) : Prop :=
  exists hrefs,
    a = CNPJDownloader.PropfindHrefs hrefs
    /\ CNPJDownloader.collect_zip_names hrefs [] = inr [].

(** The four dataset prefixes of the relevance filter. *)
Definition category_prefixes : list string :=
  ["estabelecimentos"; "empresas"; "cnae"; "municipios"].

(** The outcome of the transfer attempt that is issued as request number
    [n]: what the [try] block of [_download_file] ends with. *)
Definition attempt_result (remote : CNPJDownloader.Remote) (url out_path : string) (n : nat)
  : Exn + unit :=
  result (CNPJDownloader.download_attempt remote url out_path
            {| files := ∅; requests := n |}).

(** That attempt failed with an exception the [except] clause of
    [_download_file] names. *)
Definition attempt_retried (remote : CNPJDownloader.Remote) (url out_path : string) (n : nat)
  : bool :=
  match attempt_result remote url out_path n with
  | inl e => CNPJDownloader.transfer_caught e
  | inr _ => false
  end.

(** The state once the [except] clause of [_download_file] has removed
    whatever is at [out_path]. *)
Definition cleaned (out_path : string) (s : State) : State :=
  {| files := delete out_path (files s); requests := requests s |}.


(** The declared content type of a response, as [_download_file] reads it. *)
Definition declared_type (resp : CNPJDownloader.Response) : string :=
  Py.lower (default "" (CNPJDownloader.content_type resp)).


(** No character of the name is a slash. *)
Definition slashless (name : string) : bool :=
  Py.all_chars (fun c => negb (Ascii.eqb c "/")) name.

(** One round of [download_month]: list, diff and fetch, then re-check. *)
Definition month_round (remote : CNPJDownloader.Remote) (raw_dir month : string)
  : M (DownloadResult * list string) :=
  result <- CNPJDownloader._download_once remote raw_dir month ;;
  missing <- CNPJDownloader._find_missing_zips remote raw_dir month ;;
  ret (result, missing).

(** [incomplete_rounds remote raw_dir month n s results acts s']: from
    state [s], [n] rounds in a row end with some expected file still
    missing, each followed by the wait of 10; [results] are the rounds'
    results, [acts] the requests and sleeps made, [s'] the state reached. *)
Inductive incomplete_rounds (remote : CNPJDownloader.Remote) (raw_dir month : string)
  : nat -> State -> list DownloadResult -> list Event -> State -> Prop :=
| rounds_none (s : State) :
    incomplete_rounds remote raw_dir month 0 s [] [] s
| rounds_more (n : nat) (s : State) (res : DownloadResult) (missing : list string)
    (results : list DownloadResult) (acts : list Event) (s' : State) :
    result (month_round remote raw_dir month s) = inr (res, missing) ->
    missing <> [] ->
    incomplete_rounds remote raw_dir month n
      (state (month_round remote raw_dir month s)) results acts s' ->
    incomplete_rounds remote raw_dir month (S n) s (res :: results)
      (actions (events (month_round remote raw_dir month s)) ++ Sleep 10 :: acts) s'.

(** The error [download_month] raises when the rounds are used up. *)
Definition incomplete_month_error (month : string) : Exn :=
  mkRuntimeError
    ("[DOWNLOADER] Failed to fully download month " ++ month ++ " after 5 rounds").

(** One of the characters 0-9. *)
Definition decimal_digit (c : ascii) : bool := Py.between 48 57 (Py.ord c).

(** The shape NNNN-NN: four decimal digits, a hyphen, two decimal digits,
    and nothing more. *)
Definition month_shape (name : string) : bool :=
  match name with
  | String a (String b (String c (String d (String h (String e (String f EmptyString)))))) =>
      decimal_digit a && decimal_digit b && decimal_digit c && decimal_digit d
      && Ascii.eqb h "-" && decimal_digit e && decimal_digit f
  | _ => false
  end.

(** The name of the child a response stands for, when the response has both
    an href with text and a getlastmodified element. *)
Definition response_name (r : CNPJMonthFinder.DavResponse) : option string :=
  match CNPJMonthFinder.href r, CNPJMonthFinder.getlastmodified r with
  | Some (Some text), Some _ => Some (Py.last_segment (Py.rstrip_slash text))
  | _, _ => None
  end.

(** The last-modified timestamp a response carries, when it parses. *)
Definition response_time (strptime : string -> option Z) (r : CNPJMonthFinder.DavResponse)
  : option Z :=
  match CNPJMonthFinder.getlastmodified r with
  | Some (Some value) => strptime value
  | _ => None
  end.

(** The last-modified timestamp of the child [name] in a listing: the one
    of the last response that stands for it. *)
Fixpoint last_modified_of (strptime : string -> option Z)
    (responses : list CNPJMonthFinder.DavResponse) (name : string) : option Z :=
  match responses with
  | [] => None
  | r :: rest =>
      match last_modified_of strptime rest name with
      | Some t => Some t
      | None =>
          if bool_decide (response_name r = Some name) then response_time strptime r
          else None
      end
  end.

(** A response that stands for a child whose name has another shape than
    the code's month folders. *)
Definition other_shape (r : CNPJMonthFinder.DavResponse) : bool :=
  match response_name r with
  | Some name => negb (CNPJMonthFinder._is_month_folder name)
  | None => false
  end.

(** The PROPFIND url of the month finder. *)
Definition root_url : string := CNPJMonthFinder.WEBDAV_BASE ++ "/Dados/Cadastros/CNPJ/".

(* ================================================================== *)
(** * Scenarios: concrete remotes and local states                      *)
(* ================================================================== *)

Module Scenario.
Import CNPJDownloader.

Definition href_dir : string := "/public.php/webdav/Dados/Cadastros/CNPJ/2024-01".

Definition timed_out : Exn := {| exn_class := TimeoutError; exn_str := "timed out" |}.

Definition unreachable : Exn :=
  {| exn_class := URLError; exn_str := "<urlopen error [Errno 111] Connection refused>" |}.

(** A zip served whole in one chunk. *)
Definition serves (content : string) : GetAnswer :=
  GetResponds {| content_type := Some "application/zip";
                 content_length := LengthAbsent;
                 body := [content]; body_end := None |}.

(** A zip whose transfer breaks after two chunks. *)
Definition breaks_mid_stream : GetAnswer :=
  GetResponds {| content_type := Some "application/zip";
                 content_length := LengthValue 4096;
                 body := ["PK"; "34"]; body_end := Some timed_out |}.

(** An error page sent with status 200. *)
Definition error_page : GetAnswer :=
  GetResponds {| content_type := Some "text/html; charset=UTF-8";
                 content_length := LengthAbsent;
                 body := ["<html>busy</html>"]; body_end := None |}.

Definition listing (names : list string) : PropfindAnswer :=
  PropfindHrefs (Some (href_dir ++ "/") :: List.map (fun n => Some (href_dir ++ "/" ++ n)) names).

Definition three_zips : list string :=
  ["Cnaes.zip"; "Empresas0.zip"; "Estabelecimentos0.zip"].

Definition nothing_local : State := {| files := ∅; requests := 0 |}.

(** [Cnaes.zip] is on disk already. *)
Definition cnaes_local : State :=
  {| files := {[ "data/raw/2024-01/Cnaes.zip" := "PK-cnaes" ]}; requests := 0 |}.

(** The three zips are on disk already. *)
Definition all_local : State :=
  {| files := {[ "data/raw/2024-01/Cnaes.zip" := "PK-cnaes";
                 "data/raw/2024-01/Empresas0.zip" := "PK-empresas";
                 "data/raw/2024-01/Estabelecimentos0.zip" := "PK-estabelecimentos" ]};
     requests := 0 |}.

(** The listing never holds a relevant zip, every GET is served. *)
Definition remote_noise : Remote :=
  {| propfind := fun _ _ => listing ["readme.txt"; "notes.zip"];
     get := fun _ _ => serves "PK" |}.

(** The first two requests fail, whatever they are; the rest are served. *)
Definition remote_flaky : Remote :=
  {| propfind := fun n _ =>
       if (n <? 2)%nat then PropfindRaises unreachable else listing three_zips;
     get := fun n _ =>
       if (n <? 2)%nat then GetRaises timed_out else serves "PK" |}.

(** Every transfer breaks in the middle of the body. *)
Definition remote_breaking : Remote :=
  {| propfind := fun _ _ => listing three_zips;
     get := fun _ _ => breaks_mid_stream |}.

(** Three zips listed; [Estabelecimentos0.zip] cannot be fetched before
    request number 6, everything else is served. *)
Definition remote_late : Remote :=
  {| propfind := fun _ _ => listing three_zips;
     get := fun n url =>
       if Py.endswith url "Estabelecimentos0.zip" && (n <? 6)%nat
       then GetRaises timed_out else serves "PK" |}.

(** Three zips listed; [Estabelecimentos0.zip] is never served. *)
Definition remote_one_missing : Remote :=
  {| propfind := fun _ _ => listing three_zips;
     get := fun _ url =>
       if Py.endswith url "Estabelecimentos0.zip"
       then GetRaises timed_out else serves "PK" |}.

(** Three zips listed; only [Cnaes.zip] is ever served. *)
Definition remote_two_missing : Remote :=
  {| propfind := fun _ _ => listing three_zips;
     get := fun _ url =>
       if Py.endswith url "Cnaes.zip"
       then serves "PK" else GetRaises timed_out |}.

(** Everything listed is served. *)
Definition remote_steady : Remote :=
  {| propfind := fun _ _ => listing three_zips;
     get := fun _ _ => serves "PK" |}.

End Scenario.

Module FinderScenario.
Import CNPJMonthFinder.

(** [strptime] on the few texts the scenarios use. *)
Definition strptime (value : string) : option Z :=
  if String.eqb value "Mon, 05 Jan 2026 10:00:00 GMT" then Some 1767607200000000
  else if String.eqb value "Thu, 15 Oct 2026 12:00:00 GMT" then Some 1792065600000000
  else if String.eqb value "Tue, 20 Oct 2026 08:30:00 GMT" then Some 1792485000000000
  else if String.eqb value "Sun, 01 Nov 2026 23:59:59 GMT" then Some 1793577599000000
  else None.

(** 2026-11-03 12:00:00 UTC. *)
Definition now : Z := 1793707200000000.

Definition child (name value : string) : DavResponse :=
  {| href := Some (Some ("/public.php/webdav/Dados/Cadastros/CNPJ/" ++ name ++ "/"));
     getlastmodified := Some (Some value) |}.

(** The directory itself, four month folders, a folder of another name with
    a timestamp that does not parse, and a response without timestamp. *)
Definition root_listing : list DavResponse :=
  [ {| href := Some (Some "/public.php/webdav/Dados/Cadastros/CNPJ/");
       getlastmodified := Some (Some "Sun, 01 Nov 2026 23:59:59 GMT") |};
    child "2026-11" "Sun, 01 Nov 2026 23:59:59 GMT";
    child "2025-12" "Mon, 05 Jan 2026 10:00:00 GMT";
    child "2026-10" "Tue, 20 Oct 2026 08:30:00 GMT";
    child "temp" "yesterday";
    {| href := Some (Some "/public.php/webdav/Dados/Cadastros/CNPJ/LEIAME.pdf");
       getlastmodified := None |};
    child "2026-09" "Thu, 15 Oct 2026 12:00:00 GMT" ].

Definition propfind_steady (n : nat) (url : string) : PropfindAnswer :=
  PropfindResponses root_listing.

(** The first request fails, every later one is answered. *)
Definition propfind_flaky (n : nat) (url : string) : PropfindAnswer :=
  if (n =? 0)%nat then PropfindRaises Scenario.unreachable
  else PropfindResponses root_listing.

End FinderScenario.

Module ScenarioMore.
Import CNPJDownloader.

(** A zip announced with a Content-Length that is no integer. *)
Definition bad_length : GetAnswer :=
  GetResponds {| content_type := Some "application/zip";
                 content_length := LengthInvalid;
                 body := ["PK"]; body_end := None |}.

(** Every GET carries a Content-Length that is no integer. *)
Definition remote_bad_length : Remote :=
  {| propfind := fun _ _ => Scenario.listing Scenario.three_zips;
     get := fun _ _ => bad_length |}.

(** The listing answers once, for the diff, and fails from then on. *)
Definition remote_recheck_fails : Remote :=
  {| propfind := fun n _ =>
       if (n =? 0)%nat then Scenario.listing Scenario.three_zips
       else PropfindRaises Scenario.unreachable;
     get := fun _ _ => Scenario.serves "PK" |}.

(** A file of another month, and [Cnaes.zip] of this one. *)
Definition two_months_local : State :=
  {| files := {[ "data/raw/2023-12/Cnaes.zip" := "PK-old";
                 "data/raw/2024-01/Cnaes.zip" := "PK-cnaes" ]};
     requests := 0 |}.

End ScenarioMore.

Module FinderScenarioMore.
Import CNPJMonthFinder.

(** A month folder whose timestamp does not parse, between two that do. *)
Definition listing_bad_timestamp : list DavResponse :=
  [ FinderScenario.child "2026-11" "Sun, 01 Nov 2026 23:59:59 GMT";
    FinderScenario.child "2026-08" "yesterday";
    FinderScenario.child "2026-10" "Tue, 20 Oct 2026 08:30:00 GMT" ].

Definition propfind_bad_timestamp (n : nat) (url : string) : PropfindAnswer :=
  PropfindResponses listing_bad_timestamp.

End FinderScenarioMore.

Module MainScenario.

(** A process started in [/app]: relative paths resolve below it. *)
Definition resolve (p : string) : string :=
  if String.eqb p "./data" then "/app/data" else p.

Definition today : date := {| year := 2026; month := 11; day := 3 |}.

(** The token is set, with blanks around it. *)
Definition env : gmap string string := {[ "NEXTCLOUD_PUBLIC_TOKEN" := " s3cret " ]}.

(** The token is set to blanks only. *)
Definition env_blank : gmap string string :=
  {[ "NEXTCLOUD_PUBLIC_TOKEN" := "   "; "DATA_DIR" := "/srv/cnpj" ]}.

(** No listing of a month is ever answered. *)
Definition remote_down : CNPJDownloader.Remote :=
  {| CNPJDownloader.propfind := fun _ _ => CNPJDownloader.PropfindRaises Scenario.timed_out;
     CNPJDownloader.get := fun _ _ => Scenario.serves "PK" |}.

(** An extractor and a warehouse that do nothing. *)
Definition extract_month (raw_dir extracted_dir month : string) : M Main.ExtractResult :=
  ret {| Main.extracted_files := []; Main.skipped_files := []; Main.failed_files := [] |}.

Definition setup (duckdb_path extracted_dir : string) : M unit := ret tt.

Definition load (duckdb_path extracted_dir month : string) : M unit := ret tt.

(** [main] in this process. *)
Definition main (env : gmap string string) (remote : CNPJDownloader.Remote)
    (argv : list string) : M Main.Ending :=
  Main.main env resolve today remote FinderScenario.propfind_steady FinderScenario.now
    FinderScenario.strptime extract_month setup load load load argv.

End MainScenario.

Module MainScenarioMore.

(** The settings name another month than the finder will find. *)
Definition env_other_month : gmap string string :=
  <[ "CNPJ_MONTH" := "1999-01" ]> MainScenario.env.

End MainScenarioMore.

Module TransferScenario.
Import CNPJDownloader.

(** A zip announced with 4096 bytes whose body ends after two. *)
Definition short_body : Response :=
  {| content_type := Some "application/zip";
     content_length := LengthValue 4096;
     body := ["PK"]; body_end := None |}.

Definition remote_short : Remote :=
  {| propfind := fun _ _ => Scenario.listing Scenario.three_zips;
     get := fun _ _ => GetResponds short_body |}.



End TransferScenario.

(* ================================================================== *)
(** * Further vocabulary                                                *)
(* ================================================================== *)

(** What the read loop of [_download_file] writes of a body: the chunks up
    to the first empty one. *)
Fixpoint received (chunks : list string) : string :=
  match chunks with
  | [] => ""
  | chunk :: rest => if String.eqb chunk "" then "" else chunk ++ received rest
  end.

(** An answer to GET that [_download_file] accepts and that yields a file
    of nonzero size: a declared type containing "zip", a usable
    Content-Length, a first chunk that is not empty, and a body that
    ends. *)
Definition serves_zip (a : CNPJDownloader.GetAnswer) : Prop :=
  exists resp chunk rest,
    a = CNPJDownloader.GetResponds resp
    /\ Py.contains "zip" (declared_type resp) = true
    /\ CNPJDownloader.content_length resp <> CNPJDownloader.LengthInvalid
    /\ CNPJDownloader.body resp = chunk :: rest
    /\ chunk <> ""
    /\ CNPJDownloader.body_end resp = None.

(** The sum of a list of waits. *)
Definition total (waits : list Z) : Z := fold_right Z.add 0 waits.

(** A text of whitespace only, the empty text included. *)
Definition blank (value : string) : bool := Py.all_chars PyStr.isspace_char value.

(** The token variable is unset, or set to a blank text. *)
Definition token_missing (env : gmap string string) : Prop :=
  match env !! "NEXTCLOUD_PUBLIC_TOKEN" with
  | Some value => blank value = true
  | None => True
  end.

(** The error [get_settings] raises for a missing token. *)
Definition token_error : Exn :=
  mkRuntimeError "NEXTCLOUD_PUBLIC_TOKEN environment variable is required".

(** The commands [main] knows. *)
Definition commands : list string := ["info"; "setup"; "download"; "extract"; "load"; "full"].

(** The range of Python's [datetime], in microseconds since the epoch:
    0001-01-01 00:00:00 to 9999-12-31 23:59:59.999999. *)
Definition datetime_min : Z := -62135596800000000.

Definition datetime_max : Z := 253402300799999999.

(** A window for which Python computes the cutoff: [timedelta(days=d)]
    exists (at most 999999999 days either way) and
    [now - timedelta(days=d)] is within the range of [datetime].  Outside,
    [_cutoff_datetime] raises OverflowError, which the exact arithmetic of
    the embedding does not show. *)
Definition window_in_range (now days_window : Z) : Prop :=
  -999999999 <= days_window <= 999999999
  /\ datetime_min <= now - CNPJMonthFinder.timedelta_days days_window <= datetime_max.
Example default_month_mid : get_default_cnpj_month {| year := 2026; month := 11; day := 3 |} = "2026-10".
Proof. reflexivity. Qed.

Example default_month_january : get_default_cnpj_month {| year := 2026; month := 1; day := 15 |} = "2025-12".
Proof. reflexivity. Qed.

Example rstrip_split_href :
  Py.last_segment (Py.rstrip_slash "/public.php/webdav/Dados/Cadastros/CNPJ/2024-01/") = "2024-01".
Proof. reflexivity. Qed.

Example rstrip_all_slashes : Py.rstrip_slash "///" = "".
Proof. reflexivity. Qed.

(* ================================================================== *)
(** * Facts about the string primitives                                 *)
(* ================================================================== *)

Section StringFacts.

Lemma startswith_spec (s p : string) :
    Py.startswith s p = true <-> exists rest, s = (p ++ rest)%string.
Proof.
    revert s; induction p as [|a p IH]; intros s; simpl.
    - split; [intros _; now exists s | intros _; now destruct s].
    - destruct s as [|b s]; simpl.
      + split; [discriminate | intros [rest H]; discriminate].
      + rewrite andb_true_iff, IH. split.
        * intros [Hab [rest ->]]. apply Ascii.eqb_eq in Hab as ->. now exists rest.
        * intros [rest H]. injection H as -> ->. split; [apply Ascii.eqb_refl | now exists rest].
Qed.

Lemma append_cons (c : ascii) (s t : string) :
    (String c s ++ t)%string = String c (s ++ t)%string.
Proof. reflexivity. Qed.

Lemma append_nil (t : string) : (EmptyString ++ t)%string = t.
Proof. reflexivity. Qed.

Lemma length_append (s t : string) :
    String.length (s ++ t) = (String.length s + String.length t)%nat.
Proof. induction s as [|c s IH]; simpl; [reflexivity | now rewrite IH]. Qed.

Lemma substring_all (s : string) : substring 0 (String.length s) s = s.
Proof. induction s as [|c s IH]; simpl; [reflexivity | now rewrite IH]. Qed.

Lemma substring_append_skip (s t : string) (m : nat) :
    substring (String.length s) m (s ++ t) = substring 0 m t.
Proof. induction s as [|c s IH]; simpl; [reflexivity | exact IH]. Qed.

Lemma substring_split (s : string) (n : nat) :
    (n <= String.length s)%nat ->
    s = (substring 0 n s ++ substring n (String.length s - n) s)%string.
Proof.
    revert n; induction s as [|c s IH]; intros n Hn; simpl in *.
    - destruct n; [reflexivity | lia].
    - destruct n as [|n]; simpl.
      + now rewrite substring_all.
      + rewrite append_cons. f_equal. apply IH. lia.
Qed.

Lemma endswith_spec (s p : string) :
    Py.endswith s p = true <-> exists stem, s = (stem ++ p)%string.
Proof.
    unfold Py.endswith. rewrite andb_true_iff, String.eqb_eq, Nat.leb_le. split.
    - intros [Hlen Hsub].
      exists (substring 0 (String.length s - String.length p) s).
      pose proof (substring_split s (String.length s - String.length p)) as E.
      replace (String.length s - (String.length s - String.length p))%nat
        with (String.length p) in E by lia.
      rewrite Hsub in E. apply E. lia.
    - intros [stem ->]. rewrite length_append. split; [lia |].
      replace (String.length stem + String.length p - String.length p)%nat
        with (String.length stem) by lia.
      rewrite substring_append_skip. apply substring_all.
Qed.

Lemma path_join_inj (dir a b : string) : path_join dir a = path_join dir b -> a = b.
Proof.
    unfold path_join. induction dir as [|c dir IH]; simpl; intros H.
    - now injection H.
    - injection H as H. now apply IH.
Qed.

End StringFacts.

(* ================================================================== *)
(** * config.py: the default month                                      *)
(* ================================================================== *)

Lemma year_table :
  forallb (fun y =>
    String.eqb (Py.str_int (Z.of_nat y)) (substring 0 4 (YYYY_MM (Z.of_nat y) 0)))
    (seq (Z.to_nat 1000) (Z.to_nat 9000)) = true.
Proof. vm_cast_no_check (eq_refl true). Qed.

Lemma month_table :
  forallb (fun m =>
    String.eqb (Py.format_02d (Z.of_nat m)) (substring 5 2 (YYYY_MM 0 (Z.of_nat m))))
    (seq 1 12) = true.
Proof. vm_compute. reflexivity. Qed.

Lemma str_int_four_digits (y : Z) :
  1000 <= y <= 9999 -> Py.str_int y = substring 0 4 (YYYY_MM y 0).
Proof.
  intros Hy. pose proof year_table as T. rewrite forallb_forall in T.
  specialize (T (Z.to_nat y)). rewrite Z2Nat.id in T by lia.
  apply String.eqb_eq, T, in_seq. lia.
Qed.

Lemma format_02d_two_digits (m : Z) :
  1 <= m <= 12 -> Py.format_02d m = substring 5 2 (YYYY_MM 0 m).
Proof.
  intros Hm. pose proof month_table as T. rewrite forallb_forall in T.
  specialize (T (Z.to_nat m)). rewrite Z2Nat.id in T by lia.
  apply String.eqb_eq, T, in_seq. lia.
Qed.

Lemma YYYY_MM_parts (y m : Z) :
  YYYY_MM y m
  = (substring 0 4 (YYYY_MM y 0) ++ "-" ++ substring 5 2 (YYYY_MM 0 m))%string.
Proof. reflexivity. Qed.

(** C10.  For a current date in month 1..12 of a year 1001..9999, the
    default month is the calendar month just before the current one,
    written YYYY-MM with a two-digit, zero-padded month; in January it is
    December of the year before. *)
Theorem get_default_cnpj_month_previous (today : date) :
  1 <= month today <= 12 ->
  1000 < year today <= 9999 ->
  exists y m : Z,
    get_default_cnpj_month today = YYYY_MM y m
    /\ 1 <= m <= 12
    /\ 12 * y + m + 1 = 12 * year today + month today
    /\ (month today = 1 -> y = year today - 1 /\ m = 12)
    /\ (month today <> 1 -> y = year today /\ m = month today - 1).
Proof.
  intros Hm Hy. destruct today as [y m d]; cbn [year month] in *.
  unfold get_default_cnpj_month; cbn [year month].
  destruct (Z.eqb_spec (m - 1) 0) as [E|E].
  - exists (y - 1), 12. rewrite YYYY_MM_parts.
    rewrite <- str_int_four_digits, <- format_02d_two_digits by lia.
    repeat split; lia.
  - exists y, (m - 1). rewrite YYYY_MM_parts.
    rewrite <- str_int_four_digits, <- format_02d_two_digits by lia.
    repeat split; lia.
Qed.

Lemma get_default_cnpj_month_previous_witness :
  exists y m : Z,
    get_default_cnpj_month {| year := 2026; month := 1; day := 15 |} = YYYY_MM y m
    /\ y = 2025 /\ m = 12.
Proof.
  destruct (get_default_cnpj_month_previous {| year := 2026; month := 1; day := 15 |})
    as (y & m & H & _ & _ & HJ & _); simpl; [lia | lia |].
  exists y, m. simpl in HJ. destruct (HJ eq_refl) as [-> ->].
  split; [exact H | split; reflexivity].
Defined.


(* ================================================================== *)
(** * Facts about event lists                                           *)
(* ================================================================== *)

Section EventFacts.

Lemma gets_cons (ev : Event) (l : list Event) :
  gets (ev :: l) = match ev with Get u => u :: gets l | _ => gets l end.
Proof. destruct ev; reflexivity. Qed.

Lemma propfinds_cons (ev : Event) (l : list Event) :
  propfinds (ev :: l) = match ev with Propfind u => u :: propfinds l | _ => propfinds l end.
Proof. destruct ev; reflexivity. Qed.

Lemma sleeps_cons (ev : Event) (l : list Event) :
  sleeps (ev :: l) = match ev with Sleep z => z :: sleeps l | _ => sleeps l end.
Proof. destruct ev; reflexivity. Qed.

Lemma prints_cons (ev : Event) (l : list Event) :
  prints (ev :: l) = match ev with Print line => line :: prints l | _ => prints l end.
Proof. destruct ev; reflexivity. Qed.

Lemma actions_cons (ev : Event) (l : list Event) :
  actions (ev :: l) = match ev with Print _ => actions l | _ => ev :: actions l end.
Proof. destruct ev; reflexivity. Qed.

Lemma gets_app (a b : list Event) : gets (a ++ b) = (gets a ++ gets b)%list.
Proof. apply omap_app. Qed.

Lemma propfinds_app (a b : list Event) :
  propfinds (a ++ b) = (propfinds a ++ propfinds b)%list.
Proof. apply omap_app. Qed.

Lemma sleeps_app (a b : list Event) : sleeps (a ++ b) = (sleeps a ++ sleeps b)%list.
Proof. apply omap_app. Qed.

Lemma prints_app (a b : list Event) : prints (a ++ b) = (prints a ++ prints b)%list.
Proof. apply omap_app. Qed.

Lemma actions_app (a b : list Event) : actions (a ++ b) = (actions a ++ actions b)%list.
Proof. apply List.filter_app. Qed.

Lemma gets_actions (l : list Event) : gets (actions l) = gets l.
Proof.
  induction l as [|ev l IH]; [reflexivity |].
  rewrite actions_cons. destruct ev; rewrite ?gets_cons; now rewrite IH.
Qed.

Lemma sleeps_actions (l : list Event) : sleeps (actions l) = sleeps l.
Proof.
  induction l as [|ev l IH]; [reflexivity |].
  rewrite actions_cons. destruct ev; rewrite ?sleeps_cons; now rewrite IH.
Qed.

End EventFacts.

Ltac events_norm :=
  repeat (rewrite ?gets_app, ?propfinds_app, ?sleeps_app, ?prints_app, ?actions_app,
            ?gets_cons, ?propfinds_cons, ?sleeps_cons, ?prints_cons, ?actions_cons;
          cbn [app]).

(* ================================================================== *)
(** * download.py: the listing client                                   *)
(* ================================================================== *)

Import CNPJDownloader.

Section Listing.

Variable remote : Remote.
Variable month : string.
Variable retries : Z.

Let url := month_url month.

Lemma list_attempt_run (s : State) :
  list_attempt remote url s
  = {| events := [Propfind url]; state := tick s;
       result := listing_of (propfind remote (requests s) url) |}.
Proof.
  unfold list_attempt, bind, http_propfind; simpl.
  destruct (listing_of _); reflexivity.
Qed.

Lemma list_loop_success (remaining : nat) (attempt : Z) (s : State) names :
  listing_of (propfind remote (requests s) url) = inr names ->
  list_loop remote month url retries (S remaining) attempt s
  = {| events := [Propfind url]; state := tick s; result := inr names |}.
Proof.
  intros H. simpl. unfold try_except. rewrite list_attempt_run; simpl.
  now rewrite H.
Qed.

Lemma list_loop_exhausted (remaining : nat) (s : State) e :
  listing_of (propfind remote (requests s) url) = inl e ->
  list_loop remote month url retries (S remaining) retries s
  = {| events := [Propfind url]; state := tick s;
       result := inl (mkRuntimeError ("Failed to list ZIPs for " ++ month)) |}.
Proof.
  intros H. simpl. unfold try_except. rewrite list_attempt_run; simpl.
  rewrite H, Z.eqb_refl. reflexivity.
Qed.

Lemma list_loop_retry (remaining : nat) (attempt : Z) (s : State) e :
  listing_of (propfind remote (requests s) url) = inl e ->
  attempt <> retries ->
  list_loop remote month url retries (S remaining) attempt s
  = let o := list_loop remote month url retries remaining (attempt + 1) (tick s) in
    {| events :=
         Propfind url
         :: Print ("[DOWNLOADER] Retry " ++ Py.str_int attempt ++ "/"
                   ++ Py.str_int retries ++ " listing ZIPs for " ++ month
                   ++ " (waiting " ++ format_wait (3 * attempt ^ 2) ++ "s)")
         :: Sleep (3 * attempt ^ 2) :: events o;
       state := state o; result := result o |}.
Proof.
  intros H Hne. simpl. unfold try_except. rewrite list_attempt_run; simpl.
  rewrite H. apply Z.eqb_neq in Hne. rewrite Hne.
  unfold bind, print, sleep, emit; simpl.
  destruct (list_loop remote month url retries remaining (attempt + 1) (tick s))
    as [evs st [e'|x]]; simpl; reflexivity.
Qed.

Lemma collect_zip_names_acc hrefs acc names :
  collect_zip_names hrefs acc = inr names -> exists more, names = (acc ++ more)%list.
Proof.
  revert acc; induction hrefs as [|[text|] hrefs IH]; intros acc; simpl.
  - intros [= <-]. exists []. now rewrite app_nil_r.
  - destruct (selected _); intros H; apply IH in H as [more ->].
    + exists (Py.last_segment (Py.rstrip_slash text) :: more). now rewrite <- app_assoc.
    + now exists more.
  - discriminate.
Qed.

Lemma listing_of_nonempty a names : listing_of a = inr names -> names <> [].
Proof.
  destruct a as [e|hrefs]; simpl; [discriminate |].
  destruct (collect_zip_names hrefs []) as [e|[|n ns]]; try discriminate.
  now intros [= <-].
Qed.

Lemma yields_nothing_failed a : yields_nothing a -> failed (listing_of a) = true.
Proof. intros (hrefs & -> & H). simpl. now rewrite H. Qed.

(** The schedule of the listing loop: [k] failed attempts, then the attempt
    that ends the loop. *)
Lemma list_loop_schedule (k : nat) :
  forall (remaining : nat) (attempt : Z) (s : State),
    (k < remaining)%nat ->
    attempt + Z.of_nat remaining = retries + 1 ->
    (forall i, (i < k)%nat ->
       failed (listing_of (propfind remote (requests s + i) url)) = true) ->
    (S k = remaining
     \/ failed (listing_of (propfind remote (requests s + k) url)) = false) ->
    actions (events (list_loop remote month url retries remaining attempt s))
    = backoff_schedule (Propfind url) attempt k.
Proof.
  induction k as [|k IH]; intros remaining attempt s Hk Hinv Hfail Hlast.
  - destruct remaining as [|remaining]; [lia |].
    rewrite Nat.add_0_r in Hlast.
    destruct (listing_of (propfind remote (requests s) url)) as [e|names] eqn:E.
    + destruct Hlast as [Hlast|Hlast]; [| discriminate].
      assert (attempt = retries) as -> by lia.
      now rewrite (list_loop_exhausted _ _ _ E).
    + now rewrite (list_loop_success _ _ _ _ E).
  - destruct remaining as [|remaining]; [lia |].
    pose proof (Hfail 0%nat ltac:(lia)) as H0. rewrite Nat.add_0_r in H0.
    destruct (listing_of (propfind remote (requests s) url)) as [e|names] eqn:E;
      [| discriminate].
    rewrite (list_loop_retry _ _ _ _ E) by lia. simpl.
    do 2 f_equal. apply IH.
    + lia.
    + lia.
    + intros i Hi. specialize (Hfail (S i) ltac:(lia)).
      simpl. now replace (S (requests s + i)) with (requests s + S i)%nat by lia.
    + destruct Hlast as [Hlast|Hlast]; [left; lia | right].
      simpl. now replace (S (requests s + k)) with (requests s + S k)%nat by lia.
Qed.

(** What the listing loop ends with. *)
Lemma list_loop_result :
  forall (remaining : nat) (attempt : Z) (s : State),
    attempt + Z.of_nat (S remaining) = retries + 1 ->
    let o := list_loop remote month url retries (S remaining) attempt s in
    match result o with
    | inr names =>
        exists k, (k <= remaining)%nat
          /\ listing_of (propfind remote (requests s + k) url) = inr names
          /\ propfinds (events o) = repeat url (S k)
          /\ state o = {| files := files s; requests := requests s + S k |}
    | inl e =>
        e = mkRuntimeError ("Failed to list ZIPs for " ++ month)
        /\ (forall i, (i <= remaining)%nat ->
              failed (listing_of (propfind remote (requests s + i) url)) = true)
        /\ propfinds (events o) = repeat url (S remaining)
        /\ state o = {| files := files s; requests := requests s + S remaining |}
    end.
Proof.
  induction remaining as [|remaining IH]; intros attempt s Hinv o; subst o.
  - destruct (listing_of (propfind remote (requests s) url)) as [e|names] eqn:E.
    + assert (attempt = retries) as -> by lia.
      rewrite (list_loop_exhausted _ _ _ E); simpl. repeat split.
      * intros i Hi. assert (i = 0)%nat as -> by lia. rewrite Nat.add_0_r, E. reflexivity.
      * unfold tick. f_equal. lia.
    + rewrite (list_loop_success _ _ _ _ E); simpl. exists 0%nat.
      rewrite Nat.add_0_r. repeat split; [lia | exact E |].
      unfold tick. f_equal. lia.
  - destruct (listing_of (propfind remote (requests s) url)) as [e|names] eqn:E.
    + rewrite (list_loop_retry _ _ _ _ E) by lia. cbv zeta.
      specialize (IH (attempt + 1) (tick s) ltac:(lia)). cbv zeta in IH.
      cbn [result events state].
      set (o' := list_loop remote month url retries (S remaining) (attempt + 1) (tick s)) in *.
      clearbody o'.
      destruct (result o') as [e'|names].
      * destruct IH as (-> & Hall & Hreq & Hst). repeat split.
        -- intros [|i] Hi; [now rewrite Nat.add_0_r, E |].
           specialize (Hall i ltac:(lia)). simpl in Hall.
           now replace (requests s + S i)%nat with (S (requests s + i)) by lia.
        -- simpl. now rewrite Hreq.
        -- rewrite Hst. simpl. f_equal. lia.
      * destruct IH as (k & Hk & Hok & Hreq & Hst). exists (S k). repeat split.
        -- lia.
        -- simpl in Hok. now replace (requests s + S k)%nat with (S (requests s + k)) by lia.
        -- simpl. now rewrite Hreq.
        -- rewrite Hst. simpl. f_equal. lia.
    + rewrite (list_loop_success _ _ _ _ E); simpl. exists 0%nat.
      rewrite Nat.add_0_r. repeat split; [lia | exact E |].
      unfold tick. f_equal. lia.
Qed.

End Listing.

(* ================================================================== *)
(** * download.py: the file transfer worker                             *)
(* ================================================================== *)

Section Transfer.

Variable remote : Remote.
Variable url out_path : string.
Variable retries : Z.

Lemma write_chunks_facts (chunks : list string) (ending : option Exn) (s : State) :
  let o := write_chunks out_path chunks ending s in
  events o = []
  /\ requests (state o) = requests s
  /\ (forall q, q <> out_path -> files (state o) !! q = files s !! q)
  /\ (forall s', result (write_chunks out_path chunks ending s') = result o).
Proof.
  revert s; induction chunks as [|chunk rest IH]; intros s; simpl.
  - destruct ending; simpl; repeat split; reflexivity.
  - destruct (String.eqb chunk ""); simpl; [repeat split; reflexivity |].
    unfold bind, write, get_files, set_files; simpl.
    set (s1 := {| files := _; requests := requests s |}).
    destruct (IH s1) as (Hev & Hreq & Hfs & Hres).
    repeat split; try assumption.
    + intros q Hq. rewrite Hfs by assumption. subst s1; simpl.
      now rewrite lookup_insert_ne by congruence.
    + intros s'. now rewrite !Hres.
Qed.

Lemma download_attempt_facts (s : State) :
  let o := download_attempt remote url out_path s in
  events o = [Get url]
  /\ requests (state o) = S (requests s)
  /\ (forall q, q <> out_path -> files (state o) !! q = files s !! q)
  /\ result o = attempt_result remote url out_path (requests s).
Proof.
  unfold attempt_result, download_attempt, bind, http_get; simpl.
  destruct (get remote (requests s) url) as [e|resp]; simpl.
  - repeat split; reflexivity.
  - destruct (negb (Py.contains "zip" _)); simpl; [repeat split; reflexivity |].
    destruct (content_length resp); simpl; try (repeat split; reflexivity).
    all: set (s1 := {| files := <[out_path:=""]> (files s); requests := S (requests s) |}).
    all: destruct (write_chunks_facts (body resp) (body_end resp) s1)
           as (Hev & Hreq & Hfs & Hres).
    all: repeat split; [now rewrite Hev | exact Hreq | | symmetry; apply Hres].
    all: intros q Hq; rewrite Hfs by assumption; subst s1; simpl.
    all: now rewrite lookup_insert_ne by congruence.
Qed.

Lemma cleanup_run (s : State) :
  cleanup out_path s = {| events := []; state := cleaned out_path s; result := inr tt |}.
Proof.
  unfold cleanup, bind, path_exists, unlink, get_files, set_files, ret, cleaned; simpl.
  case_bool_decide as Hex; simpl; [reflexivity |].
  f_equal. destruct s as [fs n]; simpl in *. f_equal.
  symmetry. apply delete_id.
  destruct (fs !! out_path) eqn:E; [exfalso; apply Hex; eauto | reflexivity].
Qed.

(** One iteration of the loop of [_download_file], in closed form. *)
Lemma download_loop_step (remaining : nat) (attempt : Z) (s : State) :
  download_loop remote url out_path retries (S remaining) attempt s
  = let o := download_attempt remote url out_path s in
    match result o with
    | inr _ => o
    | inl e =>
        if transfer_caught e then
          if attempt =? retries
          then {| events := events o; state := cleaned out_path (state o); result := inl e |}
          else
            let o' := download_loop remote url out_path retries remaining (attempt + 1)
                        (cleaned out_path (state o)) in
            {| events :=
                 events o
                 ++ Print ("[DOWNLOADER] Retry " ++ Py.str_int attempt ++ "/"
                           ++ Py.str_int retries ++ " for " ++ path_name out_path
                           ++ " (waiting " ++ format_wait (3 * attempt ^ 2) ++ "s)")
                 :: Sleep (3 * attempt ^ 2) :: events o';
               state := state o'; result := result o' |}
        else {| events := events o; state := state o; result := inl e |}
    end.
Proof.
  cbn [download_loop]. unfold try_except at 1. cbv zeta.
  destruct (download_attempt remote url out_path s) as [evs st [e|[]]]; cbn [result events state];
    [| reflexivity].
  destruct (transfer_caught e); [| unfold raise; simpl; now rewrite app_nil_r].
  destruct (attempt =? retries).
  - unfold bind. rewrite cleanup_run; cbn [result events state].
    unfold raise; simpl. now rewrite !app_nil_r.
  - unfold bind. rewrite cleanup_run; cbn [result events state].
    unfold print, sleep, emit; cbn [result events state].
    destruct (download_loop remote url out_path retries remaining (attempt + 1)
                (cleaned out_path st)) as [evs' st' [e'|[]]]; cbn [result events state];
      reflexivity.
Qed.




(** The loop leaves every other path alone. *)
Lemma download_loop_other_paths (remaining : nat) :
  forall (attempt : Z) (s : State) (q : string),
    q <> out_path ->
    files (state (download_loop remote url out_path retries remaining attempt s)) !! q
    = files s !! q.
Proof.
  induction remaining as [|remaining IH]; intros attempt s q Hq; [reflexivity |].
  rewrite download_loop_step. cbv zeta.
  destruct (download_attempt_facts s) as (_ & _ & Hfs & _).
  destruct (result (download_attempt remote url out_path s)) as [e|u]; [| now apply Hfs].
  destruct (transfer_caught e); [| now apply Hfs].
  destruct (attempt =? retries); cbn [state].
  - unfold cleaned; simpl. rewrite lookup_delete_ne by congruence. now apply Hfs.
  - rewrite IH by assumption. unfold cleaned; simpl.
    rewrite lookup_delete_ne by congruence. now apply Hfs.
Qed.


(** Every request of the loop is a GET on [url], and there is one as soon
    as the loop runs once. *)
Lemma download_loop_gets (remaining : nat) :
  forall (attempt : Z) (s : State),
    exists n,
      gets (events (download_loop remote url out_path retries remaining attempt s))
      = repeat url n
      /\ (n <= remaining)%nat /\ (remaining = O \/ 0 < n)%nat
      /\ propfinds (events (download_loop remote url out_path retries remaining attempt s)) = [].
Proof.
  induction remaining as [|remaining IH]; intros attempt s.
  - exists O. simpl. repeat split; auto.
  - rewrite download_loop_step. cbv zeta.
    destruct (download_attempt_facts s) as (Hev & _ & _ & _).
    destruct (result (download_attempt remote url out_path s)) as [e|u].
    + destruct (transfer_caught e).
      * destruct (attempt =? retries); cbn [events].
        -- exists 1%nat. rewrite Hev. simpl. repeat split; auto; lia.
        -- destruct (IH (attempt + 1) (cleaned out_path (state (download_attempt remote url out_path s))))
             as (n & Hn & Hle & _ & Hp).
           set (o' := download_loop remote url out_path retries remaining _ _) in *.
           clearbody o'.
           exists (S n). rewrite Hev. rewrite gets_app, propfinds_app, !gets_cons, !propfinds_cons.
           rewrite Hn, Hp. repeat split; auto; lia.
      * cbn [events]. exists 1%nat. rewrite Hev. simpl. repeat split; auto; lia.
    + exists 1%nat. rewrite Hev. simpl. repeat split; auto; lia.
Qed.

(** The schedule of the transfer loop: [k] attempts that fail with an
    exception the [except] clause names, then the attempt that ends the
    loop. *)
Lemma download_loop_schedule (k : nat) :
  forall (remaining : nat) (attempt : Z) (s : State),
    (k < remaining)%nat ->
    attempt + Z.of_nat remaining = retries + 1 ->
    (forall i, (i < k)%nat ->
       attempt_retried remote url out_path (requests s + i) = true) ->
    (S k = remaining
     \/ attempt_retried remote url out_path (requests s + k) = false) ->
    actions (events (download_loop remote url out_path retries remaining attempt s))
    = backoff_schedule (Get url) attempt k.
Proof.
  induction k as [|k IH]; intros remaining attempt s Hk Hinv Hfail Hlast.
  - destruct remaining as [|remaining]; [lia |].
    rewrite Nat.add_0_r in Hlast. unfold attempt_retried in Hlast.
    rewrite download_loop_step. cbv zeta.
    destruct (download_attempt_facts s) as (Hev & _ & _ & Hres).
    rewrite <- Hres in Hlast.
    destruct (result (download_attempt remote url out_path s)) as [e|u];
      [| now rewrite Hev].
    destruct (transfer_caught e); [| cbn [events]; now rewrite Hev].
    destruct Hlast as [Hlast|Hlast]; [| discriminate].
    assert (attempt = retries) as -> by lia.
    rewrite Z.eqb_refl. cbn [events]. now rewrite Hev.
  - destruct remaining as [|remaining]; [lia |].
    pose proof (Hfail 0%nat ltac:(lia)) as H0. rewrite Nat.add_0_r in H0.
    unfold attempt_retried in H0.
    rewrite download_loop_step. cbv zeta.
    destruct (download_attempt_facts s) as (Hev & Hreq & _ & Hres).
    rewrite <- Hres in H0.
    set (o := download_attempt remote url out_path s) in *. clearbody o.
    destruct (result o) as [e|u]; [| discriminate].
    rewrite H0. assert ((attempt =? retries) = false) as -> by (apply Z.eqb_neq; lia).
    cbn [events]. rewrite Hev.
    set (o' := download_loop remote url out_path retries remaining _ _).
    change (actions ([Get url] ++ (Print _ :: Sleep (3 * attempt ^ 2) :: events o')))
      with (Get url :: Sleep (3 * attempt ^ 2) :: actions (events o')).
    cbn [backoff_schedule]. do 2 f_equal. subst o'. apply IH.
    + lia.
    + lia.
    + intros i Hi. specialize (Hfail (S i) ltac:(lia)). unfold cleaned; simpl.
      rewrite Hreq. now replace (S (requests s) + i)%nat with (requests s + S i)%nat by lia.
    + destruct Hlast as [Hlast|Hlast]; [left; lia | right]. unfold cleaned; simpl.
      rewrite Hreq. now replace (S (requests s) + k)%nat with (requests s + S k)%nat by lia.
Qed.

End Transfer.

(* ================================================================== *)
(** * Names in a listing                                                *)
(* ================================================================== *)

Section Names.

Lemma startswith_slash (c : ascii) (s : string) :
  Py.startswith (String c s) "/" = Ascii.eqb "/" c.
Proof. simpl. destruct s; now rewrite andb_true_r. Qed.

Lemma contains_slash_cons (c : ascii) (s : string) :
  Py.contains "/" (String c s) = Ascii.eqb "/" c || Py.contains "/" s.
Proof.
  change (Py.contains "/" (String c s))
    with (Py.startswith (String c s) "/" || Py.contains "/" s).
  now rewrite startswith_slash.
Qed.

Lemma slashless_contains (name : string) :
  slashless name = true -> Py.contains "/" name = false.
Proof.
  induction name as [|c name IH]; [reflexivity |].
  intros H. unfold slashless in H. cbn [Py.all_chars] in H.
  apply andb_true_iff in H as [Hc Hn]. apply negb_true_iff in Hc.
  rewrite contains_slash_cons, (IH Hn), orb_false_r.
  now rewrite Ascii.eqb_sym.
Qed.

Lemma contains_slash_append (dir name : string) :
  Py.contains "/" (dir ++ "/" ++ name) = true.
Proof.
  induction dir as [|c dir IH].
  - rewrite append_nil. change ("/" ++ name)%string with (String "/" name).
    now rewrite contains_slash_cons.
  - rewrite append_cons, contains_slash_cons, IH. apply orb_true_r.
Qed.

Lemma last_segment_append (dir name : string) :
  slashless name = true -> Py.last_segment (dir ++ "/" ++ name) = name.
Proof.
  intros Hn. induction dir as [|c dir IH].
  - rewrite append_nil. change ("/" ++ name)%string with (String "/" name).
    cbn [Py.last_segment]. now rewrite (slashless_contains _ Hn).
  - rewrite append_cons. cbn [Py.last_segment].
    now rewrite contains_slash_append.
Qed.

Lemma rstrip_slash_slashless (name : string) :
  slashless name = true -> Py.rstrip_slash name = name.
Proof.
  induction name as [|c name IH]; [reflexivity |].
  intros H. unfold slashless in H. cbn [Py.all_chars] in H.
  apply andb_true_iff in H as [Hc Hn]. apply negb_true_iff in Hc.
  cbn [Py.rstrip_slash]. rewrite (IH Hn). destruct name; [now rewrite Hc | reflexivity].
Qed.

Lemma rstrip_slash_append (dir name : string) :
  name <> "" -> slashless name = true ->
  Py.rstrip_slash (dir ++ name) = (dir ++ name)%string.
Proof.
  intros Hne Hn. induction dir as [|c dir IH].
  - rewrite append_nil. now apply rstrip_slash_slashless.
  - rewrite append_cons. cbn [Py.rstrip_slash]. rewrite IH.
    destruct (dir ++ name)%string eqn:E; [| reflexivity].
    destruct dir; [rewrite append_nil in E; congruence | discriminate].
Qed.

(** The name the code reads off the href of a child [name] of [dir]. *)
Lemma href_name (dir name : string) :
  name <> "" -> slashless name = true ->
  Py.last_segment (Py.rstrip_slash (dir ++ "/" ++ name)) = name.
Proof.
  intros Hne Hn.
  replace (dir ++ "/" ++ name)%string with ((dir ++ "/") ++ name)%string.
  - rewrite rstrip_slash_append by assumption.
    replace ((dir ++ "/") ++ name)%string with (dir ++ "/" ++ name)%string.
    + now apply last_segment_append.
    + induction dir as [|c dir IH]; [reflexivity |]. rewrite !append_cons. now f_equal.
  - induction dir as [|c dir IH]; [reflexivity |]. rewrite !append_cons. now f_equal.
Qed.

Lemma collect_zip_names_children (dir : string) (names acc : list string) :
  Forall (fun n => n <> "" /\ slashless n = true) names ->
  CNPJDownloader.collect_zip_names (List.map (fun n => Some (dir ++ "/" ++ n)%string) names) acc
  = inr (acc ++ List.filter CNPJDownloader.selected names)%list.
Proof.
  intros H; revert acc; induction H as [|n names [Hne Hn] _ IH]; intros acc; simpl.
  - now rewrite app_nil_r.
  - rewrite (href_name dir n Hne Hn).
    destruct (CNPJDownloader.selected n).
    + rewrite IH. now rewrite <- app_assoc.
    + apply IH.
Qed.

End Names.

(* ================================================================== *)
(** * The relevance filter and the listing client, as specified         *)
(* ================================================================== *)

Lemma relevant_iff (name : string) :
  _is_relevant_zip name = true
  <-> exists p rest, In p category_prefixes /\ Py.lower name = (p ++ rest)%string.
Proof.
  unfold _is_relevant_zip, category_prefixes. cbv zeta.
  rewrite !orb_true_iff, !startswith_spec. split.
  - intros [[[[r H]|[r H]]|[r H]]|[r H]]; eexists _, r; (split; [| exact H]); simpl; auto.
  - intros (p & r & Hin & H). simpl in Hin.
    destruct Hin as [<- | [<- | [<- | [<- | []]]]]; eauto 6.
Qed.

Lemma list_month_zips_first_answer (remote : Remote) (month : string) (s : State) names :
  listing_of (propfind remote (requests s) (month_url month)) = inr names ->
  _list_month_zips remote month 5 s
  = {| events := [Propfind (month_url month)]; state := tick s; result := inr names |}.
Proof.
  intros H. unfold _list_month_zips. cbv zeta.
  change (Z.to_nat 5) with 5%nat. now apply list_loop_success.
Qed.

(** C9.  A name is selected as an expected file exactly when its lowercase
    form ends with ".zip" and starts with one of the four fixed prefixes;
    the relevance predicate itself looks at the prefix only; and a listing
    whose children are estabelecimentos1.zip, readme.txt, empresas2.zip and
    notes.zip, in any order, yields the expected files estabelecimentos1.zip
    and empresas2.zip and no other. *)
Theorem relevance_filtering :
  (forall name,
     selected name = true
     <-> (exists stem, Py.lower name = (stem ++ ".zip")%string)
         /\ (exists p rest, In p category_prefixes /\ Py.lower name = (p ++ rest)%string))
  /\ (forall name,
        _is_relevant_zip name = true
        <-> exists p rest, In p category_prefixes /\ Py.lower name = (p ++ rest)%string)
  /\ (forall (remote : Remote) (month dir : string) (s : State) (names : list string),
        Permutation names ["estabelecimentos1.zip"; "readme.txt"; "empresas2.zip"; "notes.zip"] ->
        propfind remote (requests s) (month_url month)
        = PropfindHrefs (List.map (fun n => Some (dir ++ "/" ++ n)%string) names) ->
        exists zips,
          result (_list_month_zips remote month 5 s) = inr zips
          /\ forall n, In n zips <-> n = "estabelecimentos1.zip" \/ n = "empresas2.zip").
Proof.
  split; [| split].
  - intros name. unfold selected.
    now rewrite andb_true_iff, endswith_spec, relevant_iff.
  - apply relevant_iff.
  - intros remote month dir s names Hperm Hans.
    assert (Hin : forall n, In n names <->
              n = "estabelecimentos1.zip" \/ n = "readme.txt"
              \/ n = "empresas2.zip" \/ n = "notes.zip").
    { intros n. split.
      - intros H. apply (Permutation_in _ Hperm) in H. simpl in H.
        destruct H as [H|[H|[H|[H|[]]]]]; auto.
      - intros H. apply (Permutation_in _ (Permutation_sym Hperm)). simpl.
        destruct H as [H|[H|[H|H]]]; auto. }
    assert (Hall : Forall (fun n => n <> "" /\ slashless n = true) names).
    { apply List.Forall_forall. intros n H. apply Hin in H.
      destruct H as [-> | [-> | [-> | ->]]]; split; (discriminate || reflexivity). }
    assert (Hsel : forall n, In n (List.filter selected names)
                   <-> n = "estabelecimentos1.zip" \/ n = "empresas2.zip").
    { intros n. rewrite List.filter_In, Hin. split.
      - intros [[-> | [-> | [-> | ->]]] H]; auto; discriminate.
      - intros [-> | ->]; split; auto. }
    exists (List.filter selected names). split; [| exact Hsel].
    rewrite (list_month_zips_first_answer remote month s (List.filter selected names));
      [reflexivity |].
    rewrite Hans. cbn [listing_of].
    rewrite (collect_zip_names_children dir names [] Hall). cbn [app].
    destruct (List.filter selected names) eqn:E; [| reflexivity].
    exfalso. apply (proj2 (Hsel "estabelecimentos1.zip")); auto.
Qed.

Lemma relevance_filtering_witness :
  exists zips,
    result (_list_month_zips
              {| propfind := fun _ _ =>
                   PropfindHrefs
                     (List.map (fun n => Some (Scenario.href_dir ++ "/" ++ n)%string)
                        ["notes.zip"; "empresas2.zip"; "readme.txt"; "estabelecimentos1.zip"]);
                 get := fun _ _ => Scenario.error_page |}
              "2024-01" 5 Scenario.nothing_local) = inr zips
    /\ forall n, In n zips <-> n = "estabelecimentos1.zip" \/ n = "empresas2.zip".
Proof.
  destruct relevance_filtering as (_ & _ & H).
  apply (H _ "2024-01" Scenario.href_dir Scenario.nothing_local
           ["notes.zip"; "empresas2.zip"; "readme.txt"; "estabelecimentos1.zip"]).
  - apply Permutation_sym.
    apply perm_trans with
      ("estabelecimentos1.zip" :: ["notes.zip"; "empresas2.zip"; "readme.txt"]).
    + apply perm_skip. apply perm_trans with ["readme.txt"; "notes.zip"; "empresas2.zip"].
      * apply perm_skip. apply perm_swap.
      * apply (Permutation_cons_append ["notes.zip"; "empresas2.zip"] "readme.txt").
    + apply (Permutation_cons_append
               ["notes.zip"; "empresas2.zip"; "readme.txt"] "estabelecimentos1.zip").
  - reflexivity.
Defined.

Section ListingAgreement.

Variables remote remote' : Remote.
Variable month : string.
Variable retries : Z.

Let url := month_url month.

Hypothesis same_or_both_fail :
  forall n,
    propfind remote' n url = propfind remote n url
    \/ (yields_nothing (propfind remote n url)
        /\ exists e, propfind remote' n url = PropfindRaises e).

Lemma list_loop_agree (remaining : nat) :
  forall (attempt : Z) (s : State),
    list_loop remote' month url retries remaining attempt s
    = list_loop remote month url retries remaining attempt s.
Proof.
  induction remaining as [|remaining IH]; intros attempt s; [reflexivity |].
  assert (Hcases :
    listing_of (propfind remote' (requests s) url)
    = listing_of (propfind remote (requests s) url)
    \/ (exists e e', listing_of (propfind remote (requests s) url) = inl e
                     /\ listing_of (propfind remote' (requests s) url) = inl e')).
  { destruct (same_or_both_fail (requests s)) as [->|[Hy [e' ->]]]; [now left | right].
    pose proof (yields_nothing_failed _ Hy) as Hf.
    destruct (listing_of (propfind remote (requests s) url)) as [e|]; [| discriminate].
    now exists e, e'. }
  assert (Hfail : forall e e',
    listing_of (propfind remote (requests s) url) = inl e ->
    listing_of (propfind remote' (requests s) url) = inl e' ->
    list_loop remote' month url retries (S remaining) attempt s
    = list_loop remote month url retries (S remaining) attempt s).
  { intros e e' E E'. destruct (Z.eq_dec attempt retries) as [->|Hne].
    - now rewrite (list_loop_exhausted remote' _ _ _ _ _ E'),
        (list_loop_exhausted remote _ _ _ _ _ E).
    - rewrite (list_loop_retry remote' _ _ _ _ _ _ E' Hne),
        (list_loop_retry remote _ _ _ _ _ _ E Hne).
      cbv zeta. now rewrite IH. }
  destruct Hcases as [Heq|(e & e' & E & E')]; [| now apply (Hfail e e')].
  destruct (listing_of (propfind remote (requests s) url)) as [e|names] eqn:E.
  - now apply (Hfail e e).
  - now rewrite (list_loop_success remote' _ _ _ _ _ _ Heq),
      (list_loop_success remote _ _ _ _ _ _ E).
Qed.

End ListingAgreement.

(** C5.  A listing answer that parses and holds no relevant zip makes the
    attempt fail; the loop retries it as it retries a transport error; five
    such answers exhaust the budget, and only then does the listing fail,
    with an error that names the month; the listing never returns an empty
    list of expected files. *)
Theorem empty_listing_is_a_failure (remote : Remote) (month : string) (s : State) :
  let url := month_url month in
  let o := _list_month_zips remote month 5 s in
  (forall a, yields_nothing a -> listing_of a = inl (mkRuntimeError "No ZIPs found"))
  /\ (forall remote' : Remote,
        (forall n,
           propfind remote' n url = propfind remote n url
           \/ (yields_nothing (propfind remote n url)
               /\ exists e, propfind remote' n url = PropfindRaises e)) ->
        _list_month_zips remote' month 5 s = o)
  /\ ((forall i, (i < 5)%nat -> yields_nothing (propfind remote (requests s + i) url)) ->
      result o = inl (mkRuntimeError ("Failed to list ZIPs for " ++ month))
      /\ actions (events o) = backoff_schedule (Propfind url) 1 4)
  /\ (forall e,
        result o = inl e ->
        e = mkRuntimeError ("Failed to list ZIPs for " ++ month)
        /\ propfinds (events o) = repeat url 5
        /\ forall i, (i < 5)%nat ->
             failed (listing_of (propfind remote (requests s + i) url)) = true)
  /\ (forall names, result o = inr names -> names <> []).
Proof.
  intros url o.
  pose proof (list_loop_result remote month 5 4 1 s eq_refl) as R.
  cbv zeta in R. fold url in R.
  change (list_loop remote month url 5 5 1 s) with o in R.
  repeat split.
  - intros a (hrefs & -> & H). simpl. now rewrite H.
  - intros remote' H. unfold o, _list_month_zips. cbv zeta.
    now apply list_loop_agree.
  - destruct (result o) as [e|names]; [now destruct R as [-> _] |].
    destruct R as (k & Hk & Hok & _).
    pose proof (yields_nothing_failed _ (H k ltac:(lia))) as Hf.
    fold url in Hf. rewrite Hok in Hf. discriminate.
  - apply (list_loop_schedule remote month 5 4 5 1 s); [lia | reflexivity | | now left].
    intros i Hi. apply yields_nothing_failed, H. lia.
  - rewrite H in R. now destruct R as [-> _].
  - rewrite H in R. now destruct R as (_ & _ & -> & _).
  - rewrite H in R. destruct R as (_ & Hall & _). intros i Hi. apply Hall. lia.
  - intros names H. rewrite H in R. destruct R as (k & _ & Hok & _).
    now apply listing_of_nonempty in Hok.
Qed.

Lemma empty_listing_is_a_failure_witness :
  result (_list_month_zips Scenario.remote_noise "2024-01" 5 Scenario.nothing_local)
  = inl (mkRuntimeError "Failed to list ZIPs for 2024-01")
  /\ sleeps (events (_list_month_zips Scenario.remote_noise "2024-01" 5 Scenario.nothing_local))
     = [3; 12; 27; 48].
Proof.
  destruct (empty_listing_is_a_failure Scenario.remote_noise "2024-01" Scenario.nothing_local)
    as (_ & _ & H & _).
  destruct H as [Hres Hact].
  - intros i _. eexists. split; reflexivity.
  - split; [exact Hres |]. rewrite <- sleeps_actions, Hact. reflexivity.
Defined.

Lemma sleeps_backoff_schedule (req : Event) (n : nat) :
  sleeps [req] = [] ->
  forall first,
    sleeps (backoff_schedule req first n)
    = List.map (fun i => 3 * (first + Z.of_nat i) ^ 2) (seq 0 n).
Proof.
  intros Hreq. induction n as [|n IH]; intros first.
  - exact Hreq.
  - cbn [backoff_schedule].
    change (req :: Sleep (3 * first ^ 2) :: backoff_schedule req (first + 1) n)
      with ([req] ++ Sleep (3 * first ^ 2) :: backoff_schedule req (first + 1) n)%list.
    rewrite sleeps_app, Hreq, sleeps_cons, IH. cbn [app seq List.map].
    rewrite Z.add_0_r. f_equal.
    rewrite <- seq_shift, List.map_map. apply List.map_ext.
    intros i. do 2 f_equal. lia.
Qed.

(** C8.  In the listing loop and in the transfer loop alike, when attempts
    1..k fail and attempt k+1 is the last one made (it succeeds, or it is
    the last the retry count allows), the requests and waits are: attempt 1,
    wait 3 * 1 ^ 2, attempt 2, wait 3 * 2 ^ 2, ..., wait 3 * k ^ 2, attempt
    k+1, and nothing after it.  The wait before attempt 2 is 3 and the wait
    before attempt 3 is 12. *)
Theorem backoff_law (remote : Remote) (month url out_path : string) (retries : Z)
    (s : State) (k : nat) :
  Z.of_nat k < retries ->
  ((forall i, (i < k)%nat ->
      failed (listing_of (propfind remote (requests s + i) (month_url month))) = true) ->
   (Z.of_nat k + 1 = retries
    \/ failed (listing_of (propfind remote (requests s + k) (month_url month))) = false) ->
   actions (events (_list_month_zips remote month retries s))
   = backoff_schedule (Propfind (month_url month)) 1 k)
  /\ ((forall i, (i < k)%nat ->
         attempt_retried remote url out_path (requests s + i) = true) ->
      (Z.of_nat k + 1 = retries
       \/ attempt_retried remote url out_path (requests s + k) = false) ->
      actions (events (_download_file remote url out_path retries s))
      = backoff_schedule (Get url) 1 k)
  /\ (forall req, backoff_schedule req 1 2 = [req; Sleep 3; req; Sleep 12; req])
  /\ (forall u n,
        sleeps (backoff_schedule (Propfind u) 1 n)
        = List.map (fun i => 3 * (1 + Z.of_nat i) ^ 2) (seq 0 n)
        /\ sleeps (backoff_schedule (Get u) 1 n)
           = List.map (fun i => 3 * (1 + Z.of_nat i) ^ 2) (seq 0 n)).
Proof.
  intros Hk. repeat split.
  - intros Hfail Hlast. unfold _list_month_zips. cbv zeta.
    apply list_loop_schedule; [lia | lia | exact Hfail |].
    destruct Hlast as [Hlast|Hlast]; [left; lia | now right].
  - intros Hfail Hlast. unfold _download_file.
    apply download_loop_schedule; [lia | lia | exact Hfail |].
    destruct Hlast as [Hlast|Hlast]; [left; lia | now right].
  - now apply sleeps_backoff_schedule.
  - now apply sleeps_backoff_schedule.
Qed.

Lemma backoff_law_witness :
  actions (events (_list_month_zips Scenario.remote_flaky "2024-01" 5 Scenario.nothing_local))
  = [Propfind (month_url "2024-01"); Sleep 3;
     Propfind (month_url "2024-01"); Sleep 12;
     Propfind (month_url "2024-01")]
  /\ actions (events (_download_file Scenario.remote_flaky
                        (_build_file_url "2024-01" "Cnaes.zip")
                        "data/raw/2024-01/Cnaes.zip" 5 Scenario.nothing_local))
     = [Get (_build_file_url "2024-01" "Cnaes.zip"); Sleep 3;
        Get (_build_file_url "2024-01" "Cnaes.zip"); Sleep 12;
        Get (_build_file_url "2024-01" "Cnaes.zip")].
Proof.
  destruct (backoff_law Scenario.remote_flaky "2024-01"
              (_build_file_url "2024-01" "Cnaes.zip") "data/raw/2024-01/Cnaes.zip"
              5 Scenario.nothing_local 2) as (HL & HT & _); [lia |].
  split.
  - apply HL.
    + intros [|[|i]] Hi; [reflexivity | reflexivity | lia].
    + right. reflexivity.
  - apply HT.
    + intros [|[|i]] Hi; [reflexivity | reflexivity | lia].
    + right. reflexivity.
Defined.

(* ================================================================== *)
(** * The transfer worker, as specified                                 *)
(* ================================================================== *)




(* ================================================================== *)
(** * download.py: one round                                            *)
(* ================================================================== *)

Section Round.

Variable remote : Remote.
Variable raw_dir : string.
Variable month : string.

Let month_dir := path_join raw_dir month.

Lemma list_loop_quiet (retries : Z) (remaining : nat) :
  forall (attempt : Z) (s : State),
    let o := list_loop remote month (month_url month) retries remaining attempt s in
    gets (events o) = [] /\ files (state o) = files s.
Proof.
  induction remaining as [|remaining IH]; intros attempt s; [split; reflexivity |].
  cbv zeta.
  destruct (listing_of (propfind remote (requests s) (month_url month))) as [e|names] eqn:E.
  - destruct (Z.eq_dec attempt retries) as [->|Hne].
    + rewrite (list_loop_exhausted _ _ _ _ _ _ E). split; reflexivity.
    + rewrite (list_loop_retry _ _ _ _ _ _ _ E Hne). cbv zeta. cbn [events state].
      destruct (IH (attempt + 1) (tick s)) as [Hg Hf].
      rewrite !gets_cons. split; [exact Hg | exact Hf].
  - rewrite (list_loop_success _ _ _ _ _ _ _ E). split; reflexivity.
Qed.

Lemma list_month_zips_quiet (s : State) :
  gets (events (_list_month_zips remote month 5 s)) = []
  /\ files (state (_list_month_zips remote month 5 s)) = files s.
Proof. apply list_loop_quiet. Qed.

(** The diff of [_download_once], in closed form. *)
Lemma diff_names_spec (fs : gmap string string) (names skipped : list string)
    (tasks : list (string * string)) :
  diff_names fs month_dir names skipped tasks
  = ((skipped ++ List.map (path_join month_dir)
                   (List.filter (fun n => present fs (path_join month_dir n)) names))%list,
     (tasks ++ List.map (fun n => (n, path_join month_dir n))
                 (List.filter (fun n => negb (present fs (path_join month_dir n))) names))%list).
Proof.
  revert skipped tasks; induction names as [|n names IH]; intros skipped tasks; simpl.
  - now rewrite !app_nil_r.
  - destruct (present fs (path_join month_dir n)); simpl; rewrite IH;
      now rewrite <- app_assoc.
Qed.

(** One task of the pool, in closed form. *)
Lemma run_tasks_step (name out_path : string) (rest : list (string * string))
    (acc : list string) (s : State) :
  run_tasks remote month month_dir ((name, out_path) :: rest) acc s
  = let o := _download_file remote (_build_file_url month name) out_path 3 s in
    match result o with
    | inr _ =>
        let o' := run_tasks remote month month_dir rest
                    (acc ++ [path_join month_dir name])%list (state o) in
        {| events := events o ++ events o'; state := state o'; result := result o' |}
    | inl exc =>
        let o' := run_tasks remote month month_dir rest acc (state o) in
        {| events :=
             events o
             ++ Print ("[DOWNLOADER] Failed to download " ++ name ++ ": " ++ exn_str exc)
             :: events o';
           state := state o'; result := result o' |}
    end.
Proof.
  cbn [run_tasks]. unfold bind, try_except, print, emit, ret. cbv zeta.
  destruct (_download_file remote (_build_file_url month name) out_path 3 s)
    as [evs st [exc|[]]]; cbn [result events state].
  - destruct (run_tasks remote month month_dir rest acc st) as [evs' st' r'];
      cbn [result events state].
    f_equal. rewrite app_nil_r, <- app_assoc. reflexivity.
  - destruct (run_tasks remote month month_dir rest _ st) as [evs' st' r'];
      cbn [result events state].
    now rewrite app_nil_r.
Qed.

(** What one worker does, whatever its outcome. *)
Lemma download_file_facts (url out_path : string) (s : State) :
  let o := _download_file remote url out_path 3 s in
  (forall u, In u (gets (events o)) <-> u = url)
  /\ (forall q, q <> out_path -> files (state o) !! q = files s !! q).
Proof.
  unfold _download_file. change (Z.to_nat 3) with 3%nat. cbv zeta. split.
  - destruct (download_loop_gets remote url out_path 3 3 1 s) as (k & Hk & _ & Hpos & _).
    intros u. rewrite Hk. split.
    + intros H. now apply repeat_spec in H.
    + intros ->. destruct k as [|k]; [destruct Hpos; [discriminate | lia] |]. now left.
  - apply download_loop_other_paths.
Qed.

(** What the pool does with the tasks of the names [ns]. *)
Lemma run_tasks_facts (ns : list string) :
  forall (acc : list string) (s : State),
    let o := run_tasks remote month month_dir
               (List.map (fun n => (n, path_join month_dir n)) ns) acc s in
    (exists fetched,
       result o = inr (acc ++ fetched)%list
       /\ incl fetched (List.map (path_join month_dir) ns))
    /\ (forall u, In u (gets (events o)) <-> exists n, In n ns /\ u = _build_file_url month n)
    /\ (forall q, (forall n, In n ns -> q <> path_join month_dir n) ->
          files (state o) !! q = files s !! q).
Proof.
  induction ns as [|n ns IH]; intros acc s; cbv zeta.
  - cbn. repeat split.
    + exists []. rewrite app_nil_r. split; [reflexivity | apply incl_nil_l].
    + intros [].
    + intros (n & [] & _).
  - cbn [List.map]. rewrite run_tasks_step. cbv zeta.
    set (url := _build_file_url month n).
    set (out_path := path_join month_dir n).
    destruct (download_file_facts url out_path s) as [Hurl Hother].
    set (o := _download_file remote url out_path 3 s) in *. clearbody o.
    assert (Hgets : forall (o' : Outcome (list string)) evs,
      (forall u, In u (gets (events o')) <-> exists m, In m ns /\ u = _build_file_url month m) ->
      gets evs = gets (events o') ->
      forall u, In u (gets (events o) ++ gets evs)%list
                <-> exists m, In m (n :: ns) /\ u = _build_file_url month m).
    { intros o' evs Ho' Hevs u. rewrite in_app_iff, Hurl, Hevs, Ho'. split.
      - intros [->|(m & Hm & ->)]; [exists n; split; [now left | reflexivity] |].
        exists m. split; [now right | reflexivity].
      - intros (m & [<-|Hm] & ->); [now left | right; now exists m]. }
    assert (Hfiles : forall (o' : Outcome (list string)),
      (forall q, (forall m, In m ns -> q <> path_join month_dir m) ->
         files (state o') !! q = files (state o) !! q) ->
      forall q, (forall m, In m (n :: ns) -> q <> path_join month_dir m) ->
        files (state o') !! q = files s !! q).
    { intros o' Ho' q Hq. rewrite Ho' by (intros m Hm; apply Hq; now right).
      apply Hother. apply Hq. now left. }
    destruct (result o) as [exc|[]].
    + destruct (IH acc (state o)) as ((fetched & Hres & Hincl) & Hg & Hf).
      cbv zeta in Hres, Hg, Hf. cbn [result events state]. repeat split.
      * exists fetched. split; [exact Hres | now apply incl_tl].
      * rewrite gets_app. now apply (Hgets _ _ Hg).
      * rewrite gets_app. now apply (Hgets _ _ Hg).
      * now apply Hfiles.
    + destruct (IH (acc ++ [path_join month_dir n])%list (state o))
        as ((fetched & Hres & Hincl) & Hg & Hf).
      cbv zeta in Hres, Hg, Hf. cbn [result events state]. repeat split.
      * exists (path_join month_dir n :: fetched). split.
        -- etransitivity; [exact Hres |]. now rewrite <- app_assoc.
        -- intros p [<-|Hp]; [now left | right; now apply Hincl].
      * rewrite gets_app. now apply (Hgets _ _ Hg).
      * rewrite gets_app. now apply (Hgets _ _ Hg).
      * now apply Hfiles.
Qed.

(** [_download_once] after its listing, in closed form. *)
Lemma download_once_run (s : State) :
  _download_once remote raw_dir month s
  = let l := _list_month_zips remote month 5 s in
    match result l with
    | inl e =>
        {| events := Print ("[DOWNLOADER] Processing month " ++ month) :: events l;
           state := state l; result := inl e |}
    | inr names =>
        let fs := files (state l) in
        let skipped :=
          List.map (path_join month_dir)
            (List.filter (fun n => present fs (path_join month_dir n)) names) in
        match List.filter (fun n => negb (present fs (path_join month_dir n))) names with
        | [] =>
            {| events :=
                 Print ("[DOWNLOADER] Processing month " ++ month)
                 :: events l ++ [Print "[DOWNLOADER] Nothing to download"];
               state := state l;
               result := inr {| downloaded := []; skipped := skipped |} |}
        | todo =>
            let o := run_tasks remote month month_dir
                       (List.map (fun n => (n, path_join month_dir n)) todo) [] (state l) in
            {| events := Print ("[DOWNLOADER] Processing month " ++ month)
                         :: events l ++ events o;
               state := state o;
               result :=
                 match result o with
                 | inl e => inl e
                 | inr fetched => inr {| downloaded := fetched; skipped := skipped |}
                 end |}
        end
    end.
Proof.
  unfold _download_once. fold month_dir.
  unfold bind, print, emit, _ensure_dir, ret, get_files. cbn [result events state app].
  cbv zeta.
  destruct (_list_month_zips remote month 5 s) as [evl sl [e|names]];
    cbn [result events state]; [reflexivity |].
  rewrite diff_names_spec. cbn [app].
  destruct (List.filter (fun n => negb (present (files sl) (path_join month_dir n))) names)
    as [|n todo]; cbn [List.map result events state app].
  - reflexivity.
  - change ((n, path_join month_dir n)
            :: List.map (fun n0 => (n0, path_join month_dir n0)) todo)
      with (List.map (fun n0 => (n0, path_join month_dir n0)) (n :: todo)).
    destruct (run_tasks remote month month_dir _ [] sl) as [evo so [e|fetched]];
      cbn [result events state app]; [reflexivity |].
    now rewrite !app_nil_r.
Qed.

(** [_find_missing_zips], in closed form. *)
Lemma find_missing_zips_run (s : State) :
  _find_missing_zips remote raw_dir month s
  = let l := _list_month_zips remote month 5 s in
    {| events := events l; state := state l;
       result :=
         match result l with
         | inl e => inl e
         | inr expected => inr (missing_names (files (state l)) month_dir expected)
         end |}.
Proof.
  unfold _find_missing_zips. fold month_dir.
  unfold bind, get_files, ret. cbv zeta.
  destruct (_list_month_zips remote month 5 s) as [evl sl [e|names]];
    cbn [result events state]; [reflexivity |].
  now rewrite !app_nil_r.
Qed.

End Round.

(* ================================================================== *)
(** * download.py: the rounds of a month                                *)
(* ================================================================== *)

Section Month.

Variable remote : Remote.
Variable raw_dir : string.
Variable month : string.

Let month_dir := path_join raw_dir month.

Lemma month_round_run (s : State) :
  month_round remote raw_dir month s
  = let d := _download_once remote raw_dir month s in
    match result d with
    | inl e => {| events := events d; state := state d; result := inl e |}
    | inr res =>
        let f := _find_missing_zips remote raw_dir month (state d) in
        {| events := events d ++ events f; state := state f;
           result := match result f with
                     | inl e => inl e
                     | inr missing => inr (res, missing)
                     end |}
    end.
Proof.
  unfold month_round, bind, ret. cbv zeta.
  destruct (_download_once remote raw_dir month s) as [evd sd [e|res]];
    cbn [result events state]; [reflexivity |].
  destruct (_find_missing_zips remote raw_dir month sd) as [evf sf [e|missing]];
    cbn [result events state]; [reflexivity |].
  now rewrite app_nil_r.
Qed.

(** One iteration of the loop of [download_month], in closed form. *)
Lemma month_loop_step (max_rounds : Z) (remaining : nat) (round_num : Z)
    (downloaded_all skipped_all : list string) (s : State) :
  month_loop remote raw_dir month max_rounds (S remaining) round_num
    downloaded_all skipped_all s
  = let r := month_round remote raw_dir month s in
    let round_line :=
      Print ("[DOWNLOADER] Download round " ++ Py.str_int round_num ++ "/"
             ++ Py.str_int max_rounds) in
    match result r with
    | inl e => {| events := round_line :: events r; state := state r; result := inl e |}
    | inr (res, []) =>
        {| events := round_line :: events r ++ [Print "[DOWNLOADER] Month download complete"];
           state := state r;
           result := inr {| downloaded := (downloaded_all ++ downloaded res)%list;
                            skipped := skipped res |} |}
    | inr (res, missing) =>
        let o := month_loop remote raw_dir month max_rounds remaining (round_num + 1)
                   (downloaded_all ++ downloaded res)%list (skipped res) (state r) in
        {| events :=
             round_line :: events r
             ++ Print ("[DOWNLOADER] Month incomplete: "
                       ++ Py.str_int (Z.of_nat (length missing)) ++ " ZIPs missing")
             :: Sleep 10 :: events o;
           state := state o; result := result o |}
    end.
Proof.
  rewrite month_round_run. cbn [month_loop].
  unfold bind, print, sleep, emit, ret. cbv zeta. cbn [result events state app].
  destruct (_download_once remote raw_dir month s) as [evd sd [e|res]];
    cbn [result events state]; [reflexivity |].
  destruct (_find_missing_zips remote raw_dir month sd) as [evf sf [e|[|m missing]]];
    cbn [result events state app]; [reflexivity | |].
  - now rewrite <- app_assoc.
  - destruct (month_loop remote raw_dir month max_rounds remaining (round_num + 1) _ _ sf)
      as [evo so ro]; cbn [result events state app].
    f_equal. f_equal. now rewrite <- !app_assoc.
Qed.

Lemma download_month_run (s : State) :
  download_month remote raw_dir month s
  = let o := month_loop remote raw_dir month 5 5 1 [] [] s in
    {| events := Print ("[DOWNLOADER] Ensuring complete download for " ++ month) :: events o;
       state := state o; result := result o |}.
Proof.
  unfold download_month, bind, print, emit. cbv zeta. cbn [result events state app].
  change (Z.to_nat 5) with 5%nat.
  destruct (month_loop remote raw_dir month 5 5 1 [] [] s) as [evo so [e|R]]; reflexivity.
Qed.

(** Rounds that all end with a file missing use up the loop. *)
Lemma month_loop_incomplete (n : nat) (s : State) results acts (s' : State) :
  incomplete_rounds remote raw_dir month n s results acts s' ->
  forall (round_num : Z) (downloaded_all skipped_all : list string),
    let o := month_loop remote raw_dir month 5 n round_num downloaded_all skipped_all s in
    result o = inl (incomplete_month_error month) /\ actions (events o) = acts /\ state o = s'.
Proof.
  induction 1 as [s|n s res missing results acts s' Hres Hmiss _ IH];
    intros round_num downloaded_all skipped_all; cbv zeta.
  - repeat split.
  - rewrite month_loop_step. cbv zeta. rewrite Hres.
    destruct missing as [|m missing]; [congruence |].
    cbn [result events state].
    destruct (IH (round_num + 1) (downloaded_all ++ downloaded res)%list (skipped res))
      as (Hr & Ha & Hs).
    repeat split; [exact Hr | | exact Hs].
    rewrite actions_cons, actions_app, !actions_cons. now rewrite Ha.
Qed.

(** A loop that returns went through some incomplete rounds and a complete
    one. *)
Lemma month_loop_complete (n : nat) :
  forall (s : State) (round_num : Z) (downloaded_all skipped_all : list string) R,
    result (month_loop remote raw_dir month 5 n round_num downloaded_all skipped_all s)
    = inr R ->
    exists results acts s1 last,
      (length results < n)%nat
      /\ incomplete_rounds remote raw_dir month (length results) s results acts s1
      /\ result (month_round remote raw_dir month s1) = inr (last, [])
      /\ downloaded R
         = (downloaded_all ++ concat (List.map downloaded results) ++ downloaded last)%list
      /\ skipped R = skipped last.
Proof.
  induction n as [|n IH]; intros s round_num downloaded_all skipped_all R; [discriminate |].
  rewrite month_loop_step. cbv zeta.
  destruct (result (month_round remote raw_dir month s)) as [e|[res [|m missing]]] eqn:E;
    cbn [result].
  - discriminate.
  - intros [= <-]. exists [], [], s, res. cbn [length List.map concat app downloaded skipped].
    repeat split; [lia | constructor | exact E].
  - intros H. apply IH in H as (results & acts & s1 & last & Hlen & Hrounds & Hlast & Hd & Hs).
    exists (res :: results),
      (actions (events (month_round remote raw_dir month s)) ++ Sleep 10 :: acts)%list,
      s1, last.
    cbn [length List.map concat].
    repeat split; [lia | | exact Hlast | | exact Hs].
    + eapply rounds_more; [exact E | discriminate | exact Hrounds].
    + rewrite Hd. now rewrite <- !app_assoc.
Qed.

Lemma filter_all (f : string -> bool) (l : list string) :
  (forall x, In x l -> f x = true) ->
  List.filter f l = l /\ List.filter (fun x => negb (f x)) l = [].
Proof.
  induction l as [|x l IH]; intros H; [split; reflexivity |].
  cbn [List.filter]. rewrite (H x (or_introl eq_refl)). cbn [negb].
  destruct IH as [-> ->]; [intros y Hy; apply H; now right |]. split; reflexivity.
Qed.

End Month.

(* ================================================================== *)
(** * The orchestrator, as specified                                    *)
(* ================================================================== *)

Lemma filter_nil_none (f : string -> bool) (l : list string) :
  List.filter f l = [] -> forall x, In x l -> f x = false.
Proof.
  intros H x Hx. destruct (f x) eqn:E; [| reflexivity].
  assert (Hin : In x (List.filter f l)) by (apply List.filter_In; now split).
  rewrite H in Hin. destruct Hin.
Qed.

Lemma incomplete_rounds_length remote raw_dir month n s results acts s' :
  incomplete_rounds remote raw_dir month n s results acts s' -> length results = n.
Proof. induction 1; [reflexivity | cbn [length]; now f_equal]. Qed.

(** What one round dispatches, skips and leaves alone. *)
Lemma download_once_facts (remote : Remote) (raw_dir month : string) (s : State)
    (names : list string) :
  let path := path_join (path_join raw_dir month) in
  let o := _download_once remote raw_dir month s in
  result (_list_month_zips remote month 5 s) = inr names ->
  exists fetched,
    result o
    = inr {| downloaded := fetched;
             skipped :=
               List.map path (List.filter (fun n => present (files s) (path n)) names) |}
    /\ incl fetched
         (List.map path (List.filter (fun n => negb (present (files s) (path n))) names))
    /\ (forall u,
          In u (gets (events o))
          <-> exists n, In n names /\ present (files s) (path n) = false
                        /\ u = _build_file_url month n)
    /\ (forall n, In n names -> present (files s) (path n) = true ->
          files (state o) !! path n = files s !! path n).
Proof.
  intros path o Hl. subst o. rewrite download_once_run. cbv zeta.
  destruct (list_month_zips_quiet remote month s) as [Hquiet Hfs].
  rewrite Hl, Hfs. fold path.
  set (todo := List.filter (fun n => negb (present (files s) (path n))) names).
  assert (Htodo : forall n, In n todo <-> In n names /\ present (files s) (path n) = false).
  { intros n. unfold todo. rewrite List.filter_In, negb_true_iff. reflexivity. }
  destruct (run_tasks_facts remote raw_dir month todo [] (state (_list_month_zips remote month 5 s)))
    as ((fetched & Hres & Hincl) & Hgets & Hfiles).
  cbv zeta in Hres, Hgets, Hfiles. fold path in Hres, Hgets, Hfiles, Hincl.
  rewrite Hfs in Hfiles.
  assert (Hkeep : forall n, In n names -> present (files s) (path n) = true ->
            forall m, In m todo -> path n <> path m).
  { intros n _ Hp m Hm Heq. apply Htodo in Hm as [_ Hm]. rewrite Heq in Hp. congruence. }
  destruct todo as [|t todo'] eqn:Etodo.
  - exists []. cbn [result events state]. repeat split.
    + apply incl_nil_l.
    + rewrite gets_cons, gets_app, Hquiet. intros [].
    + intros (n & Hn & Hp & _). destruct (proj2 (Htodo n) (conj Hn Hp)).
    + intros n Hn Hp. now rewrite Hfs.
  - exists fetched. cbn [result events state]. rewrite Hres. cbn [app]. repeat split.
    + exact Hincl.
    + rewrite gets_cons, gets_app, Hquiet. cbn [app]. intros H.
      apply Hgets in H as (n & Hn & ->). apply Htodo in Hn as [Hn Hp]. now exists n.
    + rewrite gets_cons, gets_app, Hquiet. cbn [app]. intros (n & Hn & Hp & ->).
      apply Hgets. exists n. split; [apply Htodo; now split | reflexivity].
    + intros n Hn Hp. apply Hfiles. now apply Hkeep.
Qed.

(** C1.  In every round, the transfers requested are those of the expected
    files that are missing locally or empty, and no other; the expected
    files present with a nonzero size are the round's skipped list and keep
    their contents.  When every file the remote lists is present with a
    nonzero size, [download_month] makes no transfer request and returns an
    empty downloaded list and all expected files as skipped. *)
Theorem present_files_are_skipped (remote : Remote) (raw_dir month : string) :
  let path := path_join (path_join raw_dir month) in
  (forall (s : State) (names : list string),
     result (_list_month_zips remote month 5 s) = inr names ->
     let o := _download_once remote raw_dir month s in
     exists fetched,
       result o
       = inr {| downloaded := fetched;
                skipped :=
                  List.map path (List.filter (fun n => present (files s) (path n)) names) |}
       /\ incl fetched
            (List.map path (List.filter (fun n => negb (present (files s) (path n))) names))
       /\ (forall u,
             In u (gets (events o))
             <-> exists n, In n names /\ present (files s) (path n) = false
                           /\ u = _build_file_url month n)
       /\ (forall n, In n names -> present (files s) (path n) = true ->
             files (state o) !! path n = files s !! path n))
  /\ (forall (s : State) (names names' : list string),
        result (_list_month_zips remote month 5 s) = inr names ->
        result (_list_month_zips remote month 5 (state (_list_month_zips remote month 5 s)))
        = inr names' ->
        (forall n, In n names \/ In n names' -> present (files s) (path n) = true) ->
        let o := download_month remote raw_dir month s in
        result o = inr {| downloaded := []; skipped := List.map path names |}
        /\ gets (events o) = []
        /\ files (state o) = files s).
Proof.
  intros path. split.
  - intros s names Hl o.
    destruct (download_once_facts remote raw_dir month s names Hl)
      as (fetched & H1 & H2 & H3 & H4).
    exists fetched. repeat split; assumption || apply H3.
  - intros s names names' Hl Hl' Hall o. subst o.
    destruct (filter_all (fun n => present (files s) (path n)) names) as [Hkeep Hnone];
      [intros n Hn; apply Hall; now left |].
    destruct (filter_all (fun n => present (files s) (path n)) names') as [_ Hnone'];
      [intros n Hn; apply Hall; now right |].
    destruct (list_month_zips_quiet remote month s) as [Hq Hfs].
    set (l := _list_month_zips remote month 5 s) in *.
    destruct (list_month_zips_quiet remote month (state l)) as [Hq' Hfs'].
    (* the round *)
    assert (Hd : _download_once remote raw_dir month s
                 = {| events := Print ("[DOWNLOADER] Processing month " ++ month)
                                :: events l ++ [Print "[DOWNLOADER] Nothing to download"];
                      state := state l;
                      result := inr {| downloaded := []; skipped := List.map path names |} |}).
    { rewrite download_once_run. cbv zeta. fold l. rewrite Hl, Hfs. fold path.
      now rewrite Hnone, Hkeep. }
    assert (Hround : month_round remote raw_dir month s
                     = {| events := events (_download_once remote raw_dir month s)
                                    ++ events (_list_month_zips remote month 5 (state l));
                          state := state (_list_month_zips remote month 5 (state l));
                          result := inr ({| downloaded := [];
                                            skipped := List.map path names |}, []) |}).
    { rewrite month_round_run. cbv zeta. rewrite Hd. cbn [result events state].
      rewrite find_missing_zips_run. cbv zeta. cbn [result events state].
      rewrite Hl'. unfold missing_names. rewrite Hfs', Hfs. fold path. now rewrite Hnone'. }
    rewrite download_month_run. cbv zeta. rewrite month_loop_step. cbv zeta.
    rewrite Hround. cbn [result events state downloaded skipped app]. repeat split.
    + rewrite Hd. cbn [events].
      rewrite !gets_cons, !gets_app, !gets_cons, !gets_app, Hq, Hq'. reflexivity.
    + now rewrite Hfs', Hfs.
Qed.

Lemma present_files_are_skipped_witness :
  result (download_month Scenario.remote_steady "data/raw" "2024-01" Scenario.all_local)
  = inr {| downloaded := [];
           skipped := ["data/raw/2024-01/Cnaes.zip"; "data/raw/2024-01/Empresas0.zip";
                       "data/raw/2024-01/Estabelecimentos0.zip"] |}
  /\ gets (events (download_month Scenario.remote_steady "data/raw" "2024-01"
                     Scenario.all_local)) = [].
Proof.
  destruct (present_files_are_skipped Scenario.remote_steady "data/raw" "2024-01") as [_ H].
  destruct (H Scenario.all_local Scenario.three_zips Scenario.three_zips) as (H1 & H2 & _).
  - reflexivity.
  - reflexivity.
  - intros n [Hn|Hn]; simpl in Hn;
      destruct Hn as [<- | [<- | [<- | []]]]; vm_compute; reflexivity.
  - split; [exact H1 | exact H2].
Defined.

(** The claim C2 as stated fails: the error raised after five rounds is the
    same whether one file or two are still missing. *)
Lemma incomplete_month_error_hides_missing_count :
  result (download_month Scenario.remote_one_missing "data/raw" "2024-01"
            Scenario.nothing_local)
  = inl (incomplete_month_error "2024-01")
  /\ result (download_month Scenario.remote_two_missing "data/raw" "2024-01"
               Scenario.nothing_local)
     = inl (incomplete_month_error "2024-01")
  /\ result (_find_missing_zips Scenario.remote_one_missing "data/raw" "2024-01"
               (state (download_month Scenario.remote_one_missing "data/raw" "2024-01"
                         Scenario.nothing_local)))
     = inr ["Estabelecimentos0.zip"]
  /\ result (_find_missing_zips Scenario.remote_two_missing "data/raw" "2024-01"
               (state (download_month Scenario.remote_two_missing "data/raw" "2024-01"
                         Scenario.nothing_local)))
     = inr ["Empresas0.zip"; "Estabelecimentos0.zip"].
Proof. vm_compute. repeat split. Qed.

(** C2, amended.  When each of five rounds in a row ends with some expected
    file still missing, [download_month] makes exactly those five rounds,
    each followed by the wait of 10, and then raises the error "Failed to
    fully download month <month> after 5 rounds": it names the month and the
    number of rounds, not the number of missing files, and no result is
    returned. *)
Theorem download_month_gives_up_after_five_rounds (remote : Remote)
    (raw_dir month : string) (s : State) results acts (s' : State) :
  incomplete_rounds remote raw_dir month 5 s results acts s' ->
  let o := download_month remote raw_dir month s in
  result o = inl (incomplete_month_error month)
  /\ exn_str (incomplete_month_error month)
     = "[DOWNLOADER] Failed to fully download month " ++ month ++ " after 5 rounds"
  /\ actions (events o) = acts
  /\ state o = s'
  /\ length results = 5%nat.
Proof.
  intros H o. subst o. rewrite download_month_run. cbv zeta. cbn [result events state].
  destruct (month_loop_incomplete remote raw_dir month 5 s results acts s' H 1 [] [])
    as (Hr & Ha & Hs).
  split; [exact Hr |]. split; [reflexivity |].
  split; [now rewrite actions_cons |]. split; [exact Hs |].
  now apply incomplete_rounds_length in H.
Qed.

Lemma download_month_gives_up_after_five_rounds_witness :
  result (download_month Scenario.remote_one_missing "data/raw" "2024-01"
            Scenario.nothing_local)
  = inl (incomplete_month_error "2024-01").
Proof.
  eapply (download_month_gives_up_after_five_rounds Scenario.remote_one_missing
            "data/raw" "2024-01" Scenario.nothing_local).
  do 5 (eapply rounds_more; [vm_compute; reflexivity | discriminate |]).
  apply rounds_none.
Defined.

(** The claim C4 as stated fails: a file fetched in the first round and
    found present in the second is in both lists, and the skipped list is
    that of the last round, not the accumulation. *)
Lemma fetched_then_skipped_in_both_lists :
  result (download_month Scenario.remote_late "data/raw" "2024-01" Scenario.cnaes_local)
  = inr {| downloaded := ["data/raw/2024-01/Empresas0.zip";
                          "data/raw/2024-01/Estabelecimentos0.zip"];
           skipped := ["data/raw/2024-01/Cnaes.zip"; "data/raw/2024-01/Empresas0.zip"] |}
  /\ result (_download_once Scenario.remote_late "data/raw" "2024-01" Scenario.cnaes_local)
     = inr {| downloaded := ["data/raw/2024-01/Empresas0.zip"];
              skipped := ["data/raw/2024-01/Cnaes.zip"] |}.
Proof. vm_compute. split; reflexivity. Qed.

(** C4, amended.  When [download_month] returns, some rounds (fewer than
    five) ended with a file missing and a last one ended with none; the
    downloaded list is the concatenation, in round order, of what each of
    these rounds fetched, and the skipped list is the one of the last round
    alone. *)
Theorem download_month_result (remote : Remote) (raw_dir month : string) (s : State)
    (R : DownloadResult) :
  result (download_month remote raw_dir month s) = inr R ->
  exists results acts s1 last,
    (length results < 5)%nat
    /\ incomplete_rounds remote raw_dir month (length results) s results acts s1
    /\ result (month_round remote raw_dir month s1) = inr (last, [])
    /\ downloaded R = concat (List.map downloaded (results ++ [last]))
    /\ skipped R = skipped last.
Proof.
  rewrite download_month_run. cbv zeta. cbn [result]. intros H.
  apply month_loop_complete in H as (results & acts & s1 & last & Hlen & Hr & Hl & Hd & Hs).
  exists results, acts, s1, last. repeat split; try assumption.
  rewrite Hd. cbn [app]. rewrite List.map_app, concat_app. cbn [List.map concat].
  now rewrite app_nil_r.
Qed.

Lemma download_month_result_witness :
  exists results acts s1 last,
    (length results < 5)%nat
    /\ incomplete_rounds Scenario.remote_late "data/raw" "2024-01" (length results)
         Scenario.cnaes_local results acts s1
    /\ result (month_round Scenario.remote_late "data/raw" "2024-01" s1) = inr (last, [])
    /\ ["data/raw/2024-01/Empresas0.zip"; "data/raw/2024-01/Estabelecimentos0.zip"]
       = concat (List.map downloaded (results ++ [last]))
    /\ ["data/raw/2024-01/Cnaes.zip"; "data/raw/2024-01/Empresas0.zip"] = skipped last.
Proof.
  apply (download_month_result Scenario.remote_late "data/raw" "2024-01" Scenario.cnaes_local
           {| downloaded := ["data/raw/2024-01/Empresas0.zip";
                             "data/raw/2024-01/Estabelecimentos0.zip"];
              skipped := ["data/raw/2024-01/Cnaes.zip";
                          "data/raw/2024-01/Empresas0.zip"] |}).
  vm_compute. reflexivity.
Defined.

(* ================================================================== *)
(** * find.py: the month finder                                         *)
(* ================================================================== *)

Section MonthShape.

Lemma isdigit_char_ascii (c : ascii) :
  (Py.ord c <? 128)%nat = true -> Py.isdigit_char c = decimal_digit c.
Proof.
  unfold Py.isdigit_char, decimal_digit. cbv zeta. intros H. apply Nat.ltb_lt in H.
  destruct (Nat.eqb_spec (Py.ord c) 178); [lia |].
  destruct (Nat.eqb_spec (Py.ord c) 179); [lia |].
  destruct (Nat.eqb_spec (Py.ord c) 185); [lia |].
  now rewrite !orb_false_r.
Qed.

(** On ASCII names the code's test is the shape NNNN-NN. *)
Lemma is_month_folder_ascii (name : string) :
  Py.is_ascii name = true -> CNPJMonthFinder._is_month_folder name = month_shape name.
Proof.
  destruct name as [|a [|b [|c [|d [|h [|e [|f [|g rest]]]]]]]]; try reflexivity.
  unfold Py.is_ascii. cbn [Py.all_chars]. rewrite !andb_true_iff.
  intros (Ha & Hb & Hc & Hd & _ & He & Hf & _).
  unfold CNPJMonthFinder._is_month_folder, month_shape, Py.isdigit.
  cbn [String.length Nat.eqb negb String.get Py.slice_to Py.slice_from substring
       Nat.sub String.eqb Py.all_chars andb].
  rewrite !isdigit_char_ascii by assumption.
  rewrite !andb_true_r.
  destruct (decimal_digit a), (decimal_digit b), (decimal_digit c), (decimal_digit d),
    (Ascii.eqb h "-"), (decimal_digit e), (decimal_digit f); reflexivity.
Qed.

End MonthShape.

Section Finder.

Variable propfind : nat -> string -> CNPJMonthFinder.PropfindAnswer.
Variable now : Z.
Variable strptime : string -> option Z.
Variable days_window : Z.

Lemma list_month_folders_run (s : State) :
  CNPJMonthFinder._list_month_folders propfind strptime s
  = {| events := [Propfind root_url]; state := tick s;
       result :=
         match propfind (requests s) root_url with
         | CNPJMonthFinder.PropfindRaises e => inl e
         | CNPJMonthFinder.PropfindResponses responses =>
             CNPJMonthFinder.collect_months strptime responses ∅
         end |}.
Proof. reflexivity. Qed.

Lemma get_updated_months_run (s : State) :
  CNPJMonthFinder.get_updated_months propfind now strptime days_window s
  = let l := CNPJMonthFinder._list_month_folders propfind strptime s in
    match result l with
    | inl e =>
        {| events := [Print "[WATCHER] Checking updated months"; Propfind root_url];
           state := tick s; result := inl e |}
    | inr months =>
        let updated :=
          CNPJMonthFinder.updated_of (CNPJMonthFinder._cutoff_datetime now days_window) months in
        {| events := [Print "[WATCHER] Checking updated months"; Propfind root_url;
                      Print ("[WATCHER] " ++ Py.str_int (Z.of_nat (length updated))
                             ++ " months updated")];
           state := tick s; result := inr updated |}
    end.
Proof.
  unfold CNPJMonthFinder.get_updated_months, bind, print, emit, ret. cbv zeta.
  cbn [result events state app]. rewrite list_month_folders_run.
  cbn [result events state app].
  destruct (propfind (requests s) root_url) as [e|responses]; [reflexivity |].
  destruct (CNPJMonthFinder.collect_months strptime responses ∅); reflexivity.
Qed.

(** Responses for children of another shape change nothing. *)
Lemma collect_months_ignores (responses : list CNPJMonthFinder.DavResponse) :
  forall months,
    CNPJMonthFinder.collect_months strptime
      (List.filter (fun r => negb (other_shape r)) responses) months
    = CNPJMonthFinder.collect_months strptime responses months.
Proof.
  induction responses as [|r rest IH]; intros months; [reflexivity |].
  cbn [List.filter]. unfold other_shape, response_name.
  destruct r as [[[text|]|] [prop|]]; cbn [CNPJMonthFinder.href CNPJMonthFinder.getlastmodified negb];
    cbn [CNPJMonthFinder.collect_months CNPJMonthFinder.href CNPJMonthFinder.getlastmodified];
    try apply IH; try reflexivity.
  destruct (CNPJMonthFinder._is_month_folder (Py.last_segment (Py.rstrip_slash text))) eqn:E;
    cbn [negb].
  - cbn [CNPJMonthFinder.collect_months CNPJMonthFinder.href CNPJMonthFinder.getlastmodified].
    rewrite E. cbn [negb].
    destruct (CNPJMonthFinder._parse_http_datetime strptime prop); [reflexivity | apply IH].
  - apply IH.
Qed.

(** The dict the loop fills, when nothing in the listing makes it raise. *)
Lemma collect_months_spec (responses : list CNPJMonthFinder.DavResponse) :
  (forall r, In r responses ->
     CNPJMonthFinder.getlastmodified r <> None -> CNPJMonthFinder.href r <> Some None) ->
  (forall r name, In r responses -> response_name r = Some name ->
     CNPJMonthFinder._is_month_folder name = true ->
     exists t, response_time strptime r = Some t) ->
  forall months,
    exists final,
      CNPJMonthFinder.collect_months strptime responses months = inr final
      /\ forall name,
           final !! name
           = if CNPJMonthFinder._is_month_folder name
             then match last_modified_of strptime responses name with
                  | Some t => Some t
                  | None => months !! name
                  end
             else months !! name.
Proof.
  induction responses as [|r rest IH]; intros Htext Htime months.
  - exists months. split; [reflexivity |]. intros name.
    now destruct (CNPJMonthFinder._is_month_folder name).
  - assert (Htext' : forall r', In r' rest ->
              CNPJMonthFinder.getlastmodified r' <> None ->
              CNPJMonthFinder.href r' <> Some None)
      by (intros r' Hr'; apply Htext; now right).
    assert (Htime' : forall r' name, In r' rest -> response_name r' = Some name ->
              CNPJMonthFinder._is_month_folder name = true ->
              exists t, response_time strptime r' = Some t)
      by (intros r' name Hr'; apply Htime; now right).
    assert (Hskip : response_name r = None \/
                    (exists name, response_name r = Some name
                                  /\ CNPJMonthFinder._is_month_folder name = false) ->
              CNPJMonthFinder.collect_months strptime (r :: rest) months
              = CNPJMonthFinder.collect_months strptime rest months ->
              exists final,
                CNPJMonthFinder.collect_months strptime (r :: rest) months = inr final
                /\ forall name,
                     final !! name
                     = if CNPJMonthFinder._is_month_folder name
                       then match last_modified_of strptime (r :: rest) name with
                            | Some t => Some t
                            | None => months !! name
                            end
                       else months !! name).
    { intros Hname Heq. destruct (IH Htext' Htime' months) as (final & Hfinal & Hlook).
      exists final. split; [now rewrite Heq |]. intros name. rewrite Hlook.
      destruct (CNPJMonthFinder._is_month_folder name) eqn:Em; [| reflexivity].
      cbn [last_modified_of].
      destruct (last_modified_of strptime rest name); [reflexivity |].
      case_bool_decide as Hr; [| reflexivity].
      destruct Hname as [Hn|(name' & Hn & Hshape)]; rewrite Hn in Hr; [discriminate |].
      injection Hr as ->. congruence. }
    pose proof (Htext r (or_introl eq_refl)) as Ht.
    pose proof (Htime r) as Hp.
    unfold response_name, response_time in Hp, Hskip.
    destruct r as [[[text|]|] [prop|]];
      cbn [CNPJMonthFinder.href CNPJMonthFinder.getlastmodified] in *.
    + (* href with text, getlastmodified present *)
      set (name0 := Py.last_segment (Py.rstrip_slash text)) in *.
      destruct (CNPJMonthFinder._is_month_folder name0) eqn:E.
      * destruct (Hp name0 (or_introl eq_refl) eq_refl E) as [t Hparse].
        destruct prop as [value|]; [| discriminate].
        destruct (IH Htext' Htime' (<[name0 := t]> months)) as (final & Hfinal & Hlook).
        exists final. split.
        { cbn [CNPJMonthFinder.collect_months CNPJMonthFinder.href
               CNPJMonthFinder.getlastmodified].
          fold name0. rewrite E. cbn [negb CNPJMonthFinder._parse_http_datetime].
          now rewrite Hparse. }
        intros name. rewrite Hlook.
        destruct (CNPJMonthFinder._is_month_folder name) eqn:Em.
        -- cbn [last_modified_of].
           destruct (last_modified_of strptime rest name); [reflexivity |].
           unfold response_name, response_time.
           cbn [CNPJMonthFinder.href CNPJMonthFinder.getlastmodified]. fold name0.
           case_bool_decide as Hr.
           ++ injection Hr as <-. rewrite lookup_insert_eq.
              unfold response_time in Hparse.
              cbn [CNPJMonthFinder.getlastmodified] in Hparse. now rewrite Hparse.
           ++ rewrite lookup_insert_ne; [reflexivity | congruence].
        -- rewrite lookup_insert_ne; [reflexivity | congruence].
      * apply Hskip; [right; now exists name0 |].
        cbn [CNPJMonthFinder.collect_months CNPJMonthFinder.href
             CNPJMonthFinder.getlastmodified].
        fold name0. now rewrite E.
    + apply Hskip; [now left | reflexivity].
    + exfalso. now apply Ht.
    + apply Hskip; [now left | reflexivity].
    + apply Hskip; [now left | reflexivity].
    + apply Hskip; [now left | reflexivity].
Qed.

Lemma NoDup_fst_filter {A B} (f : A * B -> bool) (l : list (A * B)) :
  List.NoDup (List.map fst l) -> List.NoDup (List.map fst (List.filter f l)).
Proof.
  induction l as [|x l IH]; intros H; [constructor |].
  cbn [List.map List.filter] in *. inversion H as [|? ? Hx Hl]; subst.
  destruct (f x); [| now apply IH].
  cbn [List.map]. constructor; [| now apply IH].
  intros Hin. apply Hx. apply List.in_map_iff in Hin as (y & Hy & Hin).
  apply List.filter_In in Hin as [Hin _]. apply List.in_map_iff. now exists y.
Qed.

(** What [get_updated_months] makes of the dict. *)
Lemma updated_of_spec (cutoff : Z) (months : gmap string Z) :
  let updated := CNPJMonthFinder.updated_of cutoff months in
  Sorted str_le updated
  /\ List.NoDup updated
  /\ forall name, In name updated <-> exists t, months !! name = Some t /\ cutoff <= t.
Proof.
  cbv zeta. unfold CNPJMonthFinder.updated_of, CNPJMonthFinder.datetime.
  set (kept := List.filter (fun item : string * Z => cutoff <=? item.2) (map_to_list months)).
  pose proof (merge_sort_Permutation str_le (List.map fst kept)) as Hperm.
  split; [apply Sorted_merge_sort; apply _ |]. split.
  - apply NoDup_ListNoDup. rewrite Hperm. apply NoDup_ListNoDup.
    apply NoDup_fst_filter. apply NoDup_ListNoDup. apply NoDup_fst_map_to_list.
  - intros name. rewrite <- list_elem_of_In, Hperm, list_elem_of_In.
    rewrite List.in_map_iff. split.
    + intros ([k t] & <- & Hin). apply List.filter_In in Hin as [Hin Hle].
      exists t. split; [| now apply Z.leb_le].
      apply elem_of_map_to_list. now apply list_elem_of_In.
    + intros (t & Hlook & Hle). exists (name, t). split; [reflexivity |].
      apply List.filter_In. split; [| now apply Z.leb_le].
      apply list_elem_of_In. now apply elem_of_map_to_list.
Qed.

End Finder.

(* ================================================================== *)
(** * The month finder, as specified                                    *)
(* ================================================================== *)

Lemma decimal_digit_isdigit (c : ascii) :
  decimal_digit c = true -> Py.isdigit_char c = true.
Proof. unfold Py.isdigit_char, decimal_digit. cbv zeta. now intros ->. Qed.

Lemma month_shape_is_month_folder (name : string) :
  month_shape name = true -> CNPJMonthFinder._is_month_folder name = true.
Proof.
  destruct name as [|a [|b [|c [|d [|h [|e [|f [|g rest]]]]]]]]; try discriminate.
  unfold month_shape. rewrite !andb_true_iff.
  intros ((((((Ha & Hb) & Hc) & Hd) & Hh) & He) & Hf).
  unfold CNPJMonthFinder._is_month_folder, Py.isdigit.
  cbn [String.length Nat.eqb negb String.get Py.slice_to Py.slice_from substring
       Nat.sub String.eqb Py.all_chars andb].
  now rewrite Hh, !decimal_digit_isdigit.
Qed.

Lemma last_modified_of_in (strptime : string -> option Z)
    (responses : list CNPJMonthFinder.DavResponse) (name : string) (t : Z) :
  last_modified_of strptime responses name = Some t ->
  exists r, In r responses /\ response_name r = Some name.
Proof.
  revert t; induction responses as [|r rest IH]; intros t; [discriminate |].
  cbn [last_modified_of].
  destruct (last_modified_of strptime rest name) as [t'|].
  - intros _. destruct (IH t' eq_refl) as (r' & Hin & Hname). exists r'. split; [now right | exact Hname].
  - case_bool_decide as Hr; [| discriminate]. intros _. exists r. split; [now left | exact Hr].
Qed.

(** C7.  Given a listing whose names are ASCII, whose responses with a
    timestamp all carry an href text, and whose children of shape NNNN-NN
    have a timestamp that parses, [get_updated_months] returns, in ascending
    order and without repeats, exactly the names of shape NNNN-NN whose
    last-modified timestamp is at or after now minus the window; children of
    any other shape need no well-formed timestamp and can be removed from
    the listing without changing the result. *)
Theorem get_updated_months_spec
    (propfind : nat -> string -> CNPJMonthFinder.PropfindAnswer)
    (now : Z) (strptime : string -> option Z) (days_window : Z) (s : State)
    (responses : list CNPJMonthFinder.DavResponse) :
  propfind (requests s) root_url = CNPJMonthFinder.PropfindResponses responses ->
  (forall r name, In r responses -> response_name r = Some name ->
     Py.is_ascii name = true) ->
  (forall r, In r responses ->
     CNPJMonthFinder.getlastmodified r <> None -> CNPJMonthFinder.href r <> Some None) ->
  (forall r name, In r responses -> response_name r = Some name ->
     month_shape name = true -> exists t, response_time strptime r = Some t) ->
  exists updated,
    result (CNPJMonthFinder.get_updated_months propfind now strptime days_window s)
    = inr updated
    /\ Sorted str_le updated
    /\ List.NoDup updated
    /\ (forall name,
          In name updated
          <-> month_shape name = true
              /\ exists t, last_modified_of strptime responses name = Some t
                           /\ now - CNPJMonthFinder.timedelta_days days_window <= t)
    /\ (forall propfind',
          propfind' (requests s) root_url
          = CNPJMonthFinder.PropfindResponses
              (List.filter (fun r => negb (other_shape r)) responses) ->
          result (CNPJMonthFinder.get_updated_months propfind' now strptime days_window s)
          = inr updated).
Proof.
  intros Hans Hascii Htext Htime.
  destruct (collect_months_spec strptime responses Htext) with (months := (∅ : gmap string CNPJMonthFinder.datetime))
    as (final & Hfinal & Hlook).
  { intros r name Hr Hname Hfolder. apply (Htime r name Hr Hname).
    rewrite <- is_month_folder_ascii; [exact Hfolder | now apply (Hascii r)]. }
  destruct (updated_of_spec (CNPJMonthFinder._cutoff_datetime now days_window) final)
    as (Hsorted & Hnodup & Hin).
  exists (CNPJMonthFinder.updated_of (CNPJMonthFinder._cutoff_datetime now days_window) final).
  split; [| split; [exact Hsorted | split; [exact Hnodup | split]]].
  - rewrite get_updated_months_run. cbv zeta. rewrite list_month_folders_run.
    cbn [result]. now rewrite Hans, Hfinal.
  - intros name. rewrite Hin. unfold CNPJMonthFinder._cutoff_datetime. split.
    + intros (t & Ht & Hle). rewrite Hlook in Ht.
      destruct (CNPJMonthFinder._is_month_folder name) eqn:Efolder;
        [| rewrite lookup_empty in Ht; discriminate].
      destruct (last_modified_of strptime responses name) as [t'|] eqn:El;
        [| rewrite lookup_empty in Ht; discriminate].
      injection Ht as ->.
      destruct (last_modified_of_in _ _ _ _ El) as (r & Hr & Hname).
      split; [| now exists t].
      rewrite <- is_month_folder_ascii; [exact Efolder | now apply (Hascii r)].
    + intros (Hshape & t & Ht & Hle). exists t. split; [| exact Hle].
      now rewrite Hlook, (month_shape_is_month_folder _ Hshape), Ht.
  - intros propfind' Hans'. rewrite get_updated_months_run. cbv zeta.
    rewrite list_month_folders_run. cbn [result].
    now rewrite Hans', collect_months_ignores, Hfinal.
Qed.

Lemma get_updated_months_spec_witness :
  exists updated,
    result (CNPJMonthFinder.get_updated_months FinderScenario.propfind_steady
              FinderScenario.now FinderScenario.strptime 15 Scenario.nothing_local)
    = inr updated
    /\ Sorted str_le updated
    /\ In "2026-10" updated /\ In "2026-11" updated
    /\ ~ In "2026-09" updated.
Proof.
  destruct (get_updated_months_spec FinderScenario.propfind_steady FinderScenario.now
              FinderScenario.strptime 15 Scenario.nothing_local FinderScenario.root_listing)
    as (updated & Hres & Hsorted & _ & Hin & _).
  - reflexivity.
  - intros r name Hr Hname. simpl in Hr.
    destruct Hr as [<- | [<- | [<- | [<- | [<- | [<- | [<- | []]]]]]]];
      vm_compute in Hname; try discriminate; injection Hname as <-; reflexivity.
  - intros r Hr _. simpl in Hr.
    destruct Hr as [<- | [<- | [<- | [<- | [<- | [<- | [<- | []]]]]]]]; discriminate.
  - intros r name Hr Hname Hshape. simpl in Hr.
    destruct Hr as [<- | [<- | [<- | [<- | [<- | [<- | [<- | []]]]]]]];
      vm_compute in Hname; try discriminate; injection Hname as <-;
      try discriminate; eexists; vm_compute; reflexivity.
  - exists updated. split; [exact Hres |]. split; [exact Hsorted |]. split; [| split].
    + apply Hin. split; [reflexivity |]. eexists. split; [vm_compute; reflexivity |].
      vm_compute. discriminate.
    + apply Hin. split; [reflexivity |]. eexists. split; [vm_compute; reflexivity |].
      vm_compute. discriminate.
    + intros H. apply Hin in H as (_ & t & Ht & Hle).
      vm_compute in Ht. injection Ht as <-. vm_compute in Hle. now apply Hle.
Defined.

(** The claim C6 as stated fails: the first request of the month finder
    fails, the second would have been answered, and discovery raises at
    once, after one request and no wait. *)
Lemma month_discovery_fails_at_once :
  result (CNPJMonthFinder.get_updated_months FinderScenario.propfind_flaky
            FinderScenario.now FinderScenario.strptime 15 Scenario.nothing_local)
  = inl Scenario.unreachable
  /\ actions (events (CNPJMonthFinder.get_updated_months FinderScenario.propfind_flaky
                        FinderScenario.now FinderScenario.strptime 15
                        Scenario.nothing_local))
     = [Propfind root_url]
  /\ FinderScenario.propfind_flaky 1 root_url
     = CNPJMonthFinder.PropfindResponses FinderScenario.root_listing.
Proof. repeat split. Qed.

(** C6, amended.  The month finder lists the root directory with one
    request, without retry and without wait; when that request fails, the
    failure is what [get_updated_months] raises. *)
Theorem month_discovery_makes_one_request
    (propfind : nat -> string -> CNPJMonthFinder.PropfindAnswer)
    (now : Z) (strptime : string -> option Z) (days_window : Z) (s : State) :
  let o := CNPJMonthFinder.get_updated_months propfind now strptime days_window s in
  actions (events o) = [Propfind root_url]
  /\ requests (state o) = S (requests s)
  /\ (forall e, propfind (requests s) root_url = CNPJMonthFinder.PropfindRaises e ->
        result o = inl e).
Proof.
  cbv zeta. rewrite get_updated_months_run. cbv zeta. rewrite list_month_folders_run.
  cbn [result].
  destruct (propfind (requests s) root_url) as [e|responses].
  - repeat split. now intros e' [= <-].
  - destruct (CNPJMonthFinder.collect_months strptime responses ∅);
      repeat split; discriminate.
Qed.

Lemma month_discovery_makes_one_request_witness :
  result (CNPJMonthFinder.get_updated_months FinderScenario.propfind_flaky
            FinderScenario.now FinderScenario.strptime 15 Scenario.nothing_local)
  = inl Scenario.unreachable.
Proof.
  apply (month_discovery_makes_one_request FinderScenario.propfind_flaky
           FinderScenario.now FinderScenario.strptime 15 Scenario.nothing_local).
  reflexivity.
Defined.

(* ================================================================== *)
(** * More on the transfer worker                                       *)
(* ================================================================== *)

Section TransferMore.

Variable remote : Remote.
Variable url out_path : string.

Lemma present_spec (fs : gmap string string) (path : string) :
  present fs path = true <-> exists content, fs !! path = Some content /\ content <> "".
Proof.
  unfold present. destruct (fs !! path) as [content|].
  - split.
    + intros H. exists content. split; [reflexivity |]. intros ->. discriminate.
    + intros (c & [= <-] & Hne). destruct content; [congruence | reflexivity].
  - split; [discriminate | intros (c & H & _); discriminate].
Qed.

Lemma append_assoc (a b c : string) : ((a ++ b) ++ c)%string = (a ++ b ++ c)%string.
Proof. induction a as [|x a IH]; [reflexivity |]. rewrite !append_cons. now f_equal. Qed.

Lemma append_empty_r (a : string) : (a ++ "")%string = a.
Proof. induction a as [|x a IH]; [reflexivity |]. rewrite append_cons. now f_equal. Qed.

(** What the read loop leaves at [out_path] when it ends normally. *)
Lemma write_chunks_content (chunks : list string) (ending : option Exn) :
  forall (s : State) (before : string),
    files s !! out_path = Some before ->
    result (write_chunks out_path chunks ending s) = inr tt ->
    files (state (write_chunks out_path chunks ending s)) !! out_path
    = Some (before ++ received chunks)%string.
Proof.
  induction chunks as [|chunk rest IH]; intros s before Hb; cbn [write_chunks received].
  - destruct ending; [discriminate |]. intros _. cbn [ret state].
    now rewrite Hb, append_empty_r.
  - destruct (String.eqb chunk "").
    + intros _. cbn [ret state]. now rewrite Hb, append_empty_r.
    + unfold bind, write, get_files, set_files. cbn [result events state].
      set (s1 := {| files := <[out_path := (default "" (files s !! out_path) ++ chunk)%string]>
                               (files s);
                    requests := requests s |}).
      intros H.
      assert (H1 : result (write_chunks out_path rest ending s1) = inr tt).
      { exact H. }
      assert (Hs1 : files s1 !! out_path = Some (before ++ chunk)%string).
      { subst s1. cbn [files]. rewrite lookup_insert_eq. now rewrite Hb. }
      pose proof (IH s1 _ Hs1 H1) as R. rewrite append_assoc in R. exact R.
Qed.

(** A successful attempt leaves at [out_path] the body it received and
    nothing of what was there. *)
Lemma download_attempt_content (s : State) (resp : Response) :
  get remote (requests s) url = GetResponds resp ->
  result (download_attempt remote url out_path s) = inr tt ->
  files (state (download_attempt remote url out_path s)) !! out_path
  = Some (received (body resp)).
Proof.
  unfold download_attempt, bind, http_get, _ensure_dir, open_wb, get_files, set_files, ret.
  cbn [result events state]. intros ->.
  destruct (negb (Py.contains "zip" _)); [discriminate |].
  destruct (content_length resp); try discriminate; cbn [result events state];
    intros H; (apply write_chunks_content with (before := ""%string);
               [apply lookup_insert_eq | exact H]).
Qed.

Variable retries : Z.

(** X: after [k] retried failures, the attempt that succeeds decides the
    file. *)
Lemma download_loop_content (k : nat) :
  forall (remaining : nat) (attempt : Z) (s : State) (resp : Response),
    (k < remaining)%nat ->
    attempt + Z.of_nat remaining = retries + 1 ->
    (forall i, (i < k)%nat -> attempt_retried remote url out_path (requests s + i) = true) ->
    get remote (requests s + k) url = GetResponds resp ->
    attempt_result remote url out_path (requests s + k) = inr tt ->
    let o := download_loop remote url out_path retries remaining attempt s in
    result o = inr tt
    /\ files (state o) !! out_path = Some (received (body resp))
    /\ requests (state o) = (requests s + S k)%nat.
Proof.
  induction k as [|k IH]; intros remaining attempt s resp Hk Hinv Hfail Hget Hok;
    (destruct remaining as [|remaining]; [lia |]); cbv zeta;
    rewrite download_loop_step; cbv zeta;
    destruct (download_attempt_facts remote url out_path s) as (_ & Hreq & _ & Hres).
  - rewrite Nat.add_0_r in Hget, Hok. rewrite <- Hres in Hok. rewrite Hok.
    split; [exact Hok |]. split; [now apply download_attempt_content | lia].
  - pose proof (Hfail 0%nat ltac:(lia)) as H0. rewrite Nat.add_0_r in H0.
    unfold attempt_retried in H0. rewrite <- Hres in H0.
    set (o := download_attempt remote url out_path s) in *. clearbody o.
    destruct (result o) as [e|u]; [| discriminate].
    rewrite H0. assert ((attempt =? retries) = false) as -> by (apply Z.eqb_neq; lia).
    cbn [result state].
    assert (Hr : requests (cleaned out_path (state o)) = S (requests s)) by exact Hreq.
    destruct (IH remaining (attempt + 1) (cleaned out_path (state o)) resp) as (H1 & H2 & H3).
    + lia.
    + lia.
    + intros i Hi. rewrite Hr.
      replace (S (requests s) + i)%nat with (requests s + S i)%nat by lia.
      apply Hfail. lia.
    + rewrite Hr. now replace (S (requests s) + k)%nat with (requests s + S k)%nat by lia.
    + rewrite Hr. now replace (S (requests s) + k)%nat with (requests s + S k)%nat by lia.
    + split; [exact H1 |]. split; [exact H2 |]. rewrite H3, Hr. lia.
Qed.

(** Whatever the remote does, the loop's requests and waits form a backoff
    schedule. *)
Lemma download_loop_is_schedule (remaining : nat) :
  forall (attempt : Z) (s : State),
    attempt + Z.of_nat (S remaining) = retries + 1 ->
    exists k, (k <= remaining)%nat
      /\ actions (events (download_loop remote url out_path retries (S remaining) attempt s))
         = backoff_schedule (Get url) attempt k.
Proof.
  induction remaining as [|remaining IH]; intros attempt s Hinv;
    rewrite download_loop_step; cbv zeta;
    destruct (download_attempt_facts remote url out_path s) as (Hev & _ & _ & _);
    set (o := download_attempt remote url out_path s) in *; clearbody o.
  - exists 0%nat. split; [lia |].
    destruct (result o) as [e|u]; [| now rewrite Hev].
    destruct (transfer_caught e); [| cbn [events]; now rewrite Hev].
    assert (attempt = retries) as -> by lia. rewrite Z.eqb_refl. cbn [events]. now rewrite Hev.
  - destruct (result o) as [e|u]; [| exists 0%nat; split; [lia | now rewrite Hev]].
    destruct (transfer_caught e);
      [| exists 0%nat; split; [lia | cbn [events]; now rewrite Hev]].
    assert ((attempt =? retries) = false) as -> by (apply Z.eqb_neq; lia).
    destruct (IH (attempt + 1) (cleaned out_path (state o)) ltac:(lia)) as (k & Hk & Hact).
    exists (S k). split; [lia |]. cbn [events]. rewrite Hev.
    rewrite actions_app, !actions_cons. cbn [actions List.filter app backoff_schedule].
    now rewrite Hact.
Qed.

End TransferMore.

Section ListingMore.

Variable remote : Remote.
Variable month : string.
Variable retries : Z.

Lemma list_loop_is_schedule (remaining : nat) :
  forall (attempt : Z) (s : State),
    attempt + Z.of_nat (S remaining) = retries + 1 ->
    exists k, (k <= remaining)%nat
      /\ actions (events (list_loop remote month (month_url month) retries (S remaining)
                            attempt s))
         = backoff_schedule (Propfind (month_url month)) attempt k.
Proof.
  induction remaining as [|remaining IH]; intros attempt s Hinv;
    destruct (listing_of (propfind remote (requests s) (month_url month)))
      as [e|names] eqn:E;
    try (exists 0%nat; split; [lia |];
         now rewrite (list_loop_success _ _ _ _ _ _ _ E)).
  - exists 0%nat. split; [lia |]. assert (attempt = retries) as -> by lia.
    now rewrite (list_loop_exhausted _ _ _ _ _ _ E).
  - rewrite (list_loop_retry _ _ _ _ _ _ _ E) by lia. cbv zeta. cbn [events].
    destruct (IH (attempt + 1) (tick s) ltac:(lia)) as (k & Hk & Hact).
    exists (S k). split; [lia |]. rewrite !actions_cons. cbn [backoff_schedule].
    now rewrite Hact.
Qed.

End ListingMore.

Lemma propfinds_actions (l : list Event) : propfinds (actions l) = propfinds l.
Proof.
  induction l as [|ev l IH]; [reflexivity |].
  rewrite actions_cons. destruct ev; rewrite ?propfinds_cons; now rewrite IH.
Qed.

Lemma backoff_schedule_requests (u : string) (n : nat) :
  forall first,
    propfinds (backoff_schedule (Propfind u) first n) = repeat u (S n)
    /\ gets (backoff_schedule (Get u) first n) = repeat u (S n)
    /\ gets (backoff_schedule (Propfind u) first n) = []
    /\ propfinds (backoff_schedule (Get u) first n) = [].
Proof.
  induction n as [|n IH]; intros first; [repeat split |].
  cbn [backoff_schedule]. rewrite !propfinds_cons, !gets_cons.
  destruct (IH (first + 1)) as (-> & -> & -> & ->). repeat split.
Qed.

Lemma total_backoff_bound (n : nat) :
  (n <= 4)%nat ->
  total (List.map (fun i => 3 * (1 + Z.of_nat i) ^ 2) (seq 0 n)) <= 90
  /\ ((n <= 2)%nat -> total (List.map (fun i => 3 * (1 + Z.of_nat i) ^ 2) (seq 0 n)) <= 15).
Proof.
  intros H. destruct n as [|[|[|[|[|n]]]]]; try lia; cbn; split; lia.
Qed.

(* ================================================================== *)
(** * Further properties of the downloader                              *)
(* ================================================================== *)

(** X1.  When [k] attempts of [_download_file] fail with an exception its
    [except] clause names and the next one succeeds, the worker returns,
    the file at [out_path] is exactly the body received by the attempt that
    succeeded (nothing of the failed attempts, nothing of what was there
    before), every other path is as it was, and [k + 1] GET requests were
    made. *)
Theorem successful_transfer_writes_the_body (remote : Remote) (url out_path : string)
    (retries : Z) (s : State) (k : nat) (resp : Response) :
  Z.of_nat k < retries ->
  (forall i, (i < k)%nat -> attempt_retried remote url out_path (requests s + i) = true) ->
  get remote (requests s + k) url = GetResponds resp ->
  attempt_result remote url out_path (requests s + k) = inr tt ->
  let o := _download_file remote url out_path retries s in
  result o = inr tt
  /\ files (state o) !! out_path = Some (received (body resp))
  /\ (forall q, q <> out_path -> files (state o) !! q = files s !! q)
  /\ gets (events o) = repeat url (S k).
Proof.
  intros Hk Hfail Hget Hok o. subst o. unfold _download_file.
  destruct (download_loop_content remote url out_path retries k (Z.to_nat retries) 1 s resp)
    as (H1 & H2 & _); try assumption; try lia.
  split; [exact H1 |]. split; [exact H2 |]. split.
  - apply download_loop_other_paths.
  - rewrite <- gets_actions.
    rewrite (download_loop_schedule remote url out_path retries k); try assumption; try lia.
    + apply backoff_schedule_requests.
    + right. unfold attempt_retried. now rewrite Hok.
Qed.

Lemma successful_transfer_writes_the_body_witness :
  result (_download_file Scenario.remote_flaky (_build_file_url "2024-01" "Cnaes.zip")
            "data/raw/2024-01/Cnaes.zip" 3 Scenario.cnaes_local) = inr tt
  /\ files (state (_download_file Scenario.remote_flaky
                     (_build_file_url "2024-01" "Cnaes.zip")
                     "data/raw/2024-01/Cnaes.zip" 3 Scenario.cnaes_local))
       !! "data/raw/2024-01/Cnaes.zip" = Some "PK".
Proof.
  destruct (successful_transfer_writes_the_body Scenario.remote_flaky
              (_build_file_url "2024-01" "Cnaes.zip") "data/raw/2024-01/Cnaes.zip" 3
              Scenario.cnaes_local 2
              {| content_type := Some "application/zip"; content_length := LengthAbsent;
                 body := ["PK"]; body_end := None |})
    as (H1 & H2 & _).
  - lia.
  - intros [|[|i]] Hi; [reflexivity | reflexivity | lia].
  - reflexivity.
  - reflexivity.
  - split; [exact H1 | exact H2].
Defined.

(** X2.  An exception of a class the [except] clause of [_download_file]
    does not name is not retried: the worker raises it after that one
    request, without wait and without removing anything; when it is the
    [ValueError] of a Content-Length that is no integer, the local files
    are exactly as before. *)
Theorem unnamed_exception_is_not_retried (remote : Remote) (url out_path : string)
    (retries : Z) (s : State) (e : Exn) :
  0 < retries ->
  attempt_result remote url out_path (requests s) = inl e ->
  transfer_caught e = false ->
  let o := _download_file remote url out_path retries s in
  result o = inl e
  /\ events o = [Get url]
  /\ state o = state (download_attempt remote url out_path s)
  /\ (forall resp,
        get remote (requests s) url = GetResponds resp ->
        content_length resp = LengthInvalid ->
        exn_class e = ValueError /\ files (state o) = files s).
Proof.
  intros Hr Hres Hc o. subst o. unfold _download_file.
  destruct (Z.to_nat retries) as [|remaining] eqn:En; [lia |].
  rewrite download_loop_step. cbv zeta.
  destruct (download_attempt_facts remote url out_path s) as (Hev & _ & _ & Hres').
  rewrite Hres', Hres, Hc. cbn [result events state].
  split; [reflexivity |]. split; [exact Hev |]. split; [reflexivity |].
  intros resp Hget Hlen.
  unfold attempt_result in Hres.
  unfold download_attempt, bind, http_get in Hres |- *. cbn [result events state requests] in *.
  rewrite Hget in *. rewrite Hlen in *.
  destruct (negb (Py.contains "zip" (Py.lower (default "" (content_type resp))))).
  - cbn in Hres. injection Hres as <-. discriminate.
  - cbn in Hres. injection Hres as <-. split; reflexivity.
Qed.

Lemma unnamed_exception_is_not_retried_witness :
  gets (events (_download_file ScenarioMore.remote_bad_length
                  (_build_file_url "2024-01" "Cnaes.zip")
                  "data/raw/2024-01/Cnaes.zip" 3 Scenario.cnaes_local))
  = [_build_file_url "2024-01" "Cnaes.zip"]
  /\ files (state (_download_file ScenarioMore.remote_bad_length
                     (_build_file_url "2024-01" "Cnaes.zip")
                     "data/raw/2024-01/Cnaes.zip" 3 Scenario.cnaes_local))
     = files Scenario.cnaes_local.
Proof.
  destruct (unnamed_exception_is_not_retried ScenarioMore.remote_bad_length
              (_build_file_url "2024-01" "Cnaes.zip") "data/raw/2024-01/Cnaes.zip" 3
              Scenario.cnaes_local
              {| exn_class := ValueError;
                 exn_str := "invalid literal for int() with base 10" |})
    as (_ & Hev & _ & Hfs); [lia | reflexivity | reflexivity |].
  split; [now rewrite Hev |].
  now destruct (Hfs _ eq_refl eq_refl).
Defined.

(** X3.  Whatever the remote answers, the requests and waits of
    [_list_month_zips] form a backoff schedule of fewer failures than
    [retries]; with the default of 5 that is at most 5 requests and at most
    90 seconds of waiting.  With [retries <= 0] the function makes no
    request and returns the empty list, and that is the only way it returns
    an empty list. *)
Theorem listing_is_bounded (remote : Remote) (month : string) (retries : Z) (s : State) :
  let o := _list_month_zips remote month retries s in
  (retries <= 0 -> o = ret [] s)
  /\ (0 < retries ->
      exists k, Z.of_nat k < retries
        /\ actions (events o) = backoff_schedule (Propfind (month_url month)) 1 k)
  /\ (result o = inr [] <-> retries <= 0)
  /\ (retries = 5 ->
      (length (propfinds (events o)) <= 5)%nat /\ total (sleeps (events o)) <= 90).
Proof.
  cbv zeta. unfold _list_month_zips. cbv zeta. fold (month_url month).
  assert (Hzero : retries <= 0 ->
            list_loop remote month (month_url month) retries (Z.to_nat retries) 1 s
            = ret [] s).
  { intros H. now replace (Z.to_nat retries) with 0%nat by lia. }
  assert (Hsched : 0 < retries ->
            exists k, Z.of_nat k < retries
              /\ actions (events (list_loop remote month (month_url month) retries
                                    (Z.to_nat retries) 1 s))
                 = backoff_schedule (Propfind (month_url month)) 1 k).
  { intros H. destruct (Z.to_nat retries) as [|remaining] eqn:En; [lia |].
    destruct (list_loop_is_schedule remote month retries remaining 1 s ltac:(lia))
      as (k & Hk & Hact).
    exists k. split; [lia | exact Hact]. }
  split; [exact Hzero |]. split; [exact Hsched |]. split.
  - split.
    + intros H. destruct (Z_le_gt_dec retries 0) as [Hle|Hgt]; [exact Hle |].
      exfalso. destruct (Z.to_nat retries) as [|remaining] eqn:En; [lia |].
      pose proof (list_loop_result remote month retries remaining 1 s ltac:(lia)) as R.
      cbv zeta in R. rewrite H in R. destruct R as (k & _ & Hok & _).
      now apply listing_of_nonempty in Hok.
    + intros H. now rewrite (Hzero H).
  - intros ->. destruct (Hsched ltac:(lia)) as (k & Hk & Hact).
    rewrite <- sleeps_actions, <- propfinds_actions, Hact.
    destruct (backoff_schedule_requests (month_url month) k 1) as (-> & _).
    rewrite repeat_length.
    rewrite (sleeps_backoff_schedule (Propfind (month_url month)) k eq_refl 1).
    split; [lia |]. apply total_backoff_bound. lia.
Qed.

(** X4.  Whatever the remote answers, the requests and waits of
    [_download_file] form a backoff schedule of fewer failures than
    [retries]; with the default of 3 that is at most 3 requests and at most
    15 seconds of waiting.  The worker never issues a PROPFIND and never
    touches a path other than [out_path].  With [retries <= 0] it returns
    at once without any request and without writing. *)
Theorem transfer_is_bounded (remote : Remote) (url out_path : string) (retries : Z)
    (s : State) :
  let o := _download_file remote url out_path retries s in
  (retries <= 0 -> o = ret tt s)
  /\ (0 < retries ->
      exists k, Z.of_nat k < retries
        /\ actions (events o) = backoff_schedule (Get url) 1 k)
  /\ propfinds (events o) = []
  /\ (forall q, q <> out_path -> files (state o) !! q = files s !! q)
  /\ (retries = 3 ->
      (length (gets (events o)) <= 3)%nat /\ total (sleeps (events o)) <= 15).
Proof.
  cbv zeta. unfold _download_file.
  assert (Hsched : 0 < retries ->
            exists k, Z.of_nat k < retries
              /\ actions (events (download_loop remote url out_path retries
                                    (Z.to_nat retries) 1 s))
                 = backoff_schedule (Get url) 1 k).
  { intros H. destruct (Z.to_nat retries) as [|remaining] eqn:En; [lia |].
    destruct (download_loop_is_schedule remote url out_path retries remaining 1 s ltac:(lia))
      as (k & Hk & Hact).
    exists k. split; [lia | exact Hact]. }
  split; [| split; [exact Hsched | split; [| split]]].
  - intros H. now replace (Z.to_nat retries) with 0%nat by lia.
  - now destruct (download_loop_gets remote url out_path retries (Z.to_nat retries) 1 s)
      as (n & _ & _ & _ & Hp).
  - apply download_loop_other_paths.
  - intros ->. destruct (Hsched ltac:(lia)) as (k & Hk & Hact).
    rewrite <- sleeps_actions, <- gets_actions, Hact.
    destruct (backoff_schedule_requests url k 1) as (_ & -> & _).
    rewrite repeat_length.
    rewrite (sleeps_backoff_schedule (Get url) k eq_refl 1).
    split; [lia |]. apply total_backoff_bound; lia.
Qed.

(* ================================================================== *)
(** * Further properties of the orchestrator                            *)
(* ================================================================== *)

Section OrchestratorMore.

Variable remote : Remote.
Variable raw_dir : string.
Variable month : string.

Let path := path_join (path_join raw_dir month).

Lemma collect_zip_names_selected (hrefs : list (option string)) :
  forall acc names,
    collect_zip_names hrefs acc = inr names ->
    (forall n, In n acc -> selected n = true) ->
    forall n, In n names -> selected n = true.
Proof.
  induction hrefs as [|[text|] rest IH]; intros acc names Hrun Hacc;
    cbn [collect_zip_names] in Hrun.
  - now injection Hrun as <-.
  - destruct (selected (Py.last_segment (Py.rstrip_slash text))) eqn:E.
    + apply (IH _ _ Hrun). intros n Hn. apply List.in_app_iff in Hn as [Hn|[<-|[]]];
        [now apply Hacc | exact E].
    + now apply (IH _ _ Hrun).
  - discriminate.
Qed.

Lemma listing_of_selected (a : PropfindAnswer) (names : list string) :
  listing_of a = inr names -> forall n, In n names -> selected n = true.
Proof.
  unfold listing_of. destruct a as [e|hrefs]; [discriminate |].
  destruct (collect_zip_names hrefs []) as [e|[|n0 found]] eqn:E; try discriminate.
  intros [= <-]. apply (collect_zip_names_selected hrefs [] _ E). now intros n [].
Qed.

(** What a listing makes known to the rest of a round. *)
Lemma list_month_zips_footprint (s : State) :
  let l := _list_month_zips remote month 5 s in
  (exists k, (k <= 5)%nat /\ propfinds (events l) = repeat (month_url month) k)
  /\ (forall names, result l = inr names -> forall n, In n names -> selected n = true).
Proof.
  cbv zeta. pose proof (list_loop_result remote month 5 4 1 s eq_refl) as R.
  cbv zeta in R. change (list_loop remote month (month_url month) 5 5 1 s)
    with (_list_month_zips remote month 5 s) in R.
  destruct (result (_list_month_zips remote month 5 s)) as [e|names0].
  - destruct R as (_ & _ & Hp & _). split; [exists 5%nat; split; [lia | exact Hp] |].
    discriminate.
  - destruct R as (k & Hk & Hl & Hp & _). split; [exists (S k); split; [lia | exact Hp] |].
    intros names [= <-]. now apply (listing_of_selected _ _ Hl).
Qed.

Lemma list_month_zips_failure (s : State) (e : Exn) :
  result (_list_month_zips remote month 5 s) = inl e ->
  e = mkRuntimeError ("Failed to list ZIPs for " ++ month)
  /\ propfinds (events (_list_month_zips remote month 5 s)) = repeat (month_url month) 5.
Proof.
  intros H. pose proof (list_loop_result remote month 5 4 1 s eq_refl) as R.
  cbv zeta in R. change (list_loop remote month (month_url month) 5 5 1 s)
    with (_list_month_zips remote month 5 s) in R.
  rewrite H in R. now destruct R as (-> & _ & -> & _).
Qed.

Lemma find_missing_zips_files (s : State) :
  files (state (_find_missing_zips remote raw_dir month s)) = files s
  /\ gets (events (_find_missing_zips remote raw_dir month s)) = [].
Proof.
  rewrite find_missing_zips_run. cbv zeta. cbn [state events].
  destruct (list_month_zips_quiet remote month s) as [Hq Hf]. now split.
Qed.

(** A round touches nothing outside the month directory. *)
Lemma download_once_confined (s : State) (q : string) :
  (forall name, selected name = true -> q <> path name) ->
  files (state (_download_once remote raw_dir month s)) !! q = files s !! q.
Proof.
  intros Hq. rewrite download_once_run. cbv zeta.
  destruct (list_month_zips_quiet remote month s) as [_ Hfs].
  destruct (list_month_zips_footprint s) as [_ Hsel]. cbv zeta in Hsel.
  destruct (result (_list_month_zips remote month 5 s)) as [e|names];
    cbn [state]; [now rewrite Hfs |].
  specialize (Hsel names eq_refl).
  fold path.
  set (todo := List.filter _ names).
  destruct (run_tasks_facts remote raw_dir month todo [] (state (_list_month_zips remote month 5 s)))
    as (_ & _ & Hfiles).
  cbv zeta in Hfiles. fold path in Hfiles.
  assert (Htodo : forall n, In n todo -> selected n = true).
  { intros n Hn. apply Hsel. now apply List.filter_In in Hn as [Hn _]. }
  clearbody todo.
  destruct todo as [|t todo']; cbn [state]; [now rewrite Hfs |].
  rewrite Hfiles; [now rewrite Hfs |]. intros n Hn. now apply Hq, Htodo.
Qed.

Lemma month_round_confined (s : State) (q : string) :
  (forall name, selected name = true -> q <> path name) ->
  files (state (month_round remote raw_dir month s)) !! q = files s !! q.
Proof.
  intros Hq. rewrite month_round_run. cbv zeta.
  pose proof (download_once_confined s q Hq) as Hd.
  destruct (result (_download_once remote raw_dir month s)); cbn [state]; [exact Hd |].
  destruct (find_missing_zips_files (state (_download_once remote raw_dir month s))) as [-> _].
  exact Hd.
Qed.

Lemma month_loop_confined (n : nat) :
  forall (s : State) (round_num : Z) (downloaded_all skipped_all : list string) (q : string),
    (forall name, selected name = true -> q <> path name) ->
    files (state (month_loop remote raw_dir month 5 n round_num downloaded_all skipped_all s))
      !! q
    = files s !! q.
Proof.
  induction n as [|n IH]; intros s round_num downloaded_all skipped_all q Hq; [reflexivity |].
  rewrite month_loop_step. cbv zeta.
  pose proof (month_round_confined s q Hq) as Hr.
  destruct (result (month_round remote raw_dir month s)) as [e|[res [|m missing]]];
    cbn [state]; try exact Hr.
  now rewrite IH.
Qed.

Lemma write_chunks_ends (out_path : string) (chunks : list string) :
  forall s, result (write_chunks out_path chunks None s) = inr tt.
Proof.
  induction chunks as [|chunk rest IH]; intros s; cbn [write_chunks]; [reflexivity |].
  destruct (String.eqb chunk ""); [reflexivity |].
  unfold bind, write, get_files, set_files. cbn [result events state]. apply IH.
Qed.

Lemma serves_zip_succeeds (url out_path : string) (n : nat) :
  serves_zip (get remote n url) -> attempt_result remote url out_path n = inr tt.
Proof.
  intros (resp & chunk & rest & Hget & Htype & Hlen & _ & _ & Hend).
  unfold attempt_result, download_attempt, bind, http_get, _ensure_dir, open_wb,
    get_files, set_files, ret.
  cbn [result events state requests]. rewrite Hget.
  unfold declared_type in Htype. rewrite Htype. cbn [negb].
  destruct (content_length resp); [| congruence |]; cbn [result events state];
    rewrite Hend; apply write_chunks_ends.
Qed.

Lemma received_nonempty (chunk : string) (rest : list string) :
  chunk <> "" -> received (chunk :: rest) <> "".
Proof.
  intros Hne. cbn [received]. apply String.eqb_neq in Hne. rewrite Hne.
  destruct chunk as [|c chunk]; [now apply String.eqb_neq in Hne |].
  rewrite append_cons. discriminate.
Qed.

(** A worker whose request is served writes its file at the first attempt. *)
Lemma download_file_served (url out_path : string) (s : State) :
  serves_zip (get remote (requests s) url) ->
  let o := _download_file remote url out_path 3 s in
  result o = inr tt
  /\ events o = [Get url]
  /\ requests (state o) = S (requests s)
  /\ present (files (state o)) out_path = true
  /\ (forall q, q <> out_path -> files (state o) !! q = files s !! q).
Proof.
  intros Hserved. pose proof (serves_zip_succeeds url out_path _ Hserved) as Hok.
  destruct Hserved as (resp & chunk & rest & Hget & _ & _ & Hbody & Hne & _).
  cbv zeta. unfold _download_file. change (Z.to_nat 3) with 3%nat.
  rewrite download_loop_step. cbv zeta.
  destruct (download_attempt_facts remote url out_path s) as (Hev & Hreq & Hfs & Hres).
  rewrite <- Hres in Hok. rewrite Hok.
  split; [exact Hok |]. split; [exact Hev |]. split; [exact Hreq |]. split; [| exact Hfs].
  apply present_spec. exists (received (body resp)).
  split; [now apply download_attempt_content |]. rewrite Hbody. now apply received_nonempty.
Qed.

(** The pool on a remote that serves every request. *)
Lemma run_tasks_served (ns : list string) :
  (forall n u, serves_zip (get remote n u)) ->
  forall (acc : list string) (s : State),
    let o := run_tasks remote month (path_join raw_dir month)
               (List.map (fun n => (n, path n)) ns) acc s in
    result o = inr (acc ++ List.map path ns)%list
    /\ events o = List.map (fun n => Get (_build_file_url month n)) ns
    /\ requests (state o) = (requests s + length ns)%nat
    /\ (forall p, present (files s) p = true \/ In p (List.map path ns) ->
          present (files (state o)) p = true).
Proof.
  intros Hserved. induction ns as [|n ns IH]; intros acc s; cbv zeta.
  - cbn. rewrite app_nil_r. repeat split; [lia |]. now intros p [H|[]].
  - cbn [List.map]. rewrite run_tasks_step. cbv zeta.
    destruct (download_file_served (_build_file_url month n) (path n) s (Hserved _ _))
      as (Hr & Hev & Hreq & Hp & Hfs).
    cbv zeta in Hr, Hev, Hreq, Hp, Hfs. rewrite Hr.
    destruct (IH (acc ++ [path_join (path_join raw_dir month) n])%list
                (state (_download_file remote (_build_file_url month n) (path n) 3 s)))
      as (Hr' & Hev' & Hreq' & Hp').
    cbv zeta in Hr', Hev', Hreq', Hp'. cbn [result events state].
    split; [| split; [| split]].
    + rewrite Hr'. now rewrite <- app_assoc.
    + now rewrite Hev, Hev'.
    + rewrite Hreq', Hreq. cbn [length]. lia.
    + intros p [Hbefore|[<-|Hin]]; apply Hp'.
      * left. destruct (String.eq_dec p (path n)) as [->|Hne]; [exact Hp |].
        unfold present in *. now rewrite Hfs.
      * now left.
      * now right.
Qed.

End OrchestratorMore.

(** X5.  A listing failure is not retried by the orchestrator.  When the
    first listing of a month fails, [download_month] raises the listing
    error after the five PROPFIND attempts of that listing, without any
    transfer and with the local files untouched.  When the listing of the
    re-check fails, [download_month] raises that error too: the round's
    result is lost while the files it fetched stay. *)
Theorem listing_failure_aborts_the_month (remote : Remote) (raw_dir month : string)
    (s : State) :
  (failed (result (_list_month_zips remote month 5 s)) = true ->
   let o := download_month remote raw_dir month s in
   result o = inl (mkRuntimeError ("Failed to list ZIPs for " ++ month))
   /\ gets (events o) = []
   /\ propfinds (events o) = repeat (month_url month) 5
   /\ files (state o) = files s)
  /\ (forall res,
        result (_download_once remote raw_dir month s) = inr res ->
        failed (result (_list_month_zips remote month 5
                          (state (_download_once remote raw_dir month s)))) = true ->
        let o := download_month remote raw_dir month s in
        result o = inl (mkRuntimeError ("Failed to list ZIPs for " ++ month))
        /\ files (state o) = files (state (_download_once remote raw_dir month s))).
Proof.
  split.
  - intros Hfail. cbv zeta.
    destruct (result (_list_month_zips remote month 5 s)) as [e|names] eqn:El;
      [| discriminate].
    destruct (list_month_zips_failure remote month s e El) as [-> Hp].
    destruct (list_month_zips_quiet remote month s) as [Hq Hfs].
    assert (Hd : _download_once remote raw_dir month s
                 = {| events := Print ("[DOWNLOADER] Processing month " ++ month)
                                :: events (_list_month_zips remote month 5 s);
                      state := state (_list_month_zips remote month 5 s);
                      result := inl (mkRuntimeError ("Failed to list ZIPs for " ++ month)) |}).
    { rewrite download_once_run. cbv zeta. now rewrite El. }
    rewrite download_month_run. cbv zeta. rewrite month_loop_step. cbv zeta.
    rewrite month_round_run. cbv zeta. rewrite Hd. cbn [result events state].
    rewrite !gets_cons, !propfinds_cons. now rewrite Hq, Hp, Hfs.
  - intros res Hres Hfail. cbv zeta.
    set (s1 := state (_download_once remote raw_dir month s)) in *.
    destruct (result (_list_month_zips remote month 5 s1)) as [e|names] eqn:El;
      [| discriminate].
    destruct (list_month_zips_failure remote month s1 e El) as [-> _].
    destruct (list_month_zips_quiet remote month s1) as [_ Hfs].
    rewrite download_month_run. cbv zeta. rewrite month_loop_step. cbv zeta.
    rewrite month_round_run. cbv zeta. rewrite Hres. fold s1.
    rewrite find_missing_zips_run. cbv zeta. cbn [result events state].
    rewrite El. cbn [result state]. now rewrite Hfs.
Qed.

Lemma listing_failure_aborts_the_month_witness :
  result (download_month ScenarioMore.remote_recheck_fails "data/raw" "2024-01"
            Scenario.nothing_local)
  = inl (mkRuntimeError "Failed to list ZIPs for 2024-01")
  /\ files (state (download_month ScenarioMore.remote_recheck_fails "data/raw" "2024-01"
                     Scenario.nothing_local))
       !! "data/raw/2024-01/Empresas0.zip" = Some "PK".
Proof.
  destruct (listing_failure_aborts_the_month ScenarioMore.remote_recheck_fails "data/raw"
              "2024-01" Scenario.nothing_local) as [_ H].
  destruct (H {| downloaded := ["data/raw/2024-01/Cnaes.zip";
                                "data/raw/2024-01/Empresas0.zip";
                                "data/raw/2024-01/Estabelecimentos0.zip"];
                 skipped := [] |}) as [H1 H2].
  - vm_compute. reflexivity.
  - vm_compute. reflexivity.
  - split; [exact H1 |]. rewrite H2. vm_compute. reflexivity.
Defined.

(** X6.  [download_month] never writes, empties or deletes a file other
    than the relevant zips of the month directory: every path that is not
    [raw_dir / month / name] for a name the relevance filter selects holds
    afterwards what it held before, whatever the remote does and however
    the call ends. *)
Theorem download_month_stays_in_its_directory (remote : Remote) (raw_dir month : string)
    (s : State) (q : string) :
  (forall name, selected name = true -> q <> path_join (path_join raw_dir month) name) ->
  files (state (download_month remote raw_dir month s)) !! q = files s !! q.
Proof.
  intros Hq. rewrite download_month_run. cbv zeta. cbn [state].
  now apply month_loop_confined.
Qed.

Lemma download_month_stays_in_its_directory_witness :
  files (state (download_month Scenario.remote_breaking "data/raw" "2024-01"
                  ScenarioMore.two_months_local))
    !! "data/raw/2023-12/Cnaes.zip" = Some "PK-old".
Proof.
  rewrite (download_month_stays_in_its_directory Scenario.remote_breaking "data/raw"
             "2024-01" ScenarioMore.two_months_local "data/raw/2023-12/Cnaes.zip").
  - reflexivity.
  - intros name _. unfold path_join. cbn. discriminate.
Defined.

(** One call on a remote whose listing is steady and that serves every
    transfer at the first attempt. *)
Lemma steady_remote_run (remote : Remote) (raw_dir month : string)
    (s : State) (names : list string) :
  let path := path_join (path_join raw_dir month) in
  let todo := List.filter (fun n => negb (present (files s) (path n))) names in
  (forall n, listing_of (propfind remote n (month_url month)) = inr names) ->
  (forall n u, serves_zip (get remote n u)) ->
  let o := download_month remote raw_dir month s in
  result o
  = inr {| downloaded := List.map path todo;
           skipped := List.map path
                        (List.filter (fun n => present (files s) (path n)) names) |}
  /\ actions (events o)
     = (Propfind (month_url month)
        :: List.map (fun n => Get (_build_file_url month n)) todo
        ++ [Propfind (month_url month)])%list
  /\ (forall n, In n names -> present (files (state o)) (path n) = true)
  /\ (forall q, (forall n, In n todo -> q <> path n) ->
        files (state o) !! q = files s !! q).
Proof.
  intros path todo Hlist Hserved. cbv zeta.
  assert (Hl : forall s', _list_month_zips remote month 5 s'
                          = {| events := [Propfind (month_url month)]; state := tick s';
                               result := inr names |}).
  { intros s'. apply list_month_zips_first_answer, Hlist. }
  (* the fetch *)
  destruct (run_tasks_served remote raw_dir month todo Hserved [] (tick s))
    as (Hr & Hev & _ & Hp).
  cbv zeta in Hr, Hev, Hp. fold path in Hr, Hev, Hp. cbn [app] in Hr.
  destruct (run_tasks_facts remote raw_dir month todo [] (tick s)) as (_ & _ & Hfiles).
  cbv zeta in Hfiles. fold path in Hfiles.
  set (t := run_tasks remote month (path_join raw_dir month)
              (List.map (fun n => (n, path n)) todo) [] (tick s)) in *.
  assert (Hd : exists evs s1,
            _download_once remote raw_dir month s
            = {| events := evs; state := s1;
                 result := inr {| downloaded := List.map path todo;
                                  skipped := List.map path
                                    (List.filter (fun n => present (files s) (path n))
                                       names) |} |}
            /\ actions evs
               = Propfind (month_url month)
                 :: List.map (fun n => Get (_build_file_url month n)) todo
            /\ (forall n, In n names -> present (files s1) (path n) = true)
            /\ (forall q, (forall n, In n todo -> q <> path n) ->
                  files s1 !! q = files s !! q)).
  { rewrite download_once_run. cbv zeta. rewrite Hl. cbn [result events state files tick].
    fold path. fold todo.
    assert (Hall : forall s1,
              (forall p, present (files s) p = true \/ In p (List.map path todo) ->
                         present (files s1) p = true) ->
              forall n, In n names -> present (files s1) (path n) = true).
    { intros s1 H n Hn. apply H.
      destruct (present (files s) (path n)) eqn:E; [now left | right].
      apply List.in_map. apply List.filter_In. split; [exact Hn | now rewrite E]. }
    destruct todo as [|n0 todo'] eqn:Etodo.
    - eexists _, _. split; [reflexivity |]. split; [| split].
      + rewrite actions_cons, actions_app. reflexivity.
      + apply Hall. intros p [H|[]]. exact H.
      + reflexivity.
    - fold t. rewrite Hr. eexists _, _. split; [reflexivity |]. split; [| split].
      + rewrite actions_cons, actions_app, Hev. cbn [actions List.filter app].
        f_equal. clear. induction (n0 :: todo') as [|x l IH]; [reflexivity |].
        cbn [List.map]. rewrite actions_cons. now rewrite IH.
      + apply Hall. exact Hp.
      + exact Hfiles. }
  destruct Hd as (evs & s1 & Hd & Hact & Hpresent & Hother).
  assert (Hf : _find_missing_zips remote raw_dir month s1
               = {| events := [Propfind (month_url month)]; state := tick s1;
                    result := inr [] |}).
  { rewrite find_missing_zips_run. cbv zeta. rewrite Hl. cbn [result events state files tick].
    f_equal. f_equal. unfold missing_names. fold path.
    destruct (filter_all (fun n => present (files s1) (path n)) names Hpresent) as [_ H].
    exact H. }
  rewrite download_month_run. cbv zeta. rewrite month_loop_step. cbv zeta.
  rewrite month_round_run. cbv zeta. rewrite Hd. cbn [result events state].
  rewrite Hf. cbn [result events state downloaded skipped app].
  split; [reflexivity |]. split; [| split].
  - rewrite !actions_cons, !actions_app, Hact. cbn [actions List.filter app].
    now rewrite <- app_assoc.
  - exact Hpresent.
  - exact Hother.
Qed.

(** X7.  With a remote whose listing is steady and that serves every
    transfer at the first attempt with a body that is not empty,
    [download_month] ends after one round.  Between the listing of the diff
    and the listing of the re-check it sends one GET, in some order, for
    each expected file that was missing or empty, and nothing else: it
    never waits.  The downloaded list holds exactly the paths of these
    files, in some order, the skipped list the others in listing order, and
    afterwards every expected file is present with a nonzero size.  Nothing
    here depends on the order in which the pool completes its tasks. *)
Theorem steady_remote_converges_in_one_round (remote : Remote) (raw_dir month : string)
    (s : State) (names : list string) :
  let path := path_join (path_join raw_dir month) in
  let todo := List.filter (fun n => negb (present (files s) (path n))) names in
  (forall n, listing_of (propfind remote n (month_url month)) = inr names) ->
  (forall n u, serves_zip (get remote n u)) ->
  let o := download_month remote raw_dir month s in
  exists (res : DownloadResult) (urls : list string),
    result o = inr res
    /\ Permutation (downloaded res) (List.map path todo)
    /\ skipped res
       = List.map path (List.filter (fun n => present (files s) (path n)) names)
    /\ actions (events o)
       = (Propfind (month_url month) :: List.map Get urls
          ++ [Propfind (month_url month)])%list
    /\ Permutation urls (List.map (_build_file_url month) todo)
    /\ (forall n, In n names -> present (files (state o)) (path n) = true).
Proof.
  intros path todo Hlist Hserved o.
  destruct (steady_remote_run remote raw_dir month s names Hlist Hserved)
    as (Hres & Hact & Hpresent & _).
  fold path in Hres, Hact, Hpresent. fold todo in Hres, Hact. fold o in Hres, Hact, Hpresent.
  eexists _, (List.map (_build_file_url month) todo).
  split; [exact Hres |]. cbn [downloaded skipped].
  split; [reflexivity |]. split; [reflexivity |].
  split; [now rewrite Hact, List.map_map |]. split; [reflexivity | exact Hpresent].
Qed.

Lemma steady_remote_converges_in_one_round_witness :
  exists res : DownloadResult,
    result (download_month Scenario.remote_steady "data/raw" "2024-01" Scenario.cnaes_local)
    = inr res
    /\ Permutation (downloaded res)
         ["data/raw/2024-01/Empresas0.zip"; "data/raw/2024-01/Estabelecimentos0.zip"]
    /\ skipped res = ["data/raw/2024-01/Cnaes.zip"].
Proof.
  destruct (steady_remote_converges_in_one_round Scenario.remote_steady "data/raw" "2024-01"
              Scenario.cnaes_local Scenario.three_zips) as (res & urls & H1 & H2 & H3 & _).
  - intros n. reflexivity.
  - intros n u. eexists _, "PK", []. repeat split; discriminate.
  - exists res. split; [exact H1 |]. split.
    + vm_compute in H2. exact H2.
    + rewrite H3. vm_compute. reflexivity.
Defined.

(** X8.  [download_month] is idempotent on such a remote: a second call,
    made after the first has returned, issues no GET, changes no local
    file, downloads nothing and reports every expected file as skipped. *)
Theorem second_call_fetches_nothing (remote : Remote) (raw_dir month : string)
    (s : State) (names : list string) :
  let path := path_join (path_join raw_dir month) in
  (forall n, listing_of (propfind remote n (month_url month)) = inr names) ->
  (forall n u, serves_zip (get remote n u)) ->
  let first := download_month remote raw_dir month s in
  let second := download_month remote raw_dir month (state first) in
  result second = inr {| downloaded := []; skipped := List.map path names |}
  /\ gets (events second) = []
  /\ sleeps (events second) = []
  /\ files (state second) = files (state first).
Proof.
  intros path Hlist Hserved first second.
  destruct (steady_remote_run remote raw_dir month s names Hlist Hserved)
    as (_ & _ & Hpresent & _).
  destruct (steady_remote_run remote raw_dir month (state first) names Hlist Hserved)
    as (Hres & Hact & _ & Hother).
  fold first in Hpresent, Hres, Hact, Hother. fold second in Hres, Hact, Hother.
  fold path in Hpresent, Hres, Hact, Hother.
  destruct (filter_all (fun n => present (files (state first)) (path n)) names Hpresent)
    as [Hkeep Hnone].
  rewrite Hnone in Hres, Hact, Hother. rewrite Hkeep in Hres.
  split; [exact Hres |]. split; [| split].
  - rewrite <- gets_actions, Hact. reflexivity.
  - rewrite <- sleeps_actions, Hact. reflexivity.
  - apply map_eq. intros q. apply Hother. now intros n [].
Qed.

Lemma second_call_fetches_nothing_witness :
  result (download_month Scenario.remote_steady "data/raw" "2024-01"
            (state (download_month Scenario.remote_steady "data/raw" "2024-01"
                      Scenario.nothing_local)))
  = inr {| downloaded := [];
           skipped := ["data/raw/2024-01/Cnaes.zip";
                       "data/raw/2024-01/Empresas0.zip";
                       "data/raw/2024-01/Estabelecimentos0.zip"] |}.
Proof.
  destruct (second_call_fetches_nothing Scenario.remote_steady "data/raw" "2024-01"
              Scenario.nothing_local Scenario.three_zips) as (H & _).
  - intros n. reflexivity.
  - intros n u. eexists _, "PK", []. repeat split; discriminate.
  - exact H.
Defined.

(* ================================================================== *)
(** * Further properties of the month finder                            *)
(* ================================================================== *)

Section FinderMore.

Variable strptime : string -> option Z.

(** One month folder whose timestamp cannot be read makes the loop raise,
    wherever it stands in the listing. *)
Lemma collect_months_bad_timestamp (responses : list CNPJMonthFinder.DavResponse)
    (r : CNPJMonthFinder.DavResponse) (name : string) :
  In r responses ->
  response_name r = Some name ->
  CNPJMonthFinder._is_month_folder name = true ->
  response_time strptime r = None ->
  forall months, failed (CNPJMonthFinder.collect_months strptime responses months) = true.
Proof.
  intros Hin Hname Hfolder Htime.
  induction responses as [|r0 rest IH]; [destruct Hin |]. intros months.
  destruct Hin as [-> | Hin].
  - unfold response_name, response_time in *.
    destruct r as [[[text|]|] [prop|]];
      cbn [CNPJMonthFinder.href CNPJMonthFinder.getlastmodified] in *; try discriminate.
    injection Hname as <-.
    cbn [CNPJMonthFinder.collect_months CNPJMonthFinder.href
         CNPJMonthFinder.getlastmodified].
    rewrite Hfolder. cbn [negb]. unfold CNPJMonthFinder._parse_http_datetime.
    destruct prop as [value|]; [| reflexivity]. now rewrite Htime.
  - specialize (IH Hin). cbn [CNPJMonthFinder.collect_months].
    destruct (CNPJMonthFinder.href r0) as [[text|]|];
      destruct (CNPJMonthFinder.getlastmodified r0) as [prop|];
      try apply IH; try reflexivity.
    destruct (negb (CNPJMonthFinder._is_month_folder (Py.last_segment (Py.rstrip_slash text))));
      [apply IH |].
    destruct (CNPJMonthFinder._parse_http_datetime strptime prop); [reflexivity | apply IH].
Qed.

(** Whatever the dict holds at the end was there at the start or was put
    there for a response of the listing that passes [_is_month_folder]. *)
Lemma collect_months_sound (responses : list CNPJMonthFinder.DavResponse) :
  forall months final,
    CNPJMonthFinder.collect_months strptime responses months = inr final ->
    forall name t,
      final !! name = Some t ->
      months !! name = Some t
      \/ (CNPJMonthFinder._is_month_folder name = true
          /\ exists r, In r responses /\ response_name r = Some name
                       /\ response_time strptime r = Some t).
Proof.
  induction responses as [|r rest IH]; intros months final Hrun name t Hlook.
  - injection Hrun as <-. now left.
  - assert (Hrest : forall m, CNPJMonthFinder.collect_months strptime rest m = inr final ->
              m = months ->
              months !! name = Some t
              \/ (CNPJMonthFinder._is_month_folder name = true
                  /\ exists r', In r' (r :: rest) /\ response_name r' = Some name
                                /\ response_time strptime r' = Some t)).
    { intros m Hm ->. destruct (IH _ _ Hm name t Hlook) as [H|(Hf & r' & Hin & Hn & Ht)];
        [now left | right]. split; [exact Hf |]. exists r'. split; [now right | now split]. }
    cbn [CNPJMonthFinder.collect_months] in Hrun.
    destruct r as [[[text|]|] [prop|]];
      cbn [CNPJMonthFinder.href CNPJMonthFinder.getlastmodified] in Hrun;
      try discriminate; try (now apply (Hrest months)).
    set (name0 := Py.last_segment (Py.rstrip_slash text)) in *.
    destruct (CNPJMonthFinder._is_month_folder name0) eqn:E; cbn [negb] in Hrun;
      [| now apply (Hrest months)].
    destruct (CNPJMonthFinder._parse_http_datetime strptime prop) as [e|t0] eqn:Ep;
      [discriminate |].
    destruct (IH _ _ Hrun name t Hlook) as [H|(Hf & r' & Hin & Hn & Ht)].
    + destruct (String.eq_dec name0 name) as [<-|Hne].
      * rewrite lookup_insert_eq in H. injection H as ->. right. split; [exact E |].
        eexists. split; [now left |]. unfold response_name, response_time.
        cbn [CNPJMonthFinder.href CNPJMonthFinder.getlastmodified]. fold name0.
        split; [reflexivity |]. unfold CNPJMonthFinder._parse_http_datetime in Ep.
        destruct prop as [value|]; [| discriminate].
        destruct (strptime value); [congruence | discriminate].
      * rewrite lookup_insert_ne in H by exact Hne. now left.
    + right. split; [exact Hf |]. exists r'. split; [now right | now split].
Qed.

End FinderMore.

Lemma timedelta_days_mono (a b : Z) :
  a <= b -> CNPJMonthFinder.timedelta_days a <= CNPJMonthFinder.timedelta_days b.
Proof. unfold CNPJMonthFinder.timedelta_days. lia. Qed.

Lemma is_month_folder_length (name : string) :
  CNPJMonthFinder._is_month_folder name = true -> String.length name = 7%nat.
Proof.
  unfold CNPJMonthFinder._is_month_folder.
  destruct (Nat.eqb_spec (String.length name) 7); [easy | discriminate].
Qed.

(** X9.  One month folder with a missing or unparseable last-modified text
    makes the whole discovery fail: [get_updated_months] raises and returns
    no month at all, however many other folders of the listing are in
    order.  The local files are not touched. *)
Theorem one_bad_timestamp_fails_discovery
    (propfind : nat -> string -> CNPJMonthFinder.PropfindAnswer)
    (now : Z) (strptime : string -> option Z) (days_window : Z) (s : State)
    (responses : list CNPJMonthFinder.DavResponse)
    (r : CNPJMonthFinder.DavResponse) (name : string) :
  propfind (requests s) root_url = CNPJMonthFinder.PropfindResponses responses ->
  In r responses ->
  response_name r = Some name ->
  CNPJMonthFinder._is_month_folder name = true ->
  response_time strptime r = None ->
  let o := CNPJMonthFinder.get_updated_months propfind now strptime days_window s in
  failed (result o) = true /\ files (state o) = files s.
Proof.
  intros Hans Hin Hname Hfolder Htime. cbv zeta.
  pose proof (collect_months_bad_timestamp strptime responses r name Hin Hname Hfolder Htime ∅)
    as Hbad.
  rewrite get_updated_months_run. cbv zeta. rewrite list_month_folders_run.
  cbn [result]. rewrite Hans.
  destruct (CNPJMonthFinder.collect_months strptime responses ∅); [| discriminate].
  now split.
Qed.

Lemma one_bad_timestamp_fails_discovery_witness :
  failed (result (CNPJMonthFinder.get_updated_months
                    FinderScenarioMore.propfind_bad_timestamp FinderScenario.now
                    FinderScenario.strptime 15 Scenario.nothing_local)) = true.
Proof.
  apply (one_bad_timestamp_fails_discovery FinderScenarioMore.propfind_bad_timestamp
           FinderScenario.now FinderScenario.strptime 15 Scenario.nothing_local
           FinderScenarioMore.listing_bad_timestamp
           (FinderScenario.child "2026-08" "yesterday") "2026-08").
  - reflexivity.
  - right; left; reflexivity.
  - reflexivity.
  - reflexivity.
  - reflexivity.
Defined.

(** X10.  Whatever the remote answers, a list that [get_updated_months]
    returns is in ascending order, has no repeats, and holds only names of
    seven characters that pass [_is_month_folder] and that a response of the
    listing carries with a timestamp at or after the cutoff. *)
Theorem discovery_returns_month_folders
    (propfind : nat -> string -> CNPJMonthFinder.PropfindAnswer)
    (now : Z) (strptime : string -> option Z) (days_window : Z) (s : State)
    (updated : list string) :
  result (CNPJMonthFinder.get_updated_months propfind now strptime days_window s)
  = inr updated ->
  Sorted str_le updated
  /\ List.NoDup updated
  /\ exists responses,
       propfind (requests s) root_url = CNPJMonthFinder.PropfindResponses responses
       /\ forall name, In name updated ->
            String.length name = 7%nat
            /\ CNPJMonthFinder._is_month_folder name = true
            /\ exists r t, In r responses /\ response_name r = Some name
                           /\ response_time strptime r = Some t
                           /\ now - CNPJMonthFinder.timedelta_days days_window <= t.
Proof.
  rewrite get_updated_months_run. cbv zeta. rewrite list_month_folders_run. cbn [result].
  destruct (propfind (requests s) root_url) as [e|responses]; [discriminate |].
  destruct (CNPJMonthFinder.collect_months strptime responses ∅) as [e|months] eqn:Ec;
    [discriminate |].
  cbn [result]. intros [= <-].
  destruct (updated_of_spec (CNPJMonthFinder._cutoff_datetime now days_window) months)
    as (Hsorted & Hnodup & Hin).
  split; [exact Hsorted |]. split; [exact Hnodup |].
  exists responses. split; [reflexivity |]. intros name Hname.
  apply Hin in Hname as (t & Hlook & Hle).
  destruct (collect_months_sound strptime responses ∅ months Ec name t Hlook)
    as [Hempty|(Hfolder & r & Hr & Hn & Ht)];
    [rewrite lookup_empty in Hempty; discriminate |].
  split; [now apply is_month_folder_length |]. split; [exact Hfolder |].
  exists r, t. now repeat split.
Qed.

Lemma discovery_returns_month_folders_witness :
  Sorted str_le ["2026-10"; "2026-11"] /\ List.NoDup ["2026-10"; "2026-11"].
Proof.
  destruct (discovery_returns_month_folders FinderScenario.propfind_steady
              FinderScenario.now FinderScenario.strptime 15 Scenario.nothing_local
              ["2026-10"; "2026-11"]) as (Hsorted & Hnodup & _).
  - vm_compute. reflexivity.
  - now split.
Defined.

(** X11.  Widening the window never loses a month, as long as Python can
    compute both cutoffs (each window within [timedelta]'s range and each
    cutoff within [datetime]'s): when [get_updated_months] returns with a
    window of [days_window] days, it returns with a longer window too, and
    every month of the first result is in the second. *)
Theorem wider_window_keeps_months
    (propfind : nat -> string -> CNPJMonthFinder.PropfindAnswer)
    (now : Z) (strptime : string -> option Z) (days_window days_window' : Z) (s : State)
    (updated : list string) :
  days_window <= days_window' ->
  window_in_range now days_window ->
  window_in_range now days_window' ->
  result (CNPJMonthFinder.get_updated_months propfind now strptime days_window s)
  = inr updated ->
  exists updated',
    result (CNPJMonthFinder.get_updated_months propfind now strptime days_window' s)
    = inr updated'
    /\ incl updated updated'.
Proof.
  intros Hle _ _. rewrite !get_updated_months_run. cbv zeta.
  rewrite !list_month_folders_run. cbn [result].
  destruct (propfind (requests s) root_url) as [e|responses]; [discriminate |].
  destruct (CNPJMonthFinder.collect_months strptime responses ∅) as [e|months];
    [discriminate |].
  cbn [result]. intros [= <-]. eexists. split; [reflexivity |].
  intros name Hname.
  destruct (updated_of_spec (CNPJMonthFinder._cutoff_datetime now days_window) months)
    as (_ & _ & Hin).
  destruct (updated_of_spec (CNPJMonthFinder._cutoff_datetime now days_window') months)
    as (_ & _ & Hin').
  apply Hin in Hname as (t & Hlook & Ht). apply Hin'. exists t. split; [exact Hlook |].
  unfold CNPJMonthFinder._cutoff_datetime in *.
  pose proof (timedelta_days_mono _ _ Hle). lia.
Qed.

Lemma wider_window_keeps_months_witness :
  exists updated',
    result (CNPJMonthFinder.get_updated_months FinderScenario.propfind_steady
              FinderScenario.now FinderScenario.strptime 400 Scenario.nothing_local)
    = inr updated'
    /\ incl ["2026-10"; "2026-11"] updated'.
Proof.
  apply (wider_window_keeps_months FinderScenario.propfind_steady FinderScenario.now
           FinderScenario.strptime 15 400 Scenario.nothing_local).
  - lia.
  - unfold window_in_range, datetime_min, datetime_max, CNPJMonthFinder.timedelta_days,
      FinderScenario.now. lia.
  - unfold window_in_range, datetime_min, datetime_max, CNPJMonthFinder.timedelta_days,
      FinderScenario.now. lia.
  - vm_compute. reflexivity.
Defined.

Lemma decimal_digit_digit_char (d : Z) :
  0 <= d <= 9 -> decimal_digit (digit_char d) = true.
Proof.
  intros H.
  assert (E : d = 0 \/ d = 1 \/ d = 2 \/ d = 3 \/ d = 4 \/ d = 5 \/ d = 6 \/ d = 7
              \/ d = 8 \/ d = 9) by lia.
  repeat (destruct E as [-> | E]; [reflexivity |]). now subst.
Qed.

Lemma month_shape_YYYY_MM (y m : Z) :
  1000 <= y <= 9999 -> 0 <= m <= 99 -> month_shape (YYYY_MM y m) = true.
Proof.
  intros Hy Hm. unfold month_shape, YYYY_MM.
  rewrite !decimal_digit_digit_char by (Z.div_mod_to_equations; lia). reflexivity.
Qed.

(** X12.  The month [get_default_cnpj_month] computes is a name the month
    finder takes for a month folder: seven characters that pass
    [_is_month_folder], for every date from February 1000 to the end of
    9999. *)
Theorem default_month_is_a_month_folder (today : date) :
  1 <= month today <= 12 ->
  1000 < year today <= 9999 ->
  CNPJMonthFinder._is_month_folder (get_default_cnpj_month today) = true.
Proof.
  intros Hm Hy. apply month_shape_is_month_folder.
  destruct today as [y m d]; cbn [year month] in *.
  unfold get_default_cnpj_month; cbn [year month].
  destruct (Z.eqb_spec (m - 1) 0) as [E|E].
  - rewrite str_int_four_digits, format_02d_two_digits by lia.
    rewrite <- YYYY_MM_parts. apply month_shape_YYYY_MM; lia.
  - rewrite str_int_four_digits, format_02d_two_digits by lia.
    rewrite <- YYYY_MM_parts. apply month_shape_YYYY_MM; lia.
Qed.

Lemma default_month_is_a_month_folder_witness :
  CNPJMonthFinder._is_month_folder
    (get_default_cnpj_month {| year := 2026; month := 1; day := 15 |}) = true.
Proof.
  apply default_month_is_a_month_folder; cbn [year month]; lia.
Defined.

(* ================================================================== *)
(** * The requests of a month                                           *)
(* ================================================================== *)

Section Footprint.

Variable remote : Remote.
Variable raw_dir : string.
Variable month : string.

Let url := month_url month.

(** The urls of the relevant zips of the month. *)
Let file_url (u : string) : Prop :=
  exists name, selected name = true /\ u = _build_file_url month name.

Lemma download_file_quiet (u p : string) (s : State) :
  propfinds (events (_download_file remote u p 3 s)) = [].
Proof.
  unfold _download_file. change (Z.to_nat 3) with 3%nat.
  destruct (download_loop_is_schedule remote u p 3 2 1 s eq_refl) as (k & _ & Hact).
  rewrite <- propfinds_actions, Hact.
  now destruct (backoff_schedule_requests u k 1) as (_ & _ & _ & H).
Qed.

Lemma run_tasks_quiet (tasks : list (string * string)) :
  forall (acc : list string) (s : State),
    propfinds (events (run_tasks remote month (path_join raw_dir month) tasks acc s)) = [].
Proof.
  induction tasks as [|[n p] rest IH]; intros acc s; [reflexivity |].
  rewrite run_tasks_step. cbv zeta.
  destruct (result (_download_file remote (_build_file_url month n) p 3 s));
    cbn [events]; rewrite propfinds_app, ?propfinds_cons, download_file_quiet, IH;
    reflexivity.
Qed.

Lemma download_once_requests (s : State) :
  let d := _download_once remote raw_dir month s in
  (exists k, (k <= 5)%nat /\ propfinds (events d) = repeat url k)
  /\ (forall u, In u (gets (events d)) -> file_url u).
Proof.
  cbv zeta. rewrite download_once_run. cbv zeta.
  destruct (list_month_zips_footprint remote month s) as [(k & Hk & Hp) Hsel].
  cbv zeta in Hp, Hsel.
  destruct (list_month_zips_quiet remote month s) as [Hg _].
  destruct (result (_list_month_zips remote month 5 s)) as [e|names]; cbn [events].
  - rewrite propfinds_cons, gets_cons, Hg. split; [now exists k | now intros u []].
  - specialize (Hsel names eq_refl).
    set (todo := List.filter _ names).
    assert (Htodo : forall n, In n todo -> selected n = true).
    { intros n Hn. apply Hsel. now apply List.filter_In in Hn as [Hn _]. }
    destruct (run_tasks_facts remote raw_dir month todo []
                (state (_list_month_zips remote month 5 s))) as (_ & Hgets & _).
    cbv zeta in Hgets.
    pose proof (run_tasks_quiet
                  (List.map (fun n => (n, path_join (path_join raw_dir month) n)) todo) []
                  (state (_list_month_zips remote month 5 s))) as Hquiet.
    clearbody todo. destruct todo as [|t todo']; cbn [events].
    + rewrite propfinds_cons, gets_cons, propfinds_app, gets_app, Hg, Hp, app_nil_r.
      split; [now exists k | now intros u []].
    + rewrite propfinds_cons, gets_cons, propfinds_app, gets_app, Hg, Hp, Hquiet, app_nil_r.
      split; [now exists k |]. cbn [app]. intros u Hu.
      apply Hgets in Hu as (n & Hn & ->). exists n. split; [now apply Htodo | reflexivity].
Qed.

Lemma find_missing_zips_requests (s : State) :
  let f := _find_missing_zips remote raw_dir month s in
  (exists k, (k <= 5)%nat /\ propfinds (events f) = repeat url k)
  /\ gets (events f) = [].
Proof.
  cbv zeta. rewrite find_missing_zips_run. cbv zeta. cbn [events].
  destruct (list_month_zips_footprint remote month s) as [(k & Hk & Hp) _].
  destruct (list_month_zips_quiet remote month s) as [Hg _].
  split; [now exists k | exact Hg].
Qed.

Lemma month_round_requests (s : State) :
  let r := month_round remote raw_dir month s in
  (exists k, (k <= 10)%nat /\ propfinds (events r) = repeat url k)
  /\ (forall u, In u (gets (events r)) -> file_url u).
Proof.
  cbv zeta. rewrite month_round_run. cbv zeta.
  destruct (download_once_requests s) as [(k & Hk & Hp) Hg]. cbv zeta in Hp, Hg.
  destruct (result (_download_once remote raw_dir month s)) as [e|res]; cbn [events].
  - split; [exists k; split; [lia | exact Hp] | exact Hg].
  - destruct (find_missing_zips_requests (state (_download_once remote raw_dir month s)))
      as [(k' & Hk' & Hp') Hg'].
    cbv zeta in Hp', Hg'. rewrite propfinds_app, gets_app, Hp, Hp', Hg', app_nil_r.
    split; [| exact Hg]. exists (k + k')%nat. split; [lia |]. now rewrite repeat_app.
Qed.

Lemma month_loop_requests (n : nat) :
  forall (s : State) (round_num : Z) (downloaded_all skipped_all : list string),
    let o := month_loop remote raw_dir month 5 n round_num downloaded_all skipped_all s in
    (exists k, (k <= 10 * n)%nat /\ propfinds (events o) = repeat url k)
    /\ (forall u, In u (gets (events o)) -> file_url u).
Proof.
  induction n as [|n IH]; intros s round_num downloaded_all skipped_all; cbv zeta.
  - split; [exists 0%nat; split; [lia | reflexivity] | now intros u []].
  - rewrite month_loop_step. cbv zeta.
    destruct (month_round_requests s) as [(k & Hk & Hp) Hg]. cbv zeta in Hp, Hg.
    destruct (result (month_round remote raw_dir month s)) as [e|[res [|m missing]]];
      cbn [events].
    + rewrite propfinds_cons, gets_cons. split; [exists k; split; [lia | exact Hp] | exact Hg].
    + rewrite propfinds_cons, gets_cons, propfinds_app, gets_app, Hp.
      cbn [propfinds gets omap]. rewrite !app_nil_r.
      split; [exists k; split; [lia | reflexivity] | exact Hg].
    + destruct (IH (state (month_round remote raw_dir month s)) (round_num + 1)
                  (downloaded_all ++ downloaded res)%list (skipped res))
        as [(k' & Hk' & Hp') Hg'].
      cbv zeta in Hp', Hg'.
      rewrite propfinds_cons, gets_cons, propfinds_app, gets_app, !propfinds_cons,
        !gets_cons, Hp, Hp'.
      split.
      * exists (k + k')%nat. split; [lia |]. now rewrite repeat_app.
      * intros u Hu. apply List.in_app_iff in Hu as [Hu|Hu]; [now apply Hg | now apply Hg'].
Qed.

End Footprint.

(** X13.  Whatever the remote answers, [download_month] lists nothing but
    the month's own directory, at most 50 times (five rounds of two listings
    of five attempts), and sends a GET only for names of that directory that
    the relevance filter selects. *)
Theorem download_month_requests (remote : Remote) (raw_dir month : string) (s : State) :
  let o := download_month remote raw_dir month s in
  (exists k, (k <= 50)%nat /\ propfinds (events o) = repeat (month_url month) k)
  /\ (forall u, In u (gets (events o)) ->
        exists name, selected name = true /\ u = _build_file_url month name).
Proof.
  cbv zeta. rewrite download_month_run. cbv zeta. cbn [events].
  rewrite propfinds_cons, gets_cons.
  destruct (month_loop_requests remote raw_dir month 5 s 1 [] []) as [(k & Hk & Hp) Hg].
  split; [exists k; split; [lia | exact Hp] | exact Hg].
Qed.

(* ================================================================== *)
(** * config.py and main.py: the settings and the command line          *)
(* ================================================================== *)

Section StripFacts.

Lemma rstrip_keeps_nonspace (c : ascii) (rest : string) :
  PyStr.isspace_char c = false -> PyStr.rstrip (String c rest) <> "".
Proof.
  intros Hc. cbn [PyStr.rstrip]. destruct (PyStr.rstrip rest); [now rewrite Hc | discriminate].
Qed.

Lemma lstrip_cases (value : string) :
  (PyStr.lstrip value = "" /\ blank value = true)
  \/ (exists c rest, PyStr.lstrip value = String c rest
                     /\ PyStr.isspace_char c = false /\ blank value = false).
Proof.
  unfold blank. induction value as [|c rest IH]; [now left |].
  cbn [PyStr.lstrip Py.all_chars].
  destruct (PyStr.isspace_char c) eqn:Ec; cbn [andb]; [exact IH |].
  right. now exists c, rest.
Qed.

(** [strip] leaves nothing exactly of a blank text. *)
Lemma strip_empty_iff (value : string) : PyStr.strip value = "" <-> blank value = true.
Proof.
  unfold PyStr.strip.
  destruct (lstrip_cases value) as [[-> Hb]|(c & rest & -> & Hc & Hb)].
  - now split.
  - split; [intros H; now apply rstrip_keeps_nonspace in H | rewrite Hb; discriminate].
Qed.

End StripFacts.

Lemma bind_ret_l {A B} (x : A) (f : A -> M B) (s : State) : bind (ret x) f s = f x s.
Proof. unfold bind, ret. cbn [result events state app]. now destruct (f x s). Qed.

Lemma bind_print {B} (line : string) (k : unit -> M B) (s : State) :
  bind (print line) k s
  = {| events := Print line :: events (k tt s); state := state (k tt s);
       result := result (k tt s) |}.
Proof. reflexivity. Qed.

Lemma bind_inl {A B} (m : M A) (f : A -> M B) (s : State) (e : Exn) :
  result (m s) = inl e ->
  bind m f s = {| events := events (m s); state := state (m s); result := inl e |}.
Proof. intros H. unfold bind. cbv zeta. now rewrite H. Qed.

Lemma bind_inr {A B} (m : M A) (f : A -> M B) (s : State) (x : A) :
  result (m s) = inr x ->
  bind m f s
  = {| events := events (m s) ++ events (f x (state (m s)));
       state := state (f x (state (m s)));
       result := result (f x (state (m s))) |}.
Proof. intros H. unfold bind. cbv zeta. now rewrite H. Qed.

Lemma actions_nil_prints (l : list Event) :
  (forall ev, In ev l -> exists line, ev = Print line) -> actions l = [].
Proof.
  induction l as [|ev l IH]; intros H; [reflexivity |].
  rewrite actions_cons. destruct (H ev (or_introl eq_refl)) as [line ->].
  apply IH. intros ev' Hin. apply H. now right.
Qed.

(** The block of [main] that announces the months and runs the loop. *)
Lemma months_block_run (line : string) (loop : M Main.Ending) (s : State) :
  bind (print line)
    (fun _ =>
       bind loop
         (fun ending =>
            match ending with
            | Main.SystemExit code => ret (Main.SystemExit code)
            | Main.Returned => bind (print "[MAIN] Done") (fun _ => ret Main.Returned)
            end)) s
  = let l := loop s in
    {| events := Print line
                 :: events l
                 ++ match result l with
                    | inr Main.Returned => [Print "[MAIN] Done"]
                    | _ => []
                    end;
       state := state l;
       result := result l |}.
Proof.
  unfold bind, print, emit, ret. cbv zeta. cbn [events state result app].
  destruct (loop s) as [evs s' [e|[|code]]]; cbn [events state result app];
    rewrite ?app_nil_r; reflexivity.
Qed.

(** A month whose first step raises, inside the loop. *)
Lemma processing_fails {A} (line : string) (d : M A) (k : A -> M Main.Ending)
    (rest : Main.Ending -> M Main.Ending) (s : State) (e : Exn) :
  result (d s) = inl e ->
  bind (bind (print line) (fun _ => bind d k)) rest s
  = {| events := Print line :: events (d s); state := state (d s); result := inl e |}.
Proof.
  intros Hd. unfold bind, print, emit. cbv zeta. cbn [events state result app].
  rewrite Hd. reflexivity.
Qed.

Section MainFacts.

Variable env : gmap string string.
Variable resolve : string -> string.
Variable today : date.
Variable remote : CNPJDownloader.Remote.
Variable propfind : nat -> string -> CNPJMonthFinder.PropfindAnswer.
Variable now : CNPJMonthFinder.datetime.
Variable strptime : string -> option CNPJMonthFinder.datetime.
Variable extract_month : string -> string -> string -> M Main.ExtractResult.
Variable setup : string -> string -> M unit.
Variable load_raw load_dim build_leads : string -> string -> string -> M unit.

Let main := Main.main env resolve today remote propfind now strptime extract_month setup
              load_raw load_dim build_leads.
Let finder := CNPJMonthFinder.get_updated_months propfind now strptime 15.

Lemma get_settings_token :
  token_missing env
  <-> Config.get_settings env resolve today = inl token_error.
Proof.
  unfold token_missing, Config.get_settings, Config.getenv. cbv zeta.
  destruct (env !! "NEXTCLOUD_PUBLIC_TOKEN") as [value|].
  - rewrite <- strip_empty_iff.
    destruct (String.eqb_spec (PyStr.strip value) "") as [E|E]; split; try easy.
  - change (PyStr.strip "") with "". cbn [String.eqb]. now split.
Qed.

Lemma get_settings_ends :
  Config.get_settings env resolve today = inl token_error
  \/ exists st, Config.get_settings env resolve today = inr st.
Proof.
  unfold Config.get_settings. cbv zeta.
  destruct (String.eqb _ ""); [now left | right; eexists; reflexivity].
Qed.

Lemma finder_facts (s : State) :
  actions (events (finder s)) = [Propfind root_url] /\ state (finder s) = tick s.
Proof.
  unfold finder. rewrite get_updated_months_run. cbv zeta. rewrite list_month_folders_run.
  cbn [result].
  destruct (propfind (requests s) root_url) as [e|responses]; [now split |].
  destruct (CNPJMonthFinder.collect_months strptime responses ∅); now split.
Qed.

(** [main] from the finder on, for a command that is neither info, setup
    nor full. *)
Lemma main_pipeline (st : Config.Settings) (prog cmd : string) (args : list string)
    (s : State) :
  Config.get_settings env resolve today = inr st ->
  String.eqb cmd "info" = false ->
  String.eqb cmd "setup" = false ->
  String.eqb cmd "full" = false ->
  main (prog :: cmd :: args) s
  = bind finder
      (fun months =>
         match months with
         | [] => bind (print "[MAIN] No updated months found") (fun _ => ret Main.Returned)
         | _ =>
             bind (print ("[MAIN] Months to process: " ++ PyStr.repr_list months))
               (fun _ =>
                  bind (Main.month_loop remote extract_month load_raw load_dim build_leads
                          cmd (PyStr.truediv (Config.data_dir st) "raw")
                          (PyStr.truediv (Config.data_dir st) "extracted")
                          (Config.duckdb_path st) months)
                    (fun ending =>
                       match ending with
                       | Main.SystemExit code => ret (Main.SystemExit code)
                       | Main.Returned =>
                           bind (print "[MAIN] Done") (fun _ => ret Main.Returned)
                       end))
         end) s.
Proof.
  intros Hst Hinfo Hsetup Hfull. unfold main, Main.main. rewrite Hst. cbn [Main.lift].
  rewrite bind_ret_l. cbv zeta. rewrite Hinfo, Hsetup, Hfull. now rewrite bind_ret_l.
Qed.

Lemma month_loop_unknown (cmd raw_dir extracted_dir duckdb_path month : string)
    (rest : list string) (s : State) :
  ~ In cmd commands ->
  Main.month_loop remote extract_month load_raw load_dim build_leads cmd raw_dir
    extracted_dir duckdb_path (month :: rest) s
  = {| events := [Print ("[MAIN] Processing month " ++ month)]; state := s;
       result := inr (Main.SystemExit ("Unknown command: " ++ cmd)) |}.
Proof.
  intros Hcmd. unfold commands in Hcmd. cbn [In] in Hcmd.
  cbn [Main.month_loop]. unfold Main.process_month.
  destruct (String.eqb_spec cmd "download") as [->|_];
    [exfalso; apply Hcmd; do 2 right; now left |].
  destruct (String.eqb_spec cmd "extract") as [->|_];
    [exfalso; apply Hcmd; do 3 right; now left |].
  destruct (String.eqb_spec cmd "load") as [->|_];
    [exfalso; apply Hcmd; do 4 right; now left |].
  destruct (String.eqb_spec cmd "full") as [->|_];
    [exfalso; apply Hcmd; do 5 right; now left |].
  reflexivity.
Qed.

Lemma month_loop_download_fails (raw_dir extracted_dir duckdb_path first : string)
    (later : list string) (s : State) (e : Exn) :
  result (CNPJDownloader.download_month remote raw_dir first s) = inl e ->
  Main.month_loop remote extract_month load_raw load_dim build_leads "download" raw_dir
    extracted_dir duckdb_path (first :: later) s
  = {| events := Print ("[MAIN] Processing month " ++ first)
                 :: events (CNPJDownloader.download_month remote raw_dir first s);
       state := state (CNPJDownloader.download_month remote raw_dir first s);
       result := inl e |}.
Proof.
  intros Hd. cbn [Main.month_loop].
  assert (Hp : Main.process_month remote extract_month load_raw load_dim build_leads
                 "download" raw_dir extracted_dir duckdb_path first
               = bind (print ("[MAIN] Processing month " ++ first))
                   (fun _ =>
                      bind (CNPJDownloader.download_month remote raw_dir first)
                        (fun result =>
                           bind (print ("Downloaded: "
                                        ++ Py.str_int (Z.of_nat (length (downloaded result)))))
                             (fun _ =>
                                bind (print ("Skipped: "
                                             ++ Py.str_int
                                                  (Z.of_nat (length (skipped result)))))
                                  (fun _ => ret Main.Returned)))))
    by reflexivity.
  rewrite Hp. clear Hp. now apply processing_fails.
Qed.

End MainFacts.

(** X14.  The token is required by every command: [get_settings] raises
    its error exactly when NEXTCLOUD_PUBLIC_TOKEN is unset or holds only
    whitespace, and [main] then ends with that error before it prints or
    requests anything, whatever the command, info included. *)
Theorem main_requires_the_token
    (env : gmap string string) (resolve : string -> string) (today : date)
    (remote : CNPJDownloader.Remote)
    (propfind : nat -> string -> CNPJMonthFinder.PropfindAnswer)
    (now : Z) (strptime : string -> option Z)
    (extract_month : string -> string -> string -> M Main.ExtractResult)
    (setup : string -> string -> M unit)
    (load_raw load_dim build_leads : string -> string -> string -> M unit) :
  (token_missing env <-> failed (Config.get_settings env resolve today) = true)
  /\ (token_missing env ->
      forall (argv : list string) (s : State),
        Main.main env resolve today remote propfind now strptime extract_month setup
          load_raw load_dim build_leads argv s
        = raise token_error s).
Proof.
  split.
  - rewrite (get_settings_token env resolve today).
    destruct (get_settings_ends env resolve today) as [-> | [st ->]]; split; easy.
  - intros Hmissing argv s. apply (get_settings_token env resolve today) in Hmissing.
    unfold Main.main. rewrite Hmissing. reflexivity.
Qed.

Lemma main_requires_the_token_witness :
  MainScenario.main MainScenario.env_blank Scenario.remote_steady ["main.py"; "info"]
    Scenario.nothing_local
  = raise token_error Scenario.nothing_local.
Proof.
  unfold MainScenario.main.
  apply (main_requires_the_token MainScenario.env_blank MainScenario.resolve
           MainScenario.today Scenario.remote_steady FinderScenario.propfind_steady
           FinderScenario.now FinderScenario.strptime MainScenario.extract_month
           MainScenario.setup MainScenario.load MainScenario.load MainScenario.load).
  vm_compute. reflexivity.
Defined.

(** X15.  A command [main] does not know is noticed late.  With the
    settings in order, [main] first asks the finder, with its one PROPFIND;
    when the finder fails, that failure is what [main] raises; when no
    month is updated, [main] returns as if the command were known; only
    when there is a month to process does it raise SystemExit with
    "Unknown command: <cmd>".  In every case no GET is sent and no local
    file is touched. *)
Theorem unknown_command_is_noticed_late
    (env : gmap string string) (resolve : string -> string) (today : date)
    (remote : CNPJDownloader.Remote)
    (propfind : nat -> string -> CNPJMonthFinder.PropfindAnswer)
    (now : Z) (strptime : string -> option Z)
    (extract_month : string -> string -> string -> M Main.ExtractResult)
    (setup : string -> string -> M unit)
    (load_raw load_dim build_leads : string -> string -> string -> M unit)
    (prog cmd : string) (args : list string) (s : State) :
  ~ token_missing env ->
  ~ In cmd commands ->
  let o := Main.main env resolve today remote propfind now strptime extract_month setup
             load_raw load_dim build_leads (prog :: cmd :: args) s in
  actions (events o) = [Propfind root_url]
  /\ state o = tick s
  /\ result o
     = match result (CNPJMonthFinder.get_updated_months propfind now strptime 15 s) with
       | inl e => inl e
       | inr [] => inr Main.Returned
       | inr (_ :: _) => inr (Main.SystemExit ("Unknown command: " ++ cmd))
       end.
Proof.
  intros Htoken Hcmd. cbv zeta.
  destruct (get_settings_ends env resolve today) as [Hst | [st Hst]];
    [now apply (get_settings_token env resolve today) in Hst |].
  pose proof Hcmd as Hcmd'. unfold commands in Hcmd'. cbn [In] in Hcmd'.
  rewrite (main_pipeline env resolve today remote propfind now strptime extract_month setup
             load_raw load_dim build_leads st prog cmd args s Hst)
    by (apply String.eqb_neq; intros ->; tauto).
  destruct (finder_facts propfind now strptime s) as [Hact Hstate].
  destruct (result (CNPJMonthFinder.get_updated_months propfind now strptime 15 s))
    as [e|[|m rest]] eqn:Ef.
  - rewrite (bind_inl _ _ _ _ Ef). cbn [events state result]. now repeat split.
  - rewrite (bind_inr _ _ _ _ Ef). cbn [events state result].
    rewrite actions_app, Hact, Hstate. now repeat split.
  - rewrite (bind_inr _ _ _ _ Ef), months_block_run. cbv zeta.
    rewrite (month_loop_unknown remote extract_month load_raw load_dim build_leads
               cmd _ _ _ m rest _ Hcmd).
    cbn [events state result app]. rewrite actions_app, Hact, Hstate. now repeat split.
Qed.

Lemma unknown_command_is_noticed_late_witness :
  result (MainScenario.main MainScenario.env Scenario.remote_steady ["main.py"; "bogus"]
            Scenario.nothing_local)
  = inr (Main.SystemExit "Unknown command: bogus").
Proof.
  unfold MainScenario.main.
  destruct (unknown_command_is_noticed_late MainScenario.env MainScenario.resolve
              MainScenario.today Scenario.remote_steady FinderScenario.propfind_steady
              FinderScenario.now FinderScenario.strptime MainScenario.extract_month
              MainScenario.setup MainScenario.load MainScenario.load MainScenario.load
              "main.py" "bogus" [] Scenario.nothing_local) as (_ & _ & H).
  - vm_compute. discriminate.
  - unfold commands. cbn [In]. intros [H|[H|[H|[H|[H|[H|[]]]]]]]; discriminate.
  - exact H.
Defined.

(** X16.  The month of the settings plays no part in the pipeline: for
    every command but info, [main] behaves the same whatever CNPJ_MONTH is
    set to, or whether it is set at all; the months it processes are those
    the finder returns. *)
Theorem cnpj_month_setting_is_ignored
    (env env' : gmap string string) (resolve : string -> string) (today : date)
    (remote : CNPJDownloader.Remote)
    (propfind : nat -> string -> CNPJMonthFinder.PropfindAnswer)
    (now : Z) (strptime : string -> option Z)
    (extract_month : string -> string -> string -> M Main.ExtractResult)
    (setup : string -> string -> M unit)
    (load_raw load_dim build_leads : string -> string -> string -> M unit)
    (prog cmd : string) (args : list string) (s : State) :
  (forall key, key <> "CNPJ_MONTH" -> env !! key = env' !! key) ->
  cmd <> "info" ->
  Main.main env resolve today remote propfind now strptime extract_month setup
    load_raw load_dim build_leads (prog :: cmd :: args) s
  = Main.main env' resolve today remote propfind now strptime extract_month setup
      load_raw load_dim build_leads (prog :: cmd :: args) s.
Proof.
  intros Henv Hcmd. apply String.eqb_neq in Hcmd.
  unfold Main.main, Config.get_settings, Config.getenv. cbv zeta.
  rewrite <- (Henv "DATA_DIR") by discriminate.
  rewrite <- (Henv "DUCKDB_PATH") by discriminate.
  rewrite <- (Henv "NEXTCLOUD_PUBLIC_TOKEN") by discriminate.
  destruct (String.eqb _ ""); [reflexivity |].
  cbn [Main.lift]. rewrite !bind_ret_l. cbn [Config.data_dir Config.duckdb_path].
  rewrite Hcmd. reflexivity.
Qed.

Lemma cnpj_month_setting_is_ignored_witness :
  MainScenario.main MainScenario.env Scenario.remote_steady ["main.py"; "download"]
    Scenario.nothing_local
  = MainScenario.main MainScenarioMore.env_other_month Scenario.remote_steady
      ["main.py"; "download"] Scenario.nothing_local.
Proof.
  unfold MainScenario.main.
  apply cnpj_month_setting_is_ignored.
  - intros key Hkey. unfold MainScenarioMore.env_other_month.
    symmetry. apply lookup_insert_ne. congruence.
  - discriminate.
Defined.

(** X17.  The download command stops at the first month that fails: when
    [download_month] raises for the first month the finder returned,
    [main] raises the same exception, and nothing is done for the months
    after it, not even a request. *)
Theorem failed_month_stops_the_run
    (env : gmap string string) (resolve : string -> string) (today : date)
    (remote : CNPJDownloader.Remote)
    (propfind : nat -> string -> CNPJMonthFinder.PropfindAnswer)
    (now : Z) (strptime : string -> option Z)
    (extract_month : string -> string -> string -> M Main.ExtractResult)
    (setup : string -> string -> M unit)
    (load_raw load_dim build_leads : string -> string -> string -> M unit)
    (prog : string) (args : list string) (s : State)
    (st : Config.Settings) (first : string) (later : list string) (e : Exn) :
  Config.get_settings env resolve today = inr st ->
  result (CNPJMonthFinder.get_updated_months propfind now strptime 15 s)
  = inr (first :: later) ->
  let d := CNPJDownloader.download_month remote
             (PyStr.truediv (Config.data_dir st) "raw") first (tick s) in
  result d = inl e ->
  let o := Main.main env resolve today remote propfind now strptime extract_month setup
             load_raw load_dim build_leads (prog :: "download" :: args) s in
  result o = inl e
  /\ state o = state d
  /\ actions (events o) = Propfind root_url :: actions (events d).
Proof.
  intros Hst Hf d Hd. cbv zeta.
  rewrite (main_pipeline env resolve today remote propfind now strptime extract_month setup
             load_raw load_dim build_leads st prog "download" args s Hst eq_refl eq_refl
             eq_refl).
  destruct (finder_facts propfind now strptime s) as [Hact Hstate].
  rewrite (bind_inr _ _ _ _ Hf), months_block_run, Hstate. cbv zeta.
  rewrite (month_loop_download_fails remote extract_month load_raw load_dim build_leads
             _ _ _ first later (tick s) e Hd).
  fold d.
  cbn [events state result app].
  rewrite actions_app, Hact. cbn [app]. rewrite !actions_cons, app_nil_r.
  now repeat split.
Qed.

Lemma failed_month_stops_the_run_witness :
  result (MainScenario.main MainScenario.env MainScenario.remote_down
            ["main.py"; "download"] Scenario.nothing_local)
  = inl (mkRuntimeError "Failed to list ZIPs for 2026-10").
Proof.
  unfold MainScenario.main.
  destruct (failed_month_stops_the_run MainScenario.env MainScenario.resolve
              MainScenario.today MainScenario.remote_down FinderScenario.propfind_steady
              FinderScenario.now FinderScenario.strptime MainScenario.extract_month
              MainScenario.setup MainScenario.load MainScenario.load MainScenario.load
              "main.py" [] Scenario.nothing_local
              {| Config.data_dir := "/app/data";
                 Config.duckdb_path := "/app/data/db/local.duckdb";
                 Config.cnpj_month := "2026-10";
                 Config.nextcloud_public_token := "s3cret" |}
              "2026-10" ["2026-11"]
              (mkRuntimeError "Failed to list ZIPs for 2026-10")) as (H & _).
  - vm_compute. reflexivity.
  - vm_compute. reflexivity.
  - vm_compute. reflexivity.
  - exact H.
Defined.

(* ================================================================== *)
(** * The declared length of a transfer                                 *)
(* ================================================================== *)

Lemma clean_end_succeeds (remote : Remote) (url out_path : string) (n : nat)
    (resp : Response) :
  get remote n url = GetResponds resp ->
  Py.contains "zip" (declared_type resp) = true ->
  content_length resp <> LengthInvalid ->
  body_end resp = None ->
  attempt_result remote url out_path n = inr tt.
Proof.
  intros Hget Htype Hlen Hend.
  unfold attempt_result, download_attempt, bind, http_get, _ensure_dir, open_wb,
    get_files, set_files, ret.
  cbn [result events state requests]. rewrite Hget.
  unfold declared_type in Htype. rewrite Htype. cbn [negb].
  destruct (content_length resp); [| congruence |]; cbn [result events state];
    rewrite Hend; apply write_chunks_ends.
Qed.

(** X18.  The Content-Length a response declares is never compared with
    the bytes received: when the declared type contains "zip" and the body
    ends without an exception, [_download_file] returns after one GET
    whatever integer the header holds, and the file is what was received,
    short as it may be. *)
Theorem declared_length_is_not_checked (remote : Remote) (url out_path : string)
    (s : State) (resp : Response) (n : Z) :
  get remote (requests s) url = GetResponds resp ->
  Py.contains "zip" (declared_type resp) = true ->
  content_length resp = LengthValue n ->
  body_end resp = None ->
  let o := _download_file remote url out_path 3 s in
  result o = inr tt
  /\ events o = [Get url]
  /\ files (state o) !! out_path = Some (received (body resp)).
Proof.
  intros Hget Htype Hlen Hend. cbv zeta.
  assert (Hok : attempt_result remote url out_path (requests s) = inr tt).
  { apply (clean_end_succeeds remote url out_path _ resp Hget Htype); [| exact Hend].
    rewrite Hlen. discriminate. }
  unfold _download_file. change (Z.to_nat 3) with 3%nat.
  rewrite download_loop_step. cbv zeta.
  destruct (download_attempt_facts remote url out_path s) as (Hev & _ & _ & Hres).
  rewrite <- Hres in Hok. rewrite Hok.
  split; [exact Hok |]. split; [exact Hev |].
  now apply download_attempt_content.
Qed.

Lemma declared_length_is_not_checked_witness :
  result (_download_file TransferScenario.remote_short
            (_build_file_url "2024-01" "Cnaes.zip") "data/raw/2024-01/Cnaes.zip" 3
            Scenario.nothing_local) = inr tt
  /\ files (state (_download_file TransferScenario.remote_short
                     (_build_file_url "2024-01" "Cnaes.zip")
                     "data/raw/2024-01/Cnaes.zip" 3 Scenario.nothing_local))
       !! "data/raw/2024-01/Cnaes.zip" = Some "PK".
Proof.
  destruct (declared_length_is_not_checked TransferScenario.remote_short
              (_build_file_url "2024-01" "Cnaes.zip") "data/raw/2024-01/Cnaes.zip"
              Scenario.nothing_local TransferScenario.short_body 4096)
    as (H1 & _ & H2); try reflexivity.
  split; [exact H1 | exact H2].
Defined.
